(** * DHCP options scanner ([testDHCP.py]): packet codec, frame
      demultiplexer, discover/offer exchange and option interpreter.

    The development is a shallow embedding of the Python source.  Python
    [bytes] are lists of [Byte.byte]; Python integers are [Z]; [str] is
    [string] (UTF-8 for the non-ASCII literals); an exception is the
    [Raise] branch of the [result] monad; list indices and lengths are
    [nat].  The library functions the source calls ([struct.pack],
    [struct.unpack], [socket.inet_aton], [socket.inet_ntoa], [bytes.hex],
    [bytes.decode]) are modelled once, in their own modules. *)

From Stdlib Require Import String Ascii Strings.Byte Numbers.DecimalString.
From Stdlib Require Import ZArith List Bool Lia.
From Stdlib Require Import Sorting.Permutation Sorting.Sorted.
From Equations Require Import Equations.
Import ListNotations.
Local Open Scope string_scope.
Local Open Scope list_scope.
Local Open Scope Z_scope.

Set Default Goal Selector "!".

(* ===================================================================== *)
(** ** Bytes *)
(* ===================================================================== *)

Definition bytes : Type := list byte.

(** The integer a byte stands for ([data[i]] in Python). *)
Definition byte_val (b : byte) : Z := Z.of_N (Byte.to_N b).

(** The byte of an integer, modulo 256. *)
Definition Z_to_byte (z : Z) : byte :=
  match Byte.of_N (Z.to_N (z mod 256)) with
  | Some b => b
  | None => x00
  end.

(** [data[i]] for an index known to be in range. *)
Definition byte_at (data : bytes) (i : nat) : Z := byte_val (nth i data x00).

(** The Python slice [data[a:b]] for [0 <= a]; an end before the start
    gives the empty slice, an end past the data is clipped. *)
Definition slice (a b : nat) (data : bytes) : bytes :=
  firstn (b - a) (skipn a data).

(** [b.ljust(n, b'\x00')]. *)
Definition ljust (n : nat) (b : bytes) : bytes :=
  b ++ repeat x00 (n - length b).

(** [b.rstrip(b'\x00')]. *)
Fixpoint rstrip0 (b : bytes) : bytes :=
  match b with
  | [] => []
  | x :: r =>
      match rstrip0 r with
      | [] => if Byte.eqb x x00 then [] else [x]
      | r' => x :: r'
      end
  end.

(** Big-endian encoding of [v] on [n] bytes, and decoding. *)
Fixpoint be_encode (n : nat) (v : Z) : bytes :=
  match n with
  | O => []
  | S k => be_encode k (v / 256) ++ [Z_to_byte v]
  end.

Definition be_decode (b : bytes) : Z :=
  fold_left (fun acc x => acc * 256 + byte_val x) b 0.

(* ===================================================================== *)
(** ** Exceptions *)
(* ===================================================================== *)

Inductive exn : Type :=
| struct_error      (* struct.error *)
| ValueError
| TypeError
| IndexError
| OSError
| BlockingIOError.

Inductive result (A : Type) : Type :=
| Ok (a : A)
| Raise (e : exn).
Arguments Ok {A} a.
Arguments Raise {A} e.

Definition bind {A B} (r : result A) (k : A -> result B) : result B :=
  match r with
  | Ok a => k a
  | Raise e => Raise e
  end.

Notation "x <- r ;; k" := (bind r (fun x => k))
  (at level 61, r at next level, right associativity).

Definition is_ok {A} (r : result A) : bool :=
  match r with Ok _ => true | Raise _ => false end.

(** [bytes([v])]: a [ValueError] unless [0 <= v < 256]. *)
Definition bytes_of_int (v : Z) : result byte :=
  if (0 <=? v) && (v <? 256) then Ok (Z_to_byte v) else Raise ValueError.

(** [seq[i]] with Python's [IndexError] (non-negative index). *)
Definition index (data : bytes) (i : nat) : result Z :=
  match nth_error data i with
  | Some b => Ok (byte_val b)
  | None => Raise IndexError
  end.

(* ===================================================================== *)
(** ** The [struct] module, network byte order *)
(* ===================================================================== *)

Module struct.

Inductive code : Type :=
| fmt_B              (* unsigned char *)
| fmt_H              (* unsigned short *)
| fmt_L              (* unsigned long, 4 bytes *)
| fmt_l              (* signed long, 4 bytes *)
| fmt_s (n : nat).   (* n bytes *)

Inductive value : Type :=
| Int (z : Z)
| Bytes (b : bytes).

Definition size (c : code) : nat :=
  match c with
  | fmt_B => 1
  | fmt_H => 2
  | fmt_L => 4
  | fmt_l => 4
  | fmt_s n => n
  end%nat.

Definition calcsize (f : list code) : nat :=
  fold_right (fun c acc => (size c + acc)%nat) 0%nat f.

Definition in_range (lo hi v : Z) : bool := (lo <=? v) && (v <=? hi).

Definition pack_one (c : code) (v : value) : result bytes :=
  match c, v with
  | fmt_B, Int z =>
      if in_range 0 255 z then Ok (be_encode 1 z) else Raise struct_error
  | fmt_H, Int z =>
      if in_range 0 65535 z then Ok (be_encode 2 z) else Raise struct_error
  | fmt_L, Int z =>
      if in_range 0 4294967295 z then Ok (be_encode 4 z)
      else Raise struct_error
  | fmt_l, Int z =>
      if in_range (-2147483648) 2147483647 z then Ok (be_encode 4 z)
      else Raise struct_error
  | fmt_s n, Bytes b => Ok (firstn n b ++ repeat x00 (n - length b))
  | _, _ => Raise struct_error
  end.

Fixpoint pack (f : list code) (vs : list value) : result bytes :=
  match f, vs with
  | [], [] => Ok []
  | c :: f', v :: vs' =>
      b <- pack_one c v ;;
      r <- pack f' vs' ;;
      Ok (b ++ r)
  | _, _ => Raise struct_error
  end.

Definition unpack_one (c : code) (chunk : bytes) : value :=
  match c with
  | fmt_B | fmt_H | fmt_L => Int (be_decode chunk)
  | fmt_l =>
      let u := be_decode chunk in
      Int (if u <? 2147483648 then u else u - 4294967296)
  | fmt_s _ => Bytes chunk
  end.

Fixpoint unpack_all (f : list code) (data : bytes) : list value :=
  match f with
  | [] => []
  | c :: f' =>
      unpack_one c (firstn (size c) data)
        :: unpack_all f' (skipn (size c) data)
  end.

(** [struct.unpack(f, data)]: the buffer must have exactly the size of
    the format. *)
Definition unpack (f : list code) (data : bytes) : result (list value) :=
  if Nat.eqb (length data) (calcsize f) then Ok (unpack_all f data)
  else Raise struct_error.

(** [fields[k]] of an unpacked tuple, at the type the format gives. *)
Definition get_int (vs : list value) (k : nat) : Z :=
  match nth_error vs k with
  | Some (Int z) => z
  | _ => 0
  end.

Definition get_bytes (vs : list value) (k : nat) : bytes :=
  match nth_error vs k with
  | Some (Bytes b) => b
  | _ => []
  end.

End struct.

(* ===================================================================== *)
(** ** Text: [str(int)], [bytes.hex], [bytes.decode] *)
(* ===================================================================== *)

(** [str(z)] and the [{z}] of an f-string. *)
Definition str_int (z : Z) : string := NilZero.string_of_int (Z.to_int z).

(** The [{z:+d}] of an f-string: the sign is always written. *)
Definition str_int_signed (z : Z) : string :=
  if 0 <=? z then ("+" ++ str_int z)%string else str_int z.

Definition hex_digit (d : Z) : ascii :=
  ascii_of_N (Z.to_N (if d <? 10 then 48 + d else 87 + d)).

(** [b.hex()]: two lower-case digits a byte. *)
Fixpoint hex (b : bytes) : string :=
  match b with
  | [] => EmptyString
  | x :: r =>
      String (hex_digit (byte_val x / 16))
        (String (hex_digit (byte_val x mod 16)) (hex r))
  end.

(** [b.decode('ascii', errors='ignore')]: the bytes below 128, as
    characters; the others are dropped. *)
Fixpoint decode_ascii_ignore (b : bytes) : string :=
  match b with
  | [] => EmptyString
  | x :: r =>
      if byte_val x <? 128 then String (ascii_of_byte x) (decode_ascii_ignore r)
      else decode_ascii_ignore r
  end.

(* ===================================================================== *)
(** ** The [socket] module: [inet_aton], [inet_ntoa] *)
(* ===================================================================== *)

Module socket.

(** The Python object handed to the function: both functions check the
    type of their argument before anything else. *)
Inductive pyarg : Type :=
| Str (s : string)
| Packed (b : bytes).

Definition char_code (c : ascii) : Z := Z.of_N (N_of_ascii c).

Definition isdigit (c : ascii) : bool :=
  (48 <=? char_code c) && (char_code c <=? 57).

Definition isspace (c : ascii) : bool :=
  (char_code c =? 32) || ((9 <=? char_code c) && (char_code c <=? 13)).

(** The value of [c] as a digit of the given base, if it is one. *)
Definition digit_val (base : Z) (c : ascii) : option Z :=
  let n := char_code c in
  let d :=
    if (48 <=? n) && (n <=? 57) then Some (n - 48)
    else if (97 <=? n) && (n <=? 102) then Some (n - 87)
    else if (65 <=? n) && (n <=? 70) then Some (n - 55)
    else None in
  match d with
  | Some v => if v <? base then Some v else None
  | None => None
  end.

Fixpoint strtoul_digits (base : Z) (s : string) (acc : Z) : Z * string :=
  match s with
  | String c s' =>
      match digit_val base c with
      | Some d => strtoul_digits base s' (acc * base + d)
      | None => (acc, s)
      end
  | EmptyString => (acc, s)
  end.

(** [strtoul(cp, &endp, 0)] on a string that starts with a digit: [0x]
    before a hexadecimal digit selects base 16, another leading [0]
    base 8, anything else base 10.  The value and the unread rest. *)
Definition strtoul (s : string) : Z * string :=
  match s with
  | String "0" (String x (String h rest)) =>
      if ((char_code x =? 120) || (char_code x =? 88))
         && (match digit_val 16 h with Some _ => true | None => false end)
      then strtoul_digits 16 (String h rest) 0
      else strtoul_digits 8 s 0
  | String "0" _ => strtoul_digits 8 s 0
  | _ => strtoul_digits 10 s 0
  end.

(** The C library's [inet_aton] on numbers-and-dots notation: up to four
    parts; every part before a dot is one byte, the last part fills the
    bytes that remain.  [dots] is how many more dots may follow, [acc]
    the bytes read so far.  The 32-bit address in host-independent
    (big-endian) value, or [None] for an illegal string. *)
Fixpoint aton_loop (dots : nat) (s : string) (acc : Z) : option Z :=
  match s with
  | EmptyString => None
  | String c _ =>
      if negb (isdigit c) then None else
      let '(val, rest) := strtoul s in
      if val >? 4294967295 then None else
      match rest with
      | String "." rest' =>
          match dots with
          | O => None
          | S k => if val >? 255 then None
                   else aton_loop k rest' (acc * 256 + val)
          end
      | _ =>
          let trailing_ok :=
            match rest with
            | EmptyString => true
            | String t _ => (char_code t <? 128) && isspace t
            end in
          if negb trailing_ok then None
          else if val >? 256 ^ (Z.of_nat (S dots)) - 1 then None
          else Some (acc * 256 ^ (Z.of_nat (S dots)) + val)
      end
  end.

Fixpoint has_nul (s : string) : bool :=
  match s with
  | EmptyString => false
  | String c s' => (char_code c =? 0) || has_nul s'
  end.

(** [socket.inet_aton(ip_string)]: the argument must be a [str]
    ([TypeError] otherwise) without NUL ([ValueError]); an illegal
    address string is an [OSError]. *)
Definition inet_aton (a : pyarg) : result bytes :=
  match a with
  | Packed _ => Raise TypeError
  | Str s =>
      if has_nul s then Raise ValueError else
      match aton_loop 3 s 0 with
      | Some w => Ok (be_encode 4 w)
      | None => Raise OSError
      end
  end.

(** [socket.inet_ntoa(packed_ip)]: the argument must be bytes-like
    ([TypeError] otherwise) of length 4 ([OSError] otherwise). *)
Definition inet_ntoa (a : pyarg) : result string :=
  match a with
  | Str _ => Raise TypeError
  | Packed [a0; a1; a2; a3] =>
      Ok (str_int (byte_val a0) ++ "." ++ str_int (byte_val a1) ++ "."
          ++ str_int (byte_val a2) ++ "." ++ str_int (byte_val a3))%string
  | Packed _ => Raise OSError
  end.

End socket.


(* ===================================================================== *)
(** ** [DHCPPacket] *)
(* ===================================================================== *)

Definition DHCP_SERVER_PORT : Z := 67.
Definition DHCP_CLIENT_PORT : Z := 68.
Definition DHCP_MAGIC_COOKIE : bytes := [x63; x82; x53; x63].

(** One entry of the option list: [(opt_code, opt_data)]. *)
Definition option_entry : Type := (Z * bytes)%type.

Module DHCPPacket.
Import struct.

Record t : Type := mk {
  op : Z;
  htype : Z;
  hlen : Z;
  hops : Z;
  xid : Z;
  secs : Z;
  flags : Z;
  ciaddr : string;
  yiaddr : string;
  siaddr : string;
  giaddr : string;
  chaddr : bytes;
  sname : bytes;
  file : bytes;
  options : list option_entry
}.

Definition set_options (p : t) (o : list option_entry) : t :=
  mk (op p) (htype p) (hlen p) (hops p) (xid p) (secs p) (flags p)
     (ciaddr p) (yiaddr p) (siaddr p) (giaddr p)
     (chaddr p) (sname p) (file p) o.

(** [__init__].  [rnd] is the value [random.randint(0, 0xFFFFFFFF)]
    returns when it is called: [xid or ...] calls it for [None] and for
    [0]; [chaddr or ...] replaces [None] and the empty bytes;
    [options or []] replaces [None]. *)
Definition init (rnd : Z)
    (op htype hlen hops : Z) (xid : option Z) (secs flags : Z)
    (ciaddr yiaddr siaddr giaddr : string)
    (chaddr : option bytes) (sname file : bytes)
    (options : option (list option_entry)) : t :=
  mk op htype hlen hops
     (match xid with
      | Some x => if x =? 0 then rnd else x
      | None => rnd
      end)
     secs flags ciaddr yiaddr siaddr giaddr
     (match chaddr with
      | Some (x :: r) => x :: r
      | _ => repeat x00 16
      end)
     (ljust 64 sname) (ljust 128 file)
     (match options with
      | Some o => o
      | None => []
      end).

(** ['!BBBBLHHLLLL16s64s128s'] *)
Definition FORMAT : list code :=
  [fmt_B; fmt_B; fmt_B; fmt_B; fmt_L; fmt_H; fmt_H;
   fmt_L; fmt_L; fmt_L; fmt_L; fmt_s 16; fmt_s 64; fmt_s 128].

(** [struct.unpack('!L', socket.inet_aton(addr))[0]] *)
Definition aton_word (addr : string) : result Z :=
  packed <- socket.inet_aton (socket.Str addr) ;;
  v <- struct.unpack [fmt_L] packed ;;
  Ok (get_int v 0).

(** [socket.inet_ntoa(struct.pack('!L', w))] *)
Definition ntoa_word (w : Z) : result string :=
  packed <- struct.pack [fmt_L] [Int w] ;;
  socket.inet_ntoa (socket.Packed packed).

(** The [for opt_code, opt_data in self.options] loop of [pack]:
    [packet] is the buffer built so far. *)
Fixpoint pack_options (opts : list option_entry) (packet : bytes)
  : result bytes :=
  match opts with
  | [] => Ok packet
  | (opt_code, opt_data) :: rest =>
      if opt_code =? 0 then
        c <- bytes_of_int opt_code ;;
        pack_options rest (packet ++ [c])
      else if opt_code =? 255 then
        c <- bytes_of_int opt_code ;;
        pack_options rest (packet ++ [c])
      else
        let opt_len := Z.of_nat (length opt_data) in
        c <- bytes_of_int opt_code ;;
        n <- bytes_of_int opt_len ;;
        pack_options rest (packet ++ [c; n] ++ opt_data)
  end.

Definition pack (self : t) : result bytes :=
  ci <- aton_word (ciaddr self) ;;
  yi <- aton_word (yiaddr self) ;;
  si <- aton_word (siaddr self) ;;
  gi <- aton_word (giaddr self) ;;
  packet <- struct.pack FORMAT
    [Int (op self); Int (htype self); Int (hlen self); Int (hops self);
     Int (xid self); Int (secs self); Int (flags self);
     Int ci; Int yi; Int si; Int gi;
     Bytes (chaddr self); Bytes (sname self); Bytes (file self)] ;;
  let packet := packet ++ DHCP_MAGIC_COOKIE in
  packet <- pack_options (options self) packet ;;
  let packet :=
    if negb (existsb (fun opt => fst opt =? 255) (options self))
    then packet ++ [xff] else packet in
  Ok packet.

(** The [while i < len(data)] loop of [_parse_options].  It ends
    because [i] grows at every turn. *)
Equations? parse_loop (data : bytes) (i : nat) (options : list option_entry)
  : list option_entry by wf (length data - i)%nat lt :=
parse_loop data i options with lt_dec i (length data) => {
  | right _ => options
  | left _ with Z.eq_dec (byte_at data i) 0 => {
     | left _ => parse_loop data (S i) options
     | right _ with Z.eq_dec (byte_at data i) 255 => {
        | left _ => options
        | right _ with lt_dec (S i) (length data) => {
           | right _ => options
           | left _ =>
               let opt_code := byte_at data i in
               let opt_len := Z.to_nat (byte_at data (S i)) in
               let opt_data := slice (S (S i)) (S (S i) + opt_len) data in
               parse_loop data (S (S i) + opt_len)
                 (options ++ [(opt_code, opt_data)])
          }
       }
    }
}.
Proof. all: lia. Qed.

Definition _parse_options (data : bytes) : list option_entry :=
  parse_loop data 0 [].

(** [unpack]; [rnd] is the random source of the constructor. *)
Definition unpack (rnd : Z) (data : bytes) : result t :=
  fields <- struct.unpack FORMAT (slice 0 236 data) ;;
  ci <- ntoa_word (get_int fields 7) ;;
  yi <- ntoa_word (get_int fields 8) ;;
  si <- ntoa_word (get_int fields 9) ;;
  gi <- ntoa_word (get_int fields 10) ;;
  let obj :=
    init rnd
      (get_int fields 0) (get_int fields 1) (get_int fields 2)
      (get_int fields 3) (Some (get_int fields 4))
      (get_int fields 5) (get_int fields 6)
      ci yi si gi
      (Some (get_bytes fields 11))
      (rstrip0 (get_bytes fields 12)) (rstrip0 (get_bytes fields 13))
      None in
  let options_data := skipn 240 data in
  Ok (set_options obj (_parse_options options_data)).

End DHCPPacket.


(* ===================================================================== *)
(** ** Console output *)
(* ===================================================================== *)

(** The lines the program prints that tell one way of ending from
    another (the progress lines are left out). *)
Inductive console : Type :=
| MsgRawSocketError (e : exn)   (* "Ошибка создания RAW сокета: {e}" *)
| MsgParseWarning (e : exn)     (* "Ошибка при разборе пакета: {e}" *)
| MsgListenerFailed             (* "Не удалось запустить прослушиватель" *)
| MsgGotResponse                (* "Получен ответ от DHCP сервера!" *)
| MsgNoAnswer                   (* "DHCP сервер не ответил" *)
| MsgScanError (e : exn).       (* "Ошибка при сканировании: {e}" *)

(* ===================================================================== *)
(** ** [DHCPListener] *)
(* ===================================================================== *)

Module DHCPListener.
Import struct.

Record t : Type := mk {
  interface : option string;
  socket : bool;               (* [self.socket] is not [None] *)
  xid_filter : option Z
}.

Definition init (interface : option string) : t := mk interface false None.

(** [start]: [create] is what [socket.socket(...)] does, [bind] what
    binding and unblocking the new socket do.  A socket that was created
    stays in [self.socket] when binding fails. *)
Definition start (self : t) (create bind : result unit)
  : list console * t * bool :=
  match create with
  | Raise e => ([MsgRawSocketError e], self, false)
  | Ok _ =>
      let self := mk (interface self) true (xid_filter self) in
      match bind with
      | Raise e => ([MsgRawSocketError e], self, false)
      | Ok _ => ([], self, true)
      end
  end.

Definition set_filter (self : t) (xid : Z) : t :=
  mk (interface self) (socket self) (Some xid).

Definition stop (self : t) : t :=
  if socket self then mk (interface self) false (xid_filter self) else self.

(** What the checks between [recv] and [DHCPPacket.unpack] make of a
    captured frame: [continue] without a payload, or the DHCP data. *)
Inductive frame_class : Type :=
| NotApplicable
| Payload (dhcp_data : bytes).

(** [struct.unpack('!H', b)[0]] *)
Definition unpack_H (b : bytes) : result Z :=
  v <- struct.unpack [fmt_H] b ;;
  Ok (get_int v 0).

(** Lines 209-237 of [receive]. *)
Definition demux (packet : bytes) : result frame_class :=
  if (length packet <? 14)%nat then Ok NotApplicable else
  let ip_header := skipn 14 packet in
  proto <- index ip_header 9 ;;
  if negb (proto =? 17) then Ok NotApplicable else
  b0 <- index ip_header 0 ;;
  let ip_hlen := Z.land b0 15 * 4 in
  let udp_header := skipn (Z.to_nat ip_hlen) ip_header in
  src_port <- unpack_H (slice 0 2 udp_header) ;;
  dst_port <- unpack_H (slice 2 4 udp_header) ;;
  if negb (src_port =? 67) || negb (dst_port =? 68) then Ok NotApplicable
  else
  udp_length <- unpack_H (slice 4 6 udp_header) ;;
  let dhcp_data := slice 8 (Z.to_nat (8 + udp_length - 8)) udp_header in
  if (length dhcp_data <? 240)%nat then Ok NotApplicable
  else Ok (Payload dhcp_data).

(** One turn of the [while] loop, as the environment decides it. *)
Inductive poll : Type :=
| NotReady                             (* [select] reports nothing *)
| Received (packet : bytes) (rnd : Z)  (* [recv] returns [packet]; [rnd]
                                          is the random source while it
                                          is decoded *)
| Failed (e : exn).                    (* [select] or [recv] raises *)

(** The body of the [try]: [Ok None] is [continue], [Ok (Some p)] is
    [return p]. *)
Definition turn (self : t) (p : poll) : result (option DHCPPacket.t) :=
  match p with
  | NotReady => Ok None
  | Failed e => Raise e
  | Received packet rnd =>
      c <- demux packet ;;
      match c with
      | NotApplicable => Ok None
      | Payload dhcp_data =>
          dhcp_packet <- DHCPPacket.unpack rnd dhcp_data ;;
          match xid_filter self with
          | Some x =>
              if negb (DHCPPacket.xid dhcp_packet =? x) then Ok None
              else Ok (Some dhcp_packet)
          | None => Ok (Some dhcp_packet)
          end
      end
  end.

(** The [while time.time() - start_time < timeout] loop.  [polls] are
    the turns the clock leaves room for; the result carries the printed
    lines, the packet returned and the turns never taken. *)
Fixpoint receive_loop (self : t) (polls : list poll) (out : list console)
  : list console * option DHCPPacket.t * list poll :=
  match polls with
  | [] => (out, None, [])
  | p :: rest =>
      match turn self p with
      | Ok (Some dhcp_packet) => (out, Some dhcp_packet, rest)
      | Ok None => receive_loop self rest out
      | Raise BlockingIOError => receive_loop self rest out
      | Raise e => receive_loop self rest (out ++ [MsgParseWarning e])
      end
  end.

Definition receive (self : t) (polls : list poll)
  : list console * option DHCPPacket.t * list poll :=
  if negb (socket self) then ([], None, polls)
  else receive_loop self polls [].

End DHCPListener.

(* ===================================================================== *)
(** ** Building the DISCOVER frame *)
(* ===================================================================== *)

Definition create_dhcp_discover (rnd : Z) (mac : bytes) (xid : Z)
  : DHCPPacket.t :=
  let chaddr := ljust 16 mac in
  let requested_options : bytes :=
    [x01; x02; x03; x06; x0c; x0f; x1c; x2a; x33; x36; x3a; x3b; x65; x66] in
  let options : list option_entry :=
    [ (53, [x01]);
      (55, requested_options);
      (61, x01 :: mac);
      (12, list_byte_of_string "dhcp-scanner");
      (60, list_byte_of_string "python-scanner");
      (255, []) ] in
  DHCPPacket.init rnd 1 1 6 0 (Some xid) 0 0
    "0.0.0.0" "0.0.0.0" "0.0.0.0" "0.0.0.0"
    (Some chaddr) [] [] (Some options).

(** [rnd] serves the constructor, [port] and [ident] are the two
    [random.randint] draws of the headers. *)
Definition send_dhcp_discover_raw (rnd port ident : Z) (mac : bytes) (xid : Z)
  : result bytes :=
  let dhcp_packet := create_dhcp_discover rnd mac xid in
  dhcp_data <- DHCPPacket.pack dhcp_packet ;;
  let udp_length := 8 + Z.of_nat (length dhcp_data) in
  udp_header <- struct.pack
    [struct.fmt_H; struct.fmt_H; struct.fmt_H; struct.fmt_H]
    [struct.Int port; struct.Int DHCP_SERVER_PORT;
     struct.Int udp_length; struct.Int 0] ;;
  src <- socket.inet_aton (socket.Str "0.0.0.0") ;;
  dst <- socket.inet_aton (socket.Str "255.255.255.255") ;;
  ip_header <- struct.pack
    [struct.fmt_B; struct.fmt_B; struct.fmt_H; struct.fmt_H; struct.fmt_H;
     struct.fmt_B; struct.fmt_B; struct.fmt_H; struct.fmt_s 4; struct.fmt_s 4]
    [struct.Int 69; struct.Int 0; struct.Int (20 + udp_length);
     struct.Int ident; struct.Int 16384; struct.Int 128; struct.Int 17;
     struct.Int 0; struct.Bytes src; struct.Bytes dst] ;;
  eth_header <- struct.pack
    [struct.fmt_s 6; struct.fmt_s 6; struct.fmt_H]
    [struct.Bytes [xff; xff; xff; xff; xff; xff]; struct.Bytes mac;
     struct.Int 2048] ;;
  Ok (eth_header ++ ip_header ++ udp_header ++ dhcp_data).

(* ===================================================================== *)
(** ** [scan_dhcp_options] *)
(* ===================================================================== *)

(** A Python [dict] from option code to text: a key keeps the place of its
    first insertion, a later assignment replaces the value. *)
Definition dict : Type := list (Z * string).

Fixpoint dict_set (d : dict) (k : Z) (v : string) : dict :=
  match d with
  | [] => [(k, v)]
  | (k', v') :: r =>
      if k' =? k then (k, v) :: r else (k', v') :: dict_set r k v
  end.

Fixpoint dict_get (d : dict) (k : Z) : option string :=
  match d with
  | [] => None
  | (k', v') :: r => if k' =? k then Some v' else dict_get r k
  end.

Definition bytes_eqb (a b : bytes) : bool :=
  if list_eq_dec Byte.byte_eq_dec a b then true else false.

(** [msg_types.get(opt_data, default)] *)
Definition msg_types_get (opt_data : bytes) (default : string) : string :=
  if bytes_eqb opt_data [x01] then "DISCOVER"
  else if bytes_eqb opt_data [x02] then "OFFER"
  else if bytes_eqb opt_data [x03] then "REQUEST"
  else if bytes_eqb opt_data [x05] then "ACK"
  else if bytes_eqb opt_data [x06] then "NAK"
  else default.

Definition in_codes (c : Z) (l : list Z) : bool := existsb (Z.eqb c) l.

(** [range(0, n, 4)] *)
Definition range4 (n : nat) : list nat :=
  map (fun k => (4 * k)%nat) (seq 0 ((n + 3) / 4)).

(** The [for i in range(0, len(opt_data), 4)] loop of the address
    branch (lines 408-410). *)
Fixpoint address_loop (idx : list nat) (opt_data : bytes) (ips : list string)
  : result (list string) :=
  match idx with
  | [] => Ok ips
  | i :: rest =>
      ip <- socket.inet_aton (socket.Packed (slice i (i + 4) opt_data)) ;;
      a <- socket.inet_ntoa (socket.Packed ip) ;;
      address_loop rest opt_data (ips ++ [a])
  end.

(** The body of the [for opt_code, opt_data in response.options] loop
    (lines 394-421): the text stored under [opt_code]. *)
Definition interpret_option (opt_code : Z) (opt_data : bytes)
  : result string :=
  if (opt_code =? 53) && negb (bytes_eqb opt_data []) then
    Ok (msg_types_get opt_data ("Unknown (" ++ hex opt_data ++ ")")%string)
  else if opt_code =? 2 then
    if (4 <=? length opt_data)%nat then
      v <- struct.unpack [struct.fmt_l] (slice 0 4 opt_data) ;;
      let offset := struct.get_int v 0 in
      let hours := offset / 3600 in
      let minutes := (offset mod 3600) / 60 in
      Ok (str_int offset ++ " сек (" ++ str_int_signed hours ++ "ч "
          ++ str_int minutes ++ "м)")%string
    else
      Ok ("0x" ++ hex opt_data)%string
  else if in_codes opt_code [1; 3; 6; 28; 42; 54]
          && (length opt_data mod 4 =? 0)%nat then
    ips <- address_loop (range4 (length opt_data)) opt_data [] ;;
    Ok (String.concat ", " ips)
  else if in_codes opt_code [51; 58; 59] && (length opt_data =? 4)%nat then
    v <- struct.unpack [struct.fmt_L] opt_data ;;
    let seconds := struct.get_int v 0 in
    Ok (str_int seconds ++ " сек")%string
  else if negb (bytes_eqb opt_data []) then
    Ok (decode_ascii_ignore opt_data)
  else
    Ok "Present".

Fixpoint interpret_loop (opts : list option_entry) (parsed_options : dict)
  : result dict :=
  match opts with
  | [] => Ok parsed_options
  | (opt_code, opt_data) :: rest =>
      v <- interpret_option opt_code opt_data ;;
      interpret_loop rest (dict_set parsed_options opt_code v)
  end.

(** The dictionary [scan_dhcp_options] returns. *)
Record scan_result : Type := mk_scan_result {
  response : DHCPPacket.t;
  parsed : dict;               (* ['options'] *)
  interface : string;
  mac : bytes
}.

(** What the environment decides during one scan. *)
Record world : Type := mk_world {
  mac_address : bytes;                 (* [get_mac_address(interface)] *)
  rnd_xid : Z;                         (* the [xid] drawn at line 352 *)
  rnd_ctor : Z;                        (* the constructor's own draw *)
  rnd_port : Z;                        (* UDP source port drawn *)
  rnd_ident : Z;                       (* IP identification drawn *)
  listen_create : result unit;         (* the listener's [socket.socket] *)
  listen_bind : result unit;           (* its [bind] and [setblocking] *)
  send_socket : result unit;           (* raw socket for sending, bound *)
  send : nat -> result unit;           (* the i-th [send_sock.send] *)
  polls : list DHCPListener.poll       (* the turns of the receive loop *)
}.

(** [for i in range(3): send_sock.send(discover_frame)] *)
Definition send_three (w : world) : result unit :=
  _ <- send w 0%nat ;;
  _ <- send w 1%nat ;;
  _ <- send w 2%nat ;;
  Ok tt.

(** The [try] block (lines 364-431): printed lines and either the value
    returned or the exception that leaves the block. *)
Definition scan_body (interface : string) (w : world)
    (listener : DHCPListener.t) (mac : bytes) (xid : Z)
  : list console * result (option scan_result) :=
  match
    (_ <- send_socket w ;;
     discover_frame <-
       send_dhcp_discover_raw (rnd_ctor w) (rnd_port w) (rnd_ident w) mac xid ;;
     send_three w)
  with
  | Raise e => ([], Raise e)
  | Ok _ =>
      let '(out, response, _) := DHCPListener.receive listener (polls w) in
      match response with
      | Some response =>
          match interpret_loop (DHCPPacket.options response) [] with
          | Ok parsed_options =>
              (out ++ [MsgGotResponse],
               Ok (Some (mk_scan_result response parsed_options interface mac)))
          | Raise e => (out ++ [MsgGotResponse], Raise e)
          end
      | None => (out ++ [MsgNoAnswer], Ok None)
      end
  end.

(** [scan_dhcp_options]: printed lines, returned value ([None] or the
    dictionary) and the listener as [finally] leaves it. *)
Definition scan_dhcp_options (interface : string) (w : world)
  : list console * option scan_result * DHCPListener.t :=
  let mac := mac_address w in
  let xid := rnd_xid w in
  let listener := DHCPListener.init (Some interface) in
  let '(out0, listener, started) :=
    DHCPListener.start listener (listen_create w) (listen_bind w) in
  if negb started then (out0 ++ [MsgListenerFailed], None, listener)
  else
    let listener := DHCPListener.set_filter listener xid in
    let '(out, r) := scan_body interface w listener mac xid in
    match r with
    | Ok v => (out0 ++ out, v, DHCPListener.stop listener)
    | Raise e =>
        (out0 ++ out ++ [MsgScanError e], None, DHCPListener.stop listener)
    end.


(* ===================================================================== *)
(** ** [display_results] *)
(* ===================================================================== *)

(** [DHCP_OPTIONS] (lines 23-45) *)
Definition DHCP_OPTIONS : dict :=
  [(1, "Subnet Mask");
   (2, "Time Offset");
   (3, "Router");
   (6, "DNS Server");
   (12, "Host Name");
   (15, "Domain Name");
   (28, "Broadcast Address");
   (42, "NTP Servers");
   (51, "IP Address Lease Time");
   (53, "DHCP Message Type");
   (54, "Server Identifier");
   (55, "Parameter Request List");
   (58, "Renewal Time");
   (59, "Rebinding Time");
   (61, "Client Identifier");
   (66, "TFTP Server Name");
   (67, "Bootfile Name");
   (101, "TZ Code");
   (102, "TZ String");
   (121, "Classless Static Route");
   (150, "TFTP Server Address")].

(** One call of [print].  The rows of the option table and the two
    counts keep their parts; [render] gives the text printed. *)
Inductive shown : Type :=
| Text (s : string)
| Found (n : nat)                                       (* line 454 *)
| Row (mark : string) (opt_code : Z) (opt_name value note : string)
| Total (n : nat).                                      (* line 509 *)

Definition nl : string := String "010" EmptyString.

(** [s * n] *)
Fixpoint str_mul (s : string) (n : nat) : string :=
  match n with
  | O => EmptyString
  | S k => (s ++ str_mul s k)%string
  end.

(** [{z:3}]: a number is put to the right of its columns. *)
Definition rjust (n : nat) (s : string) : string :=
  (str_mul " " (n - String.length s) ++ s)%string.

(** [{s:25}]: a text is put to the left of its columns (the names are
    ASCII texts: a byte a column). *)
Definition ljust_text (n : nat) (s : string) : string :=
  (s ++ str_mul " " (n - String.length s))%string.

Definition render (l : shown) : string :=
  match l with
  | Text s => s
  | Found n =>
      nl ++ "📋 Обнаруженные опции DHCP (" ++ str_int (Z.of_nat n) ++ "):"
  | Row mark opt_code opt_name value note =>
      "  " ++ mark ++ " " ++ rjust 3 (str_int opt_code) ++ " - "
      ++ ljust_text 25 opt_name ++ " : " ++ value ++ note
  | Total n =>
      nl ++ "📊 Итог: Обнаружено " ++ str_int (Z.of_nat n) ++ " опций DHCP"
  end%string.

(** Code that prints and in which a subscript [d[k]] can raise
    [KeyError]: it takes the lines printed so far and gives them back
    with a value, or with [None] once the [KeyError] is raised. *)
Definition printing (A : Type) : Type := list shown -> list shown * option A.

Definition bind_p {A B} (m : printing A) (k : A -> printing B) : printing B :=
  fun out =>
    match m out with
    | (out', Some a) => k a out'
    | (out', None) => (out', None)
    end.

Notation "x <~ m ;; k" := (bind_p m (fun x => k))
  (at level 61, m at next level, right associativity).

Definition print (l : shown) : printing unit :=
  fun out => (out ++ [l], Some tt).

(** [d[k]] *)
Definition getitem (d : dict) (k : Z) : printing string :=
  fun out => (out, dict_get d k).

(** [for x in l: body] *)
Fixpoint for_each {A} (l : list A) (body : A -> printing unit)
  : printing unit :=
  match l with
  | [] => fun out => (out, Some tt)
  | x :: r => _ <~ body x ;; for_each r body
  end.

(** [d.keys()] *)
Definition keys (d : dict) : list Z := map fst d.

(** [sorted(l)] on numbers. *)
Fixpoint insert_sorted (x : Z) (l : list Z) : list Z :=
  match l with
  | [] => [x]
  | y :: r => if x <=? y then x :: l else y :: insert_sorted x r
  end.

Definition sorted (l : list Z) : list Z := fold_right insert_sorted [] l.

(** [DHCP_OPTIONS.get(opt_code, f"Unknown ({opt_code})")] *)
Definition option_name (opt_code : Z) : string :=
  match dict_get DHCP_OPTIONS opt_code with
  | Some name => name
  | None => ("Unknown (" ++ str_int opt_code ++ ")")%string
  end.

(** Lines 458 and 459. *)
Definition time_options : list Z := [2; 42; 101; 102; 51; 58; 59].
Definition network_options : list Z := [1; 3; 6; 28; 54].

(** [display_results(results)] for the dictionary [scan_dhcp_options]
    returns. *)
Definition display_results (results : scan_result) : printing unit :=
  let response := response results in
  let options := parsed results in
  _ <~ print (Text (nl ++ str_mul "=" 60)) ;;
  _ <~ print (Text "РЕЗУЛЬТАТЫ СКАНИРОВАНИЯ DHCP") ;;
  _ <~ print (Text (str_mul "=" 60)) ;;
  _ <~ print (Text (nl ++ "📡 Основная информация:")) ;;
  _ <~ print (Text ("  Интерфейс:        " ++ interface results)) ;;
  _ <~ print (Text ("  MAC адрес:        "
                    ++ String.concat ":" (map (fun b => hex [b])
                                            (mac results)))) ;;
  _ <~ print (Text ("  Предлагаемый IP:  " ++ DHCPPacket.yiaddr response)) ;;
  _ <~ print (Text ("  DHCP сервер:      "
                    ++ (if negb (String.eqb (DHCPPacket.siaddr response) "0.0.0.0")
                        then DHCPPacket.siaddr response else "не указан"))) ;;
  _ <~ print (Found (length (DHCPPacket.options response))) ;;
  _ <~ print (Text (str_mul "-" 60)) ;;
  let other_options :=
    filter (fun opt_code =>
              negb (in_codes opt_code (time_options ++ network_options)))
      (sorted (keys options)) in
  _ <~ print (Text (nl ++ "⏰ Опции времени:")) ;;
  _ <~ for_each
         (sorted (filter (fun opt => in_codes opt time_options)
                    (keys options)))
         (fun opt_code =>
            let opt_name := option_name opt_code in
            value <~ getitem options opt_code ;;
            if opt_code =? 2 then
              print (Row "🔴" opt_code opt_name value " (УСТАРЕВШАЯ)")
            else if opt_code =? 42 then
              print (Row "🟢" opt_code opt_name value " (ВАЖНАЯ)")
            else
              print (Row "⚪" opt_code opt_name value EmptyString)) ;;
  _ <~ print (Text (nl ++ "🌐 Сетевые опции:")) ;;
  _ <~ for_each
         (sorted (filter (fun opt => in_codes opt network_options)
                    (keys options)))
         (fun opt_code =>
            let opt_name := option_name opt_code in
            value <~ getitem options opt_code ;;
            print (Row "🔵" opt_code opt_name value EmptyString)) ;;
  _ <~ print (Text (nl ++ "📄 Прочие опции:")) ;;
  _ <~ for_each (sorted other_options)
         (fun opt_code =>
            let opt_name := option_name opt_code in
            value <~ getitem options opt_code ;;
            print (Row "⚪" opt_code opt_name value EmptyString)) ;;
  _ <~ (if in_codes 2 (keys options) then
          _ <~ print (Text (nl ++ "⚠️  ВАЖНО: Роутер поддерживает устаревшую опцию Time Offset (2)")) ;;
          value <~ getitem options 2 ;;
          _ <~ print (Text ("   Значение: " ++ value)) ;;
          _ <~ print (Text "   Это указывает на использование устаревшей конфигурации") ;;
          print (Text "   Рекомендуется перейти на опцию 42 (NTP Servers)")
        else
          _ <~ print (Text (nl ++ "✅ Роутер НЕ поддерживает устаревшую опцию Time Offset (2)")) ;;
          print (Text "   Это нормально для современного оборудования")) ;;
  _ <~ (if in_codes 42 (keys options) then
          _ <~ print (Text (nl ++ "✅ Роутер поддерживает современную опцию NTP Servers (42)")) ;;
          value <~ getitem options 42 ;;
          _ <~ print (Text ("   Серверы NTP: " ++ value)) ;;
          print (Text "   Синхронизация времени через DHCP работает корректно")
        else
          _ <~ print (Text (nl ++ "⚠️  Роутер НЕ поддерживает опцию NTP Servers (42)")) ;;
          _ <~ print (Text "   Для синхронизации времени используйте:") ;;
          _ <~ print (Text "   1. Ручную настройку NTP на устройствах") ;;
          _ <~ print (Text "   2. Настройку NTP на самом роутере") ;;
          print (Text "   3. Другие методы синхронизации времени")) ;;
  print (Total (length options)).


(* ===================================================================== *)
(** * Vocabulary of the statements *)
(* ===================================================================== *)

(** What [struct.unpack] gives back for a value that was packed: numbers
    as they are, byte strings padded or cut to the width of the field. *)
Definition canon (c : struct.code) (v : struct.value) : struct.value :=
  match c, v with
  | struct.fmt_s n, struct.Bytes b =>
      struct.Bytes (firstn n b ++ repeat x00 (n - length b))
  | _, _ => v
  end.

Fixpoint canon_all (f : list struct.code) (vs : list struct.value)
  : list struct.value :=
  match f, vs with
  | c :: f', v :: vs' => canon c v :: canon_all f' vs'
  | _, _ => []
  end.


(** The bytes the encoder emits for one entry: a single code byte for
    Pad (0) and End (255), [code, len(data), data...] for the others. *)
Definition encode_entry (o : option_entry) : bytes :=
  let '(opt_code, opt_data) := o in
  if (opt_code =? 0) || (opt_code =? 255) then [Z_to_byte opt_code]
  else [Z_to_byte opt_code; Z_to_byte (Z.of_nat (length opt_data))]
       ++ opt_data.

(** An entry the encoder accepts: the code is a byte, and the data of an
    entry other than Pad and End has at most 255 bytes. *)
Definition entry_ok (o : option_entry) : bool :=
  let '(opt_code, opt_data) := o in
  (0 <=? opt_code) && (opt_code <? 256)
  && ((opt_code =? 0) || (opt_code =? 255)
      || (Z.of_nat (length opt_data) <? 256)).

(** An entry that is neither Pad nor End. *)
Definition plain_entry (o : option_entry) : bool :=
  negb (fst o =? 0) && negb (fst o =? 255).

(** What the decoder gives for the encoding of [opts] followed by bytes
    that decode to [k]: Pad entries disappear, and the first End entry
    ends the list. *)
Fixpoint strip (opts : list option_entry) (k : list option_entry)
  : list option_entry :=
  match opts with
  | [] => k
  | (opt_code, opt_data) :: rest =>
      if opt_code =? 0 then strip rest k
      else if opt_code =? 255 then []
      else (opt_code, opt_data) :: strip rest k
  end.

Definition has_end (opts : list option_entry) : bool :=
  existsb (fun opt => fst opt =? 255) opts.


(** A canonical dotted quad: what [inet_ntoa] writes for some address. *)
Definition dotted_quad (s : string) : Prop :=
  exists a, socket.inet_ntoa (socket.Packed a) = Ok s.

(** Fixed fields that fit the wire format: numbers in the range of their
    field, addresses canonical, byte fields of the width of their field. *)
Record fixed_ok (m : DHCPPacket.t) : Prop := {
  wf_op : 0 <= DHCPPacket.op m <= 255;
  wf_htype : 0 <= DHCPPacket.htype m <= 255;
  wf_hlen : 0 <= DHCPPacket.hlen m <= 255;
  wf_hops : 0 <= DHCPPacket.hops m <= 255;
  wf_xid : 0 <= DHCPPacket.xid m <= 4294967295;
  wf_secs : 0 <= DHCPPacket.secs m <= 65535;
  wf_flags : 0 <= DHCPPacket.flags m <= 65535;
  wf_ciaddr : dotted_quad (DHCPPacket.ciaddr m);
  wf_yiaddr : dotted_quad (DHCPPacket.yiaddr m);
  wf_siaddr : dotted_quad (DHCPPacket.siaddr m);
  wf_giaddr : dotted_quad (DHCPPacket.giaddr m);
  wf_chaddr : length (DHCPPacket.chaddr m) = 16%nat;
  wf_sname : length (DHCPPacket.sname m) = 64%nat;
  wf_file : length (DHCPPacket.file m) = 128%nat
}.

(** A well-formed message: fixed fields that fit, and entries the encoder
    accepts. *)
Definition well_formed (m : DHCPPacket.t) : Prop :=
  fixed_ok m /\ forallb entry_ok (DHCPPacket.options m) = true.

(** An option list without Pad or End anomalies: [body] holds entries
    that are neither Pad nor End, and the list is [body], alone or
    followed by one End entry without data. *)
Definition clean_options (opts body : list option_entry) : Prop :=
  forallb plain_entry body = true
  /\ (opts = body \/ opts = body ++ [(255, [])]).

(** The option list with an End entry appended if it has none. *)
Definition with_end (opts : list option_entry) : list option_entry :=
  if has_end opts then opts else opts ++ [(255, [])].

(** The DISCOVER message the program itself sends, for the hardware
    address aa:bb:cc:dd:ee:ff and the transaction 0xdeadbeef. *)
Definition discover_example : DHCPPacket.t :=
  create_dhcp_discover 0 [xaa; xbb; xcc; xdd; xee; xff] 3735928559.

Definition discover_example_body : list option_entry :=
  [ (53, [x01]);
    (55, [x01; x02; x03; x06; x0c; x0f; x1c; x2a; x33; x36; x3a; x3b;
          x65; x66]);
    (61, [x01; xaa; xbb; xcc; xdd; xee; xff]);
    (12, list_byte_of_string "dhcp-scanner");
    (60, list_byte_of_string "python-scanner") ].


(** Code 1 (subnet mask) with the data [FF FF FF 00]. *)
Definition mask_entry : option_entry := (1, [xff; xff; xff; x00]).

(** A stream cut in the middle of an option: one complete entry, then
    code 53 announcing four bytes of which one is there. *)
Definition truncated_stream : bytes :=
  encode_entry mask_entry ++ [x35; x04; x01].

(** The DISCOVER example with another option list. *)
Definition discover_with (opts : list option_entry) : DHCPPacket.t :=
  DHCPPacket.set_options discover_example opts.


(** *** Fields of a captured frame, at the offsets [receive] reads *)

Definition ip_header (frame : bytes) : bytes := skipn 14 frame.

(** The protocol byte, offset 9 of the IP header, if the frame has it. *)
Definition ip_protocol (frame : bytes) : option Z :=
  option_map byte_val (nth_error (ip_header frame) 9).

(** What follows the IP header, whose length is four times the low four
    bits of its first byte. *)
Definition udp_header (frame : bytes) : bytes :=
  skipn (Z.to_nat (Z.land (byte_at (ip_header frame) 0) 15 * 4))
        (ip_header frame).

(** The 16-bit field at offset [off], if its two bytes are there. *)
Definition field_H (b : bytes) (off : nat) : option Z :=
  match DHCPListener.unpack_H (slice off (off + 2) b) with
  | Ok v => Some v
  | Raise _ => None
  end.

Definition udp_src_port (frame : bytes) : option Z :=
  field_H (udp_header frame) 0.
Definition udp_dst_port (frame : bytes) : option Z :=
  field_H (udp_header frame) 2.
Definition udp_length (frame : bytes) : option Z :=
  field_H (udp_header frame) 4.

(** The frame the program sends for [discover_example], from UDP port
    40000. *)
Definition discover_frame_example : bytes :=
  match send_dhcp_discover_raw 0 40000 1 [xaa; xbb; xcc; xdd; xee; xff]
          3735928559 with
  | Ok f => f
  | Raise _ => []
  end.


(** *** Replies on the wire *)

(** The turn [p] of the receive loop delivers a frame that passes the
    checks and decodes to the message [m]. *)
Definition decodes_to (p : DHCPListener.poll) (m : DHCPPacket.t) : Prop :=
  exists packet rnd dhcp_data,
    p = DHCPListener.Received packet rnd
    /\ DHCPListener.demux packet = Ok (DHCPListener.Payload dhcp_data)
    /\ DHCPPacket.unpack rnd dhcp_data = Ok m.

(** A server message with [op] field [o], transaction [x] and message
    type [ty], offering 192.168.1.50 for 3600 seconds, with a subnet
    mask when [mask] is set. *)
Definition reply (o x : Z) (ty : byte) (mask : bool) : DHCPPacket.t :=
  DHCPPacket.init 0 o 1 6 0 (Some x) 0 0
    "0.0.0.0" "192.168.1.50" "192.168.1.1" "0.0.0.0"
    (Some (ljust 16 [xaa; xbb; xcc; xdd; xee; xff])) [] []
    (Some ([(53, [ty]); (51, [x00; x00; x0e; x10])]
           ++ (if mask then [mask_entry] else [])
           ++ [(255, [])])).

(** The same message as the decoder returns it (no End entry). *)
Definition reply_decoded (o x : Z) (ty : byte) (mask : bool) : DHCPPacket.t :=
  DHCPPacket.set_options (reply o x ty mask)
    ([(53, [ty]); (51, [x00; x00; x0e; x10])]
     ++ (if mask then [mask_entry] else [])).

Definition reply_data (m : DHCPPacket.t) : bytes :=
  match DHCPPacket.pack m with
  | Ok dhcp_data => dhcp_data
  | Raise _ => []
  end.

(** An Ethernet frame with a 20-byte IPv4 header and a UDP header from
    port 67 to port 68 around the encoding of [m]. *)
Definition reply_frame (m : DHCPPacket.t) : bytes :=
  let dhcp_data := reply_data m in
  let udp_length := 8 + Z.of_nat (length dhcp_data) in
  repeat xff 6 ++ repeat x02 6 ++ [x08; x00]
  ++ [x45; x00] ++ be_encode 2 (20 + udp_length)
  ++ [x00; x00; x40; x00; x40; x11; x00; x00]
  ++ [xc0; xa8; x01; x01] ++ [xff; xff; xff; xff]
  ++ be_encode 2 67 ++ be_encode 2 68 ++ be_encode 2 udp_length
  ++ [x00; x00]
  ++ dhcp_data.

Definition reply_poll (m : DHCPPacket.t) : DHCPListener.poll :=
  DHCPListener.Received (reply_frame m) 0.

(** A listener that was started and filters on [x]. *)
Definition listening (x : Z) : DHCPListener.t :=
  DHCPListener.mk (Some "eth0") true (Some x).


(** *** Ways a scan can end *)

(** A bind or send failure of the channel: the listener's socket cannot
    be created or bound, the sending socket cannot be created and bound,
    or one of the three sends fails. *)
Definition channel_failure (w : world) : bool :=
  negb (is_ok (listen_create w)) || negb (is_ok (listen_bind w))
  || negb (is_ok (send_socket w)) || negb (is_ok (send_three w)).

(** The DISCOVER frame can be built. *)
Definition frame_built (w : world) : bool :=
  is_ok (send_dhcp_discover_raw (rnd_ctor w) (rnd_port w) (rnd_ident w)
           (mac_address w) (rnd_xid w)).

(** The listener of a scan once it is started and filters. *)
Definition scan_listener (interface : string) (w : world) : DHCPListener.t :=
  DHCPListener.mk (Some interface) true (Some (rnd_xid w)).

(** What the receive loop of the scan returns. *)
Definition answer (interface : string) (w : world) : option DHCPPacket.t :=
  snd (fst (DHCPListener.receive (scan_listener interface w) (polls w))).

(** The value the caller of [scan_dhcp_options] gets, and the lines
    printed. *)
Definition returned (interface : string) (w : world) : option scan_result :=
  snd (fst (scan_dhcp_options interface w)).

Definition printed (interface : string) (w : world) : list console :=
  fst (fst (scan_dhcp_options interface w)).

(** A world where every channel operation succeeds and the receive loop
    takes the turns [ps]. *)
Definition quiet_world (ps : list DHCPListener.poll) : world :=
  mk_world [xaa; xbb; xcc; xdd; xee; xff] 3735928559 0 40000 1
    (Ok tt) (Ok tt) (Ok tt) (fun _ => Ok tt) ps.




(** An OFFER for the transaction of the request arrives, with or without
    a subnet mask option. *)
Definition offer_world (mask : bool) : world :=
  quiet_world [reply_poll (reply 2 3735928559 x02 mask)].


(** The dictionary a scan returns for the OFFER without subnet mask. *)
Definition offer_result : scan_result :=
  mk_scan_result (reply_decoded 2 3735928559 x02 false)
    [(53, "OFFER"); (51, "3600 сек")]
    "eth0" [xaa; xbb; xcc; xdd; xee; xff].


(** *** More vocabulary on option lists *)

(** The entries before the first End entry. *)
Fixpoint before_end (opts : list option_entry) : list option_entry :=
  match opts with
  | [] => []
  | o :: rest => if fst o =? 255 then [] else o :: before_end rest
  end.

Definition not_pad (o : option_entry) : bool := negb (fst o =? 0).

(** An entry as the decoder can return it: a code from 1 to 254 and at
    most 255 bytes of data. *)
Definition decoded_entry (o : option_entry) : Prop :=
  1 <= fst o <= 254 /\ (length (snd o) <= 255)%nat.


(** The random draws made while frames are decoded are not zero. *)
Definition draws_nonzero (polls : list DHCPListener.poll) : Prop :=
  Forall (fun p => forall packet rnd,
            p = DHCPListener.Received packet rnd -> rnd <> 0) polls.


(** An option of an address-list code whose data is a positive multiple
    of four bytes long: what a server sends as subnet mask, router, DNS
    server, broadcast address, NTP server or server identifier. *)
Definition address_entry (o : option_entry) : bool :=
  in_codes (fst o) [1; 3; 6; 28; 42; 54]
  && negb (bytes_eqb (snd o) [])
  && (length (snd o) mod 4 =? 0)%nat.


(** *** What [display_results] shows *)

(** The rows of the option table among the lines printed, as pairs of
    code and value, and the counts of the two count lines. *)
Definition rows (out : list shown) : list (Z * string) :=
  flat_map (fun l => match l with
                     | Row _ opt_code _ value _ => [(opt_code, value)]
                     | _ => []
                     end) out.

Definition found_counts (out : list shown) : list nat :=
  flat_map (fun l => match l with Found n => [n] | _ => [] end) out.

Definition total_counts (out : list shown) : list nat :=
  flat_map (fun l => match l with Total n => [n] | _ => [] end) out.

(** The value under a key of a dictionary that has the key. *)
Definition value_of (d : dict) (k : Z) : string :=
  match dict_get d k with
  | Some v => v
  | None => EmptyString
  end.

(** [m] prints the lines [ls], raises nothing and gives [a]. *)
Definition appends {A} (m : printing A) (ls : list shown) (a : A) : Prop :=
  forall out, m out = (out ++ ls, Some a).

(** Lines that are no row of the table and no count. *)
Definition plain (ls : list shown) : Prop :=
  Forall (fun l => exists s, l = Text s) ls.


(** *** Frames cut short *)

(** The DISCOVER frame cut after its UDP source port: 14 bytes of
    Ethernet header, the 20 bytes of the IP header with protocol 17, and
    the two bytes of the source port 40000. *)
Definition cut_frame_example : bytes := firstn 36 discover_frame_example.

(** An Ethernet header and eight more bytes, all zero: the frame ends
    before the protocol byte, and the header length it announces is 0. *)
Definition stub_frame_example : bytes := repeat x00 22.


(** *** Failed turns of the receive loop *)



(* ===================================================================== *)
(** * Properties *)
(* ===================================================================== *)

(** ** Bytes and big-endian numbers *)

Lemma byte_val_range (b : byte) : 0 <= byte_val b < 256.
Proof.
  unfold byte_val. pose proof (Byte.to_N_bounded b). lia.
Qed.

Lemma Z_to_byte_val (b : byte) : Z_to_byte (byte_val b) = b.
Proof.
  unfold Z_to_byte. rewrite Z.mod_small by apply byte_val_range.
  unfold byte_val. rewrite N2Z.id, Byte.of_to_N. reflexivity.
Qed.

Lemma byte_val_Z_to_byte (z : Z) : byte_val (Z_to_byte z) = z mod 256.
Proof.
  unfold Z_to_byte.
  pose proof (Z.mod_pos_bound z 256 ltac:(lia)) as Hr.
  destruct (Byte.of_N (Z.to_N (z mod 256))) as [b|] eqn:E.
  - apply Byte.to_of_N in E. unfold byte_val. rewrite E. lia.
  - apply Byte.of_N_None_iff in E. lia.
Qed.

Lemma Z_to_byte_mod (z : Z) : Z_to_byte (z mod 256) = Z_to_byte z.
Proof.
  unfold Z_to_byte. rewrite Z.mod_mod by lia. reflexivity.
Qed.

Lemma be_encode_length (n : nat) (v : Z) : length (be_encode n v) = n.
Proof.
  revert v. induction n as [|n IH]; intros v; simpl.
  - reflexivity.
  - rewrite length_app, IH. simpl. lia.
Qed.

Lemma be_decode_snoc (b : bytes) (x : byte) :
  be_decode (b ++ [x]) = be_decode b * 256 + byte_val x.
Proof.
  unfold be_decode. rewrite fold_left_app. reflexivity.
Qed.

Lemma be_decode_range (b : bytes) :
  0 <= be_decode b < 256 ^ Z.of_nat (length b).
Proof.
  induction b as [|x b IH] using rev_ind.
  - simpl. unfold be_decode. simpl. lia.
  - rewrite be_decode_snoc, length_app. simpl length.
    rewrite Nat2Z.inj_add, Z.pow_add_r by lia.
    pose proof (byte_val_range x). change (256 ^ Z.of_nat 1) with 256. nia.
Qed.

(** Decoding then encoding on the same width gives the bytes back. *)
Lemma be_encode_decode (b : bytes) :
  be_encode (length b) (be_decode b) = b.
Proof.
  induction b as [|x b IH] using rev_ind.
  - reflexivity.
  - rewrite length_app. simpl length. rewrite Nat.add_1_r. simpl.
    rewrite be_decode_snoc.
    pose proof (byte_val_range x).
    replace ((be_decode b * 256 + byte_val x) / 256) with (be_decode b)
      by (apply Z.div_unique with (r := byte_val x); lia).
    rewrite IH. f_equal. f_equal.
    rewrite <- Z_to_byte_mod.
    replace ((be_decode b * 256 + byte_val x) mod 256) with (byte_val x)
      by (apply Z.mod_unique with (q := be_decode b); lia).
    apply Z_to_byte_val.
Qed.

(** Encoding then decoding gives the number back, modulo the width. *)
Lemma be_decode_encode (n : nat) (v : Z) :
  be_decode (be_encode n v) = v mod 256 ^ Z.of_nat n.
Proof.
  revert v. induction n as [|n IH]; intros v.
  - simpl. unfold be_decode. simpl. rewrite Z.mod_1_r. reflexivity.
  - cbn [be_encode]. rewrite be_decode_snoc, IH, byte_val_Z_to_byte.
    rewrite Nat2Z.inj_succ, Z.pow_succ_r by lia.
    rewrite Z.rem_mul_r by lia. lia.
Qed.

Lemma be_decode_encode_small (n : nat) (v : Z) :
  0 <= v < 256 ^ Z.of_nat n -> be_decode (be_encode n v) = v.
Proof.
  intros H. rewrite be_decode_encode. apply Z.mod_small. exact H.
Qed.

(** ** [struct]: unpacking what was packed *)

Lemma Ok_inj {A : Type} (a b : A) : Ok a = Ok b -> a = b.
Proof. congruence. Qed.

Lemma pack_one_length (c : struct.code) (v : struct.value) (b : bytes) :
  struct.pack_one c v = Ok b -> length b = struct.size c.
Proof.
  destruct c, v; cbn [struct.pack_one struct.size]; try discriminate;
    try (destruct (struct.in_range _ _ _); try discriminate;
         intros H%Ok_inj; subst b; apply be_encode_length).
  intros H%Ok_inj; subst b. rewrite length_app, length_firstn, repeat_length. lia.
Qed.

Lemma in_range_spec (lo hi v : Z) :
  struct.in_range lo hi v = true <-> lo <= v <= hi.
Proof. unfold struct.in_range. lia. Qed.

Lemma unpack_one_pack_one (c : struct.code) (v : struct.value) (b : bytes) :
  struct.pack_one c v = Ok b -> struct.unpack_one c b = canon c v.
Proof.
  destruct c, v;
    cbn [struct.pack_one struct.unpack_one canon]; try discriminate;
    try (destruct (struct.in_range _ _ _) eqn:R; try discriminate;
         apply in_range_spec in R; intros H%Ok_inj; subst b).
  - rewrite be_decode_encode_small; [reflexivity | simpl; lia].
  - rewrite be_decode_encode_small; [reflexivity | simpl; lia].
  - rewrite be_decode_encode_small; [reflexivity | simpl; lia].
  - cbv zeta. rewrite be_decode_encode. change (256 ^ Z.of_nat 4) with 4294967296.
    destruct (Z.ltb_spec z 0) as [Hneg|Hpos].
    + replace (z mod 4294967296) with (z + 4294967296)
        by (apply Z.mod_unique with (q := -1); lia).
      destruct (Z.ltb_spec (z + 4294967296) 2147483648); [lia|].
      f_equal. lia.
    + rewrite Z.mod_small by lia.
      destruct (Z.ltb_spec z 2147483648); [reflexivity | lia].
  - intros H%Ok_inj; subst b. reflexivity.
Qed.

Lemma pack_length (f : list struct.code) :
  forall vs d, struct.pack f vs = Ok d -> length d = struct.calcsize f.
Proof.
  induction f as [|c f IH]; intros [|v vs] d; simpl; try discriminate.
  - intros [= <-]. reflexivity.
  - destruct (struct.pack_one c v) as [b|] eqn:E1; simpl; [|discriminate].
    destruct (struct.pack f vs) as [r|] eqn:E2; simpl; [|discriminate].
    intros H%Ok_inj; subst d. rewrite length_app.
    rewrite (pack_one_length _ _ _ E1), (IH _ _ E2). reflexivity.
Qed.

Lemma unpack_all_pack (f : list struct.code) :
  forall vs d, struct.pack f vs = Ok d ->
               struct.unpack_all f d = canon_all f vs.
Proof.
  induction f as [|c f IH]; intros [|v vs] d; simpl; try discriminate.
  - reflexivity.
  - destruct (struct.pack_one c v) as [b|] eqn:E1; simpl; [|discriminate].
    destruct (struct.pack f vs) as [r|] eqn:E2; simpl; [|discriminate].
    intros H%Ok_inj; subst d.
    pose proof (pack_one_length _ _ _ E1) as Hl.
    rewrite <- Hl, firstn_app, skipn_app, Nat.sub_diag, firstn_all, skipn_all.
    simpl. rewrite app_nil_r. f_equal.
    + apply unpack_one_pack_one. exact E1.
    + apply IH. exact E2.
Qed.

(** [struct.unpack] inverts [struct.pack], up to the padding of byte
    fields. *)
Lemma unpack_pack (f : list struct.code) (vs : list struct.value) (d : bytes) :
  struct.pack f vs = Ok d -> struct.unpack f d = Ok (canon_all f vs).
Proof.
  intros H. unfold struct.unpack.
  rewrite (pack_length _ _ _ H), Nat.eqb_refl.
  f_equal. apply unpack_all_pack. exact H.
Qed.

Lemma unpack_short (f : list struct.code) (d : bytes) :
  length d <> struct.calcsize f -> struct.unpack f d = Raise struct_error.
Proof.
  intros H. unfold struct.unpack.
  destruct (Nat.eqb_spec (length d) (struct.calcsize f)); [contradiction|].
  reflexivity.
Qed.

(** ** The option decoder, seen on the list of bytes that remain *)

Import DHCPPacket.

Lemma parse_loop_unfold (data : bytes) (i : nat) (acc : list option_entry) :
  parse_loop data i acc =
  if lt_dec i (length data) then
    if Z.eq_dec (byte_at data i) 0 then parse_loop data (S i) acc
    else if Z.eq_dec (byte_at data i) 255 then acc
    else if lt_dec (S i) (length data) then
      parse_loop data (S (S i) + Z.to_nat (byte_at data (S i)))
        (acc ++ [(byte_at data i,
                  slice (S (S i)) (S (S i) + Z.to_nat (byte_at data (S i)))
                    data)])
    else acc
  else acc.
Proof.
  rewrite parse_loop_equation_1.
  destruct (lt_dec i (length data)); simpl; [|reflexivity].
  destruct (Z.eq_dec (byte_at data i) 0); simpl; [reflexivity|].
  destruct (Z.eq_dec (byte_at data i) 255); simpl; [reflexivity|].
  destruct (lt_dec (S i) (length data)); reflexivity.
Qed.

Lemma parse_loop_past_end (data : bytes) (i : nat) (acc : list option_entry) :
  (length data <= i)%nat -> parse_loop data i acc = acc.
Proof.
  intros H. rewrite parse_loop_unfold.
  destruct (lt_dec i (length data)); [lia | reflexivity].
Qed.

Lemma byte_at_app_r (pre data : bytes) (i : nat) :
  byte_at (pre ++ data) (length pre + i) = byte_at data i.
Proof. unfold byte_at. rewrite app_nth2_plus. reflexivity. Qed.

Lemma slice_app_r (pre data : bytes) (a b : nat) :
  slice (length pre + a) (length pre + b) (pre ++ data) = slice a b data.
Proof.
  unfold slice. rewrite skipn_app.
  replace (length pre + a - length pre)%nat with a by lia.
  rewrite skipn_all2 by lia. simpl. f_equal. lia.
Qed.

(** The loop does not look back: what it appends from index [i] on only
    depends on the bytes from [i] on. *)
Lemma parse_loop_shift (data : bytes) :
  forall n pre i acc,
    (length data - i <= n)%nat ->
    parse_loop (pre ++ data) (length pre + i) acc = acc ++ parse_loop data i [].
Proof.
  induction n as [|n IH]; intros pre i acc Hn.
  - rewrite !parse_loop_past_end by (rewrite ?length_app; lia).
    rewrite app_nil_r. reflexivity.
  - rewrite (parse_loop_unfold (pre ++ data)), (parse_loop_unfold data).
    rewrite length_app, byte_at_app_r.
    destruct (lt_dec i (length data)) as [Hi|Hi];
      destruct (lt_dec (length pre + i) (length pre + length data));
      try lia; [|rewrite app_nil_r; reflexivity].
    destruct (Z.eq_dec (byte_at data i) 0).
    { replace (S (length pre + i)) with (length pre + S i)%nat by lia.
      apply IH. lia. }
    destruct (Z.eq_dec (byte_at data i) 255); [rewrite app_nil_r; reflexivity|].
    destruct (lt_dec (S i) (length data));
      destruct (lt_dec (S (length pre + i)) (length pre + length data));
      try lia; [|rewrite app_nil_r; reflexivity].
    replace (S (length pre + i)) with (length pre + S i)%nat by lia.
    rewrite byte_at_app_r.
    set (L := Z.to_nat (byte_at data (S i))).
    replace (S (length pre + S i)) with (length pre + S (S i))%nat by lia.
    replace (length pre + S (S i) + L)%nat
      with (length pre + (S (S i) + L))%nat by lia.
    rewrite slice_app_r, IH by lia.
    match goal with
    | |- _ = _ ++ parse_loop _ ?j ([] ++ [?e]) =>
        pose proof (IH [] j [e] ltac:(lia)) as Hacc
    end.
    simpl in Hacc. simpl. rewrite Hacc, <- app_assoc. reflexivity.
Qed.

Lemma parse_loop_app (pre data : bytes) (acc : list option_entry) :
  parse_loop (pre ++ data) (length pre) acc = acc ++ _parse_options data.
Proof.
  rewrite <- (Nat.add_0_r (length pre)).
  apply parse_loop_shift with (n := length data). lia.
Qed.

Lemma parse_nil : _parse_options [] = [].
Proof. unfold _parse_options. apply parse_loop_past_end. simpl. lia. Qed.

Lemma parse_pad (c : byte) (rest : bytes) :
  byte_val c = 0 -> _parse_options (c :: rest) = _parse_options rest.
Proof.
  intros Hc. unfold _parse_options at 1. rewrite parse_loop_unfold.
  simpl length. destruct (lt_dec 0 (S (length rest))); [|lia].
  change (byte_at (c :: rest) 0) with (byte_val c).
  destruct (Z.eq_dec (byte_val c) 0); [|contradiction].
  apply (parse_loop_app [c] rest []).
Qed.

Lemma parse_end (c : byte) (rest : bytes) :
  byte_val c = 255 -> _parse_options (c :: rest) = [].
Proof.
  intros Hc. unfold _parse_options. rewrite parse_loop_unfold.
  simpl length. destruct (lt_dec 0 (S (length rest))); [|lia].
  change (byte_at (c :: rest) 0) with (byte_val c).
  destruct (Z.eq_dec (byte_val c) 0); [lia|].
  destruct (Z.eq_dec (byte_val c) 255); [reflexivity | contradiction].
Qed.

(** A code with nothing after it, not even the length byte, is dropped. *)
Lemma parse_code_only (c : byte) :
  byte_val c <> 0 -> byte_val c <> 255 -> _parse_options [c] = [].
Proof.
  intros H0 H255. unfold _parse_options. rewrite parse_loop_unfold.
  simpl length. destruct (lt_dec 0 1); [|lia].
  change (byte_at [c] 0) with (byte_val c).
  destruct (Z.eq_dec (byte_val c) 0); [contradiction|].
  destruct (Z.eq_dec (byte_val c) 255); [contradiction|].
  destruct (lt_dec 1 1); [lia | reflexivity].
Qed.

(** A code and a length byte: the entry takes the bytes there are, up to
    the length announced, and the scan goes on after them. *)
Lemma parse_entry (c l : byte) (rest : bytes) :
  byte_val c <> 0 -> byte_val c <> 255 ->
  _parse_options (c :: l :: rest) =
  (byte_val c, firstn (Z.to_nat (byte_val l)) rest)
    :: _parse_options (skipn (Z.to_nat (byte_val l)) rest).
Proof.
  intros H0 H255. unfold _parse_options at 1. rewrite parse_loop_unfold.
  simpl length. destruct (lt_dec 0 (S (S (length rest)))); [|lia].
  change (byte_at (c :: l :: rest) 0) with (byte_val c).
  change (byte_at (c :: l :: rest) 1) with (byte_val l).
  destruct (Z.eq_dec (byte_val c) 0); [contradiction|].
  destruct (Z.eq_dec (byte_val c) 255); [contradiction|].
  destruct (lt_dec 1 (S (S (length rest)))); [|lia].
  set (L := Z.to_nat (byte_val l)).
  replace (slice 2 (2 + L) (c :: l :: rest)) with (firstn L rest)
    by (unfold slice; simpl skipn; f_equal; lia).
  destruct (Nat.le_gt_cases L (length rest)) as [Hle|Hgt].
  - rewrite <- (firstn_skipn L rest) at 1.
    change (c :: l :: firstn L rest ++ skipn L rest)
      with ((c :: l :: firstn L rest) ++ skipn L rest).
    replace (2 + L)%nat with (length (c :: l :: firstn L rest))
      by (simpl; rewrite length_firstn; lia).
    rewrite parse_loop_app. reflexivity.
  - rewrite parse_loop_past_end by (simpl; lia).
    rewrite skipn_all2 by lia. rewrite parse_nil. reflexivity.
Qed.

(** ** The option encoder *)

Lemma byte_val_Z_to_byte_small (z : Z) :
  0 <= z < 256 -> byte_val (Z_to_byte z) = z.
Proof. intros H. rewrite byte_val_Z_to_byte. apply Z.mod_small. exact H. Qed.

Lemma bytes_of_int_ok (v : Z) :
  0 <= v < 256 -> bytes_of_int v = Ok (Z_to_byte v).
Proof.
  intros H. unfold bytes_of_int.
  destruct (Z.leb_spec 0 v); [|lia]. destruct (Z.ltb_spec v 256); [|lia].
  reflexivity.
Qed.

Lemma bytes_of_int_err (v : Z) :
  ~ 0 <= v < 256 -> bytes_of_int v = Raise ValueError.
Proof.
  intros H. unfold bytes_of_int.
  destruct (Z.leb_spec 0 v); destruct (Z.ltb_spec v 256);
    try reflexivity; lia.
Qed.

(** The loop of [pack] raises [ValueError] exactly when some entry is not
    accepted, and otherwise appends the encoding of every entry in
    order. *)
Lemma pack_options_spec (opts : list option_entry) :
  forall packet,
    pack_options opts packet =
    if forallb entry_ok opts
    then Ok (packet ++ flat_map encode_entry opts)
    else Raise ValueError.
Proof.
  induction opts as [|[c d] opts IH]; intros packet.
  - simpl. rewrite app_nil_r. reflexivity.
  - cbn [pack_options forallb flat_map entry_ok encode_entry].
    destruct (Z.eqb_spec c 0) as [->|Hc0].
    { simpl. rewrite IH. destruct (forallb entry_ok opts); [|reflexivity].
      rewrite <- app_assoc. reflexivity. }
    destruct (Z.eqb_spec c 255) as [->|Hc255].
    { simpl. rewrite IH. destruct (forallb entry_ok opts); [|reflexivity].
      rewrite <- app_assoc. reflexivity. }
    cbn [orb].
    destruct (Z.leb_spec 0 c); destruct (Z.ltb_spec c 256); cbn [andb];
      try (rewrite bytes_of_int_err by lia; reflexivity).
    rewrite bytes_of_int_ok by lia. cbn [bind].
    destruct (Z.ltb_spec (Z.of_nat (length d)) 256).
    + rewrite bytes_of_int_ok by lia. cbn [bind]. rewrite IH.
      destruct (forallb entry_ok opts); [|reflexivity].
      rewrite <- !app_assoc. reflexivity.
    + rewrite bytes_of_int_err by lia. reflexivity.
Qed.

(** Decoding the encoding of [opts], whatever bytes follow. *)
Lemma parse_encode_strip (opts : list option_entry) (tail : bytes) :
  forallb entry_ok opts = true ->
  _parse_options (flat_map encode_entry opts ++ tail) =
  strip opts (_parse_options tail).
Proof.
  induction opts as [|[c d] opts IH]; intros Hok.
  - reflexivity.
  - cbn [forallb] in Hok. apply andb_true_iff in Hok as [Hc Hok].
    specialize (IH Hok).
    cbn [flat_map encode_entry strip]. unfold entry_ok in Hc.
    destruct (Z.eqb_spec c 0) as [->|Hc0].
    { simpl. rewrite parse_pad by reflexivity. exact IH. }
    destruct (Z.eqb_spec c 255) as [->|Hc255].
    { simpl. apply parse_end. reflexivity. }
    cbn [orb] in *.
    assert (0 <= c < 256 /\ Z.of_nat (length d) < 256) as [Hr Hl] by lia.
    rewrite <- !app_assoc. cbn [app].
    rewrite parse_entry
      by (rewrite byte_val_Z_to_byte_small by lia; assumption).
    rewrite !byte_val_Z_to_byte_small by lia.
    rewrite Nat2Z.id.
    rewrite firstn_app, skipn_app, Nat.sub_diag, firstn_all, skipn_all.
    simpl. rewrite app_nil_r, IH. reflexivity.
Qed.

Lemma strip_plain (opts k : list option_entry) :
  forallb plain_entry opts = true -> strip opts k = opts ++ k.
Proof.
  induction opts as [|[c d] opts IH]; intros H.
  - reflexivity.
  - cbn [forallb] in H. apply andb_true_iff in H as [Hp H].
    unfold plain_entry in Hp. cbn [fst] in Hp.
    cbn [strip]. destruct (c =? 0); [discriminate|].
    destruct (c =? 255); [discriminate|].
    simpl. rewrite IH by exact H. reflexivity.
Qed.

(** ** Dotted quads *)

Lemma aton_loop_unfold (dots : nat) (s : string) (acc : Z) :
  socket.aton_loop dots s acc =
  match s with
  | EmptyString => None
  | String c _ =>
      if negb (socket.isdigit c) then None else
      let '(val, rest) := socket.strtoul s in
      if val >? 4294967295 then None else
      match rest with
      | String "." rest' =>
          match dots with
          | O => None
          | S k => if val >? 255 then None
                   else socket.aton_loop k rest' (acc * 256 + val)
          end
      | _ =>
          let trailing_ok :=
            match rest with
            | EmptyString => true
            | String t _ => (socket.char_code t <? 128) && socket.isspace t
            end in
          if negb trailing_ok then None
          else if val >? 256 ^ (Z.of_nat (S dots)) - 1 then None
          else Some (acc * 256 ^ (Z.of_nat (S dots)) + val)
      end
  end.
Proof. destruct dots; reflexivity. Qed.

Lemma part_head (b : byte) (r : string) :
  match (str_int (byte_val b) ++ r)%string with
  | EmptyString => False
  | String c _ => socket.isdigit c = true
  end.
Proof. destruct b; try reflexivity; destruct r; reflexivity. Qed.

Lemma strtoul_part_dot (b : byte) (r : string) :
  socket.strtoul (str_int (byte_val b) ++ String "." r)%string
  = (byte_val b, String "." r).
Proof. destruct b; try reflexivity; destruct r; reflexivity. Qed.

Lemma strtoul_part_last (b : byte) :
  socket.strtoul (str_int (byte_val b)) = (byte_val b, EmptyString).
Proof. destruct b; reflexivity. Qed.

Lemma has_nul_part (b : byte) (r : string) :
  socket.has_nul (str_int (byte_val b) ++ r)%string = socket.has_nul r.
Proof. destruct b; reflexivity. Qed.

Lemma byte_gtb (b : byte) (hi : Z) : 255 <= hi -> (byte_val b >? hi) = false.
Proof. intros H. pose proof (byte_val_range b). lia. Qed.

Lemma aton_part_dot (b : byte) (r : string) (dots : nat) (acc : Z) :
  socket.aton_loop (S dots) (str_int (byte_val b) ++ String "." r)%string acc
  = socket.aton_loop dots r (acc * 256 + byte_val b).
Proof.
  rewrite aton_loop_unfold.
  pose proof (part_head b (String "." r)) as Hh.
  pose proof (strtoul_part_dot b r) as Hs.
  destruct (str_int (byte_val b) ++ String "." r)%string as [|c s'];
    [contradiction|].
  rewrite Hh, Hs. cbn [negb]. rewrite !byte_gtb by lia. reflexivity.
Qed.

Lemma aton_part_last (b : byte) (acc : Z) :
  socket.aton_loop 0 (str_int (byte_val b)) acc
  = Some (acc * 256 + byte_val b).
Proof.
  rewrite aton_loop_unfold.
  pose proof (part_head b EmptyString) as Hh.
  pose proof (strtoul_part_last b) as Hs.
  replace (str_int (byte_val b) ++ "")%string with (str_int (byte_val b)) in Hh.
  2:{ destruct b; reflexivity. }
  destruct (str_int (byte_val b)) as [|c s']; [contradiction|].
  rewrite Hh, Hs. cbn [negb]. rewrite byte_gtb by lia.
  change (256 ^ Z.of_nat 1) with 256.
  rewrite byte_gtb by lia. reflexivity.
Qed.

Lemma has_nul_last (b : byte) : socket.has_nul (str_int (byte_val b)) = false.
Proof. destruct b; reflexivity. Qed.

(** [inet_aton] reads back what [inet_ntoa] writes. *)
Lemma inet_aton_ntoa (a : bytes) (s : string) :
  socket.inet_ntoa (socket.Packed a) = Ok s ->
  socket.inet_aton (socket.Str s) = Ok a.
Proof.
  destruct a as [|a0 [|a1 [|a2 [|a3 [|? ?]]]]];
    cbn [socket.inet_ntoa]; try discriminate.
  intros H%Ok_inj. subst s. unfold socket.inet_aton.
  replace ("." ++ str_int (byte_val a1) ++ "." ++ str_int (byte_val a2)
           ++ "." ++ str_int (byte_val a3))%string
    with (String "." (str_int (byte_val a1) ++ String "."
            (str_int (byte_val a2) ++ String "." (str_int (byte_val a3)))))%string
    by reflexivity.
  rewrite has_nul_part. cbn [socket.has_nul].
  rewrite has_nul_part. cbn [socket.has_nul].
  rewrite has_nul_part. cbn [socket.has_nul].
  rewrite has_nul_last.
  change (socket.char_code "." =? 0) with false. cbn [orb].
  rewrite !aton_part_dot, aton_part_last.
  f_equal. apply (be_encode_decode [a0; a1; a2; a3]).
Qed.

(** ** Padding and trimming *)

Lemma rstrip0_padding (s : bytes) :
  exists k, s = rstrip0 s ++ repeat x00 k.
Proof.
  induction s as [|x r [k IH]].
  - exists 0%nat. reflexivity.
  - cbn [rstrip0]. destruct (rstrip0 r) as [|y r'] eqn:E.
    + simpl in IH. destruct (Byte.eqb x x00) eqn:Ex.
      * apply Byte.byte_dec_bl in Ex. subst x.
        exists (S k). simpl. f_equal. exact IH.
      * exists k. simpl. f_equal. exact IH.
    + exists k. rewrite IH at 1. reflexivity.
Qed.

(** Trimming the zero bytes at the end and padding again to the width
    gives a field of that width back. *)
Lemma ljust_rstrip0 (n : nat) (s : bytes) :
  length s = n -> ljust n (rstrip0 s) = s.
Proof.
  intros Hn. destruct (rstrip0_padding s) as [k Hk].
  unfold ljust. rewrite Hk at 3. f_equal. f_equal.
  rewrite Hk in Hn at 1. rewrite length_app, repeat_length in Hn. lia.
Qed.

Lemma slice_prefix (a b : bytes) (n : nat) :
  length a = n -> slice 0 n (a ++ b) = a.
Proof.
  intros <-. unfold slice. cbn [skipn].
  rewrite Nat.sub_0_r, firstn_app, Nat.sub_diag, firstn_all.
  cbn [firstn]. apply app_nil_r.
Qed.

Lemma skipn_app_more (a b : bytes) (n k : nat) :
  length a = n -> skipn (n + k) (a ++ b) = skipn k b.
Proof.
  intros <-. rewrite skipn_app, skipn_all2 by lia.
  cbn [app]. f_equal. lia.
Qed.

Lemma pack_s_exact (n : nat) (b : bytes) :
  length b = n -> firstn n b ++ repeat x00 (n - length b) = b.
Proof.
  intros H. rewrite <- H, firstn_all, Nat.sub_diag. apply app_nil_r.
Qed.

(** ** Address fields *)

Lemma inet_ntoa_length (a : bytes) (s : string) :
  socket.inet_ntoa (socket.Packed a) = Ok s -> length a = 4%nat.
Proof.
  destruct a as [|a0 [|a1 [|a2 [|a3 [|? ?]]]]]; simpl; try discriminate.
  reflexivity.
Qed.

Lemma aton_word_ntoa (a : bytes) (s : string) :
  socket.inet_ntoa (socket.Packed a) = Ok s ->
  aton_word s = Ok (be_decode a) /\ 0 <= be_decode a <= 4294967295.
Proof.
  intros H. pose proof (inet_ntoa_length _ _ H) as Hl. split.
  - unfold aton_word. rewrite (inet_aton_ntoa _ _ H). cbn [bind].
    destruct a as [|a0 [|a1 [|a2 [|a3 [|? ?]]]]]; try discriminate Hl.
    reflexivity.
  - pose proof (be_decode_range a) as R. rewrite Hl in R.
    change (256 ^ Z.of_nat 4) with 4294967296 in R. lia.
Qed.

Lemma ntoa_word_decode (a : bytes) (s : string) :
  socket.inet_ntoa (socket.Packed a) = Ok s ->
  ntoa_word (be_decode a) = Ok s.
Proof.
  intros H. pose proof (inet_ntoa_length _ _ H) as Hl.
  pose proof (be_decode_range a) as R. rewrite Hl in R.
  change (256 ^ Z.of_nat 4) with 4294967296 in R.
  unfold ntoa_word. cbn [struct.pack struct.pack_one].
  replace (struct.in_range 0 4294967295 (be_decode a)) with true
    by (symmetry; apply in_range_spec; lia).
  cbn [bind]. rewrite app_nil_r.
  rewrite <- Hl, be_encode_decode. exact H.
Qed.

(** ** [pack] and [unpack] *)

Lemma in_range_true (lo hi v : Z) :
  lo <= v <= hi -> struct.in_range lo hi v = true.
Proof. apply in_range_spec. Qed.

(** [pack] on fixed fields that fit: a fixed section of 236 bytes that
    unpacks to the fields, the cookie, then the loop over the entries and
    the End byte unless an End entry is there. *)
Lemma pack_fixed (m : DHCPPacket.t) :
  fixed_ok m ->
  exists fixed ci yi si gi,
    length fixed = 236%nat
    /\ struct.unpack FORMAT fixed =
       Ok [struct.Int (op m); struct.Int (htype m); struct.Int (hlen m);
           struct.Int (hops m); struct.Int (xid m); struct.Int (secs m);
           struct.Int (flags m);
           struct.Int ci; struct.Int yi; struct.Int si; struct.Int gi;
           struct.Bytes (chaddr m); struct.Bytes (sname m);
           struct.Bytes (file m)]
    /\ ntoa_word ci = Ok (ciaddr m) /\ ntoa_word yi = Ok (yiaddr m)
    /\ ntoa_word si = Ok (siaddr m) /\ ntoa_word gi = Ok (giaddr m)
    /\ pack m =
       if forallb entry_ok (options m)
       then Ok (fixed ++ DHCP_MAGIC_COOKIE
                ++ flat_map encode_entry (options m)
                ++ (if has_end (options m) then [] else [xff]))
       else Raise ValueError.
Proof.
  intros [Hop Hht Hhl Hho Hx Hse Hfl [ac Hc] [ay Hy] [asi Hs] [ag Hg]
          Hch Hsn Hfi].
  destruct (aton_word_ntoa _ _ Hc) as [Ec Rc].
  destruct (aton_word_ntoa _ _ Hy) as [Ey Ry].
  destruct (aton_word_ntoa _ _ Hs) as [Es Rs].
  destruct (aton_word_ntoa _ _ Hg) as [Eg Rg].
  unfold pack. rewrite Ec, Ey, Es, Eg. cbn [bind].
  match goal with
  | |- context [struct.pack FORMAT ?vs] =>
      destruct (struct.pack FORMAT vs) as [fixed|e] eqn:E
  end.
  - exists fixed, (be_decode ac), (be_decode ay), (be_decode asi),
      (be_decode ag).
    split; [apply (pack_length _ _ _ E)|].
    split.
    { rewrite (unpack_pack _ _ _ E). cbn [canon_all canon FORMAT].
      rewrite !pack_s_exact by assumption. reflexivity. }
    repeat (split; [eapply ntoa_word_decode; eassumption|]).
    cbn [bind]. rewrite pack_options_spec.
    destruct (forallb entry_ok (options m)); [|reflexivity].
    cbn [bind]. fold (has_end (options m)).
    destruct (has_end (options m)); cbn [negb];
      rewrite <- ?app_assoc; try rewrite app_nil_r; reflexivity.
  - exfalso. unfold FORMAT in E. cbn [struct.pack struct.pack_one] in E.
    rewrite !in_range_true in E by assumption.
    cbn [bind] in E. discriminate E.
Qed.

Lemma has_end_plain (body : list option_entry) :
  forallb plain_entry body = true -> has_end body = false.
Proof.
  induction body as [|[c d] body IH]; intros H.
  - reflexivity.
  - cbn [forallb] in H. apply andb_true_iff in H as [Hp H].
    unfold plain_entry in Hp. cbn [fst] in Hp.
    cbn [has_end existsb fst]. fold (has_end body). rewrite (IH H).
    destruct (c =? 255); [|reflexivity].
    rewrite andb_false_r in Hp. discriminate.
Qed.

Lemma has_end_app (a b : list option_entry) :
  has_end (a ++ b) = has_end a || has_end b.
Proof. unfold has_end. apply existsb_app. Qed.

Lemma strip_app_plain (body tl k : list option_entry) :
  forallb plain_entry body = true ->
  strip (body ++ tl) k = body ++ strip tl k.
Proof.
  induction body as [|[c d] body IH]; intros H.
  - reflexivity.
  - cbn [forallb] in H. apply andb_true_iff in H as [Hp H].
    unfold plain_entry in Hp. cbn [fst] in Hp.
    cbn [strip app]. destruct (c =? 0); [discriminate|].
    destruct (c =? 255); [discriminate|].
    rewrite IH by exact H. reflexivity.
Qed.

(** What the decoder makes of the option bytes [pack] writes. *)
Lemma parse_packed_options (opts body : list option_entry) :
  forallb entry_ok opts = true ->
  clean_options opts body ->
  _parse_options (flat_map encode_entry opts
                  ++ (if has_end opts then [] else [xff])) = body
  /\ exists pre, flat_map encode_entry opts
                 ++ (if has_end opts then [] else [xff]) = pre ++ [xff].
Proof.
  intros Hok [Hplain [->| ->]].
  - rewrite (has_end_plain _ Hplain). split.
    + rewrite parse_encode_strip by exact Hok.
      rewrite (parse_end xff) by reflexivity.
      rewrite strip_plain by exact Hplain. apply app_nil_r.
    + eexists. reflexivity.
  - rewrite has_end_app. replace (has_end [(255, [])]) with true by reflexivity.
    rewrite orb_true_r. split.
    + rewrite parse_encode_strip by exact Hok.
      rewrite strip_app_plain by exact Hplain. simpl. apply app_nil_r.
    + rewrite flat_map_app, app_nil_r. eexists. reflexivity.
Qed.

Lemma app_last_byte (a pre : bytes) : exists pre', a ++ pre ++ [xff] = pre' ++ [xff].
Proof. exists (a ++ pre). rewrite app_assoc. reflexivity. Qed.

(** C1 (as amended).  For a well-formed message with a non-zero [xid]
    whose option list is [body], alone or followed by one empty End entry,
    [pack] succeeds, the bytes it gives end with the End byte, and
    [unpack] of these bytes gives back every fixed field and, as option
    list, [body] in order: the End entry is never part of the decoded
    list. *)
Theorem roundtrip_without_end (m : DHCPPacket.t) (body : list option_entry)
    (rnd : Z) :
  well_formed m ->
  xid m <> 0 ->
  clean_options (options m) body ->
  exists d,
    pack m = Ok d
    /\ (exists pre, d = pre ++ [xff])
    /\ unpack rnd d = Ok (set_options m body).
Proof.
  intros [Hfix Hopts] Hxid Hclean.
  destruct (pack_fixed m Hfix)
    as (fixed & ci & yi & si & gi & Hlen & Hun & Hc & Hy & Hs & Hg & Hpack).
  rewrite Hopts in Hpack.
  destruct (parse_packed_options _ _ Hopts Hclean) as [Hparse [pre Hpre]].
  eexists. split; [exact Hpack|]. split.
  { rewrite Hpre. rewrite (app_assoc fixed). apply app_last_byte. }
  unfold unpack.
  rewrite (slice_prefix _ _ _ Hlen).
  rewrite Hun. cbn [bind struct.get_int struct.get_bytes nth_error].
  rewrite Hc, Hy, Hs, Hg. cbn [bind].
  rewrite (skipn_app_more _ _ 236 4 Hlen).
  change (skipn 4 (DHCP_MAGIC_COOKIE ++ ?x)) with x.
  rewrite Hparse. f_equal.
  unfold set_options, init. cbn.
  destruct (Z.eqb_spec (xid m) 0) as [E|_]; [contradiction|].
  rewrite (ljust_rstrip0 64 _ (wf_sname m Hfix)).
  rewrite (ljust_rstrip0 128 _ (wf_file m Hfix)).
  pose proof (wf_chaddr m Hfix) as Hch.
  destruct (chaddr m) as [|x r]; [discriminate Hch|].
  reflexivity.
Qed.

Lemma discover_example_fixed_ok : fixed_ok discover_example.
Proof.
  constructor; cbn; try lia; try reflexivity;
    exists [x00; x00; x00; x00]; reflexivity.
Qed.

Lemma roundtrip_without_end_witness :
  well_formed discover_example
  /\ xid discover_example <> 0
  /\ clean_options (options discover_example) discover_example_body
  /\ exists d,
       pack discover_example = Ok d
       /\ (exists pre, d = pre ++ [xff])
       /\ unpack 5 d = Ok (set_options discover_example discover_example_body).
Proof.
  assert (Hwf : well_formed discover_example)
    by (split; [exact discover_example_fixed_ok | reflexivity]).
  assert (Hx : xid discover_example <> 0) by (cbn; lia).
  assert (Hc : clean_options (options discover_example) discover_example_body)
    by (split; [reflexivity | right; reflexivity]).
  split; [exact Hwf|]. split; [exact Hx|]. split; [exact Hc|].
  exact (roundtrip_without_end discover_example discover_example_body 5
           Hwf Hx Hc).
Defined.

(** C1 (as stated) fails on the program's own DISCOVER message: it is
    well formed, its option list has five plain entries and one empty End
    entry, and the list decoded from its encoding has the five entries
    only, which is neither the list of the message nor that list with an
    End entry. *)
Lemma roundtrip_end_entry_lost :
  well_formed discover_example
  /\ clean_options (options discover_example) discover_example_body
  /\ exists d,
       pack discover_example = Ok d
       /\ forall rnd, exists m',
            unpack rnd d = Ok m'
            /\ options m' = discover_example_body
            /\ options m' <> options discover_example
            /\ options m' <> with_end (options discover_example).
Proof.
  split; [split; [exact discover_example_fixed_ok | reflexivity]|].
  split; [split; [reflexivity | right; reflexivity]|].
  exists (match pack discover_example with Ok d => d | Raise _ => [] end).
  split; [vm_compute; reflexivity|].
  intros rnd. exists (set_options discover_example discover_example_body).
  split; [vm_compute; reflexivity|].
  split; [reflexivity|].
  split; vm_compute; discriminate.
Qed.

(** ** Truncated option streams *)

(** C4 (as amended).  After the encoding of complete entries [prior]
    (none of them Pad or End): a code that is neither Pad nor End with a
    length byte announcing more bytes than remain gives the entries of
    [prior] followed by one entry that holds the code and the bytes that
    remain; a code without even a length byte gives [prior] alone.  The
    decoder returns in both cases. *)
Theorem truncated_option (prior : list option_entry) (c l : byte)
    (rest : bytes) :
  forallb entry_ok prior = true ->
  forallb plain_entry prior = true ->
  byte_val c <> 0 -> byte_val c <> 255 ->
  (length rest < Z.to_nat (byte_val l))%nat ->
  _parse_options (flat_map encode_entry prior ++ c :: l :: rest)
    = prior ++ [(byte_val c, rest)]
  /\ _parse_options (flat_map encode_entry prior ++ [c]) = prior.
Proof.
  intros Hok Hplain H0 H255 Hshort. split.
  - rewrite parse_encode_strip by exact Hok.
    rewrite strip_plain by exact Hplain. f_equal.
    rewrite parse_entry by assumption.
    rewrite firstn_all2, skipn_all2 by lia.
    rewrite parse_nil. reflexivity.
  - rewrite parse_encode_strip by exact Hok.
    rewrite strip_plain by exact Hplain.
    rewrite parse_code_only by assumption. apply app_nil_r.
Qed.

Lemma truncated_option_witness :
  _parse_options (flat_map encode_entry [mask_entry] ++ [x35; x04; x01])
    = [mask_entry] ++ [(byte_val x35, [x01])]
  /\ _parse_options (flat_map encode_entry [mask_entry] ++ [x35])
     = [mask_entry].
Proof.
  apply (truncated_option [mask_entry] x35 x04 [x01]).
  - reflexivity.
  - reflexivity.
  - discriminate.
  - discriminate.
  - simpl. lia.
Defined.

(** C4 (as stated) fails: on a stream cut inside the data of its second
    option, the decoder returns the complete first entry and a second
    entry with the one byte that was there. *)
Lemma truncated_entry_returned :
  _parse_options truncated_stream = [mask_entry; (53, [x01])]
  /\ _parse_options truncated_stream <> [mask_entry].
Proof.
  assert (E : _parse_options truncated_stream = [mask_entry; (53, [x01])])
    by (vm_compute; reflexivity).
  split; [exact E|]. rewrite E. discriminate.
Qed.

(** ** What the encoder accepts *)

Lemma entry_ok_spec (o : option_entry) :
  entry_ok o = true <->
  0 <= fst o <= 255
  /\ (fst o = 0 \/ fst o = 255 \/ (length (snd o) <= 255)%nat).
Proof. destruct o as [c d]. unfold entry_ok. cbn [fst snd]. lia. Qed.

(** C5 (as amended).  On fixed fields that fit, [pack] raises
    [ValueError] when an entry other than Pad and End has more than 255
    bytes of data; when every code is a byte and every entry other than
    Pad and End has at most 255 bytes, it succeeds and writes, after the
    fixed section and the cookie, one code byte for a Pad or End entry
    (whatever data the entry carries) and code, length and data for the
    others, then the End byte if no entry has code 255. *)
Theorem pack_option_entries (m : DHCPPacket.t) :
  fixed_ok m ->
  (Exists (fun o => fst o <> 0 /\ fst o <> 255
                    /\ (255 < length (snd o))%nat) (options m) ->
   pack m = Raise ValueError)
  /\ (Forall (fun o => 0 <= fst o <= 255
                       /\ (fst o = 0 \/ fst o = 255
                           \/ (length (snd o) <= 255)%nat)) (options m) ->
      exists fixed,
        length fixed = 236%nat
        /\ pack m =
           Ok (fixed ++ DHCP_MAGIC_COOKIE
               ++ flat_map encode_entry (options m)
               ++ (if has_end (options m) then [] else [xff]))).
Proof.
  intros Hfix.
  destruct (pack_fixed m Hfix)
    as (fixed & ci & yi & si & gi & Hlen & _ & _ & _ & _ & _ & Hpack).
  split.
  - intros Hex.
    destruct (forallb entry_ok (options m)) eqn:E; [|exact Hpack].
    exfalso. rewrite forallb_forall in E.
    apply Exists_exists in Hex as (o & Hin & H0 & H255 & Hlong).
    specialize (E o Hin). apply entry_ok_spec in E.
    destruct o as [c d]. cbn [fst snd] in *. lia.
  - intros Hall.
    replace (forallb entry_ok (options m)) with true in Hpack.
    + exists fixed. split; assumption.
    + symmetry. apply forallb_forall. intros o Hin.
      apply entry_ok_spec. rewrite Forall_forall in Hall. auto.
Qed.

Lemma discover_with_fixed_ok (opts : list option_entry) :
  fixed_ok (discover_with opts).
Proof.
  constructor; cbn; try lia; try reflexivity;
    exists [x00; x00; x00; x00]; reflexivity.
Qed.

Lemma pack_option_entries_witness :
  pack (discover_with [(12, repeat x41 256)]) = Raise ValueError
  /\ exists fixed,
       length fixed = 236%nat
       /\ pack (discover_with [(0, [x07]); mask_entry]) =
          Ok (fixed ++ DHCP_MAGIC_COOKIE
              ++ flat_map encode_entry [(0, [x07]); mask_entry] ++ [xff]).
Proof.
  split.
  - apply (proj1 (pack_option_entries (discover_with [(12, repeat x41 256)])
                    (discover_with_fixed_ok _))).
    apply Exists_cons_hd. cbn [fst snd]. rewrite repeat_length.
    split; [discriminate | split; [discriminate | lia]].
  - apply (proj2 (pack_option_entries (discover_with [(0, [x07]); mask_entry])
                    (discover_with_fixed_ok _))).
    constructor; [|constructor; [|constructor]]; cbn [fst snd mask_entry].
    + split; [lia | left; reflexivity].
    + split; [lia | right; right; simpl; lia].
Defined.

(** C5 (as stated) fails: an End entry that carries data is encoded like
    any End entry, as the single byte 255, and [pack] succeeds. *)
Lemma end_with_data_accepted :
  exists d, pack (discover_with [(255, [x01])]) = Ok d
            /\ skipn 240 d = [xff].
Proof.
  exists (match pack (discover_with [(255, [x01])]) with
          | Ok d => d
          | Raise _ => []
          end).
  split; vm_compute; reflexivity.
Qed.

(** ** [unpack] on short input *)

Lemma ntoa_word_ok (w : Z) :
  0 <= w <= 4294967295 -> exists s, ntoa_word w = Ok s.
Proof.
  intros H. unfold ntoa_word. cbn [struct.pack struct.pack_one].
  rewrite in_range_true by exact H.
  cbn [bind be_encode app socket.inet_ntoa]. eexists. reflexivity.
Qed.

Lemma be_decode_firstn4 (data : bytes) :
  0 <= be_decode (firstn 4 data) <= 4294967295.
Proof.
  pose proof (be_decode_range (firstn 4 data)) as R.
  assert (length (firstn 4 data) <= 4)%nat as L by apply firstn_le_length.
  assert (256 ^ Z.of_nat (length (firstn 4 data)) <= 256 ^ 4)
    by (apply Z.pow_le_mono_r; lia).
  change (256 ^ 4) with 4294967296 in *. lia.
Qed.

(** A field read with [L] is a 32-bit number. *)
Lemma get_int_L_range (f : list struct.code) :
  forall (k : nat) (data : bytes),
    nth_error f k = Some struct.fmt_L ->
    0 <= struct.get_int (struct.unpack_all f data) k <= 4294967295.
Proof.
  induction f as [|c f IH]; intros [|k] data H; cbn in H; try discriminate.
  - injection H as ->. cbn. apply be_decode_firstn4.
  - apply (IH k (skipn (struct.size c) data) H).
Qed.

Lemma length_slice_prefix (n : nat) (data : bytes) :
  (n <= length data)%nat -> length (slice 0 n data) = n.
Proof.
  intros H. unfold slice. cbn [skipn].
  rewrite Nat.sub_0_r, length_firstn. lia.
Qed.

(** C6 (as amended).  [unpack] raises [struct.error] on fewer than 236
    bytes.  On 236 bytes or more it returns a message; when no byte lies
    beyond offset 240 (in particular on 236 to 239 bytes) the option list
    of that message is empty. *)
Theorem unpack_length_check (rnd : Z) (data : bytes) :
  ((length data < 236)%nat -> unpack rnd data = Raise struct_error)
  /\ ((236 <= length data)%nat ->
      exists m, unpack rnd data = Ok m
                /\ ((length data <= 240)%nat -> options m = [])).
Proof.
  split; intros Hlen.
  - unfold unpack. rewrite unpack_short; [reflexivity|].
    unfold slice. cbn [skipn]. rewrite length_firstn.
    change (struct.calcsize FORMAT) with 236%nat. lia.
  - unfold unpack, struct.unpack.
    rewrite (length_slice_prefix 236 data Hlen).
    change (struct.calcsize FORMAT) with 236%nat.
    cbn [Nat.eqb bind].
    set (fields := struct.unpack_all FORMAT (slice 0 236 data)).
    destruct (ntoa_word_ok (struct.get_int fields 7)) as [ci ->];
      [apply get_int_L_range; reflexivity|].
    destruct (ntoa_word_ok (struct.get_int fields 8)) as [yi ->];
      [apply get_int_L_range; reflexivity|].
    destruct (ntoa_word_ok (struct.get_int fields 9)) as [si ->];
      [apply get_int_L_range; reflexivity|].
    destruct (ntoa_word_ok (struct.get_int fields 10)) as [gi ->];
      [apply get_int_L_range; reflexivity|].
    cbn [bind]. eexists. split; [reflexivity|].
    intros Hshort. unfold set_options. cbn [options].
    rewrite skipn_all2 by lia. apply parse_nil.
Qed.

Lemma unpack_length_check_witness :
  unpack 7 (repeat x00 235) = Raise struct_error
  /\ exists m, unpack 7 (repeat x00 238) = Ok m
               /\ ((length (repeat x00 238) <= 240)%nat -> options m = []).
Proof.
  split.
  - apply (proj1 (unpack_length_check 7 (repeat x00 235))).
    rewrite repeat_length. lia.
  - apply (proj2 (unpack_length_check 7 (repeat x00 238))).
    rewrite repeat_length. lia.
Defined.

(** C6 (as stated) fails: 238 bytes, fewer than the 240 of fixed section
    and cookie, are decoded to a message. *)
Lemma short_input_decoded :
  (length (repeat x00 238) < 240)%nat
  /\ exists m, unpack 7 (repeat x00 238) = Ok m.
Proof.
  split; [rewrite repeat_length; lia|].
  exists (match unpack 7 (repeat x00 238) with
          | Ok m => m
          | Raise _ => discover_example
          end).
  vm_compute. reflexivity.
Qed.

(** ** The frame demultiplexer *)

Lemma length_slice (a b : nat) (data : bytes) :
  length (slice a b data) = Nat.min (b - a) (length data - a).
Proof. unfold slice. rewrite length_firstn, length_skipn. reflexivity. Qed.

Lemma unpack_H_ok (b : bytes) :
  length b = 2%nat -> exists v, DHCPListener.unpack_H b = Ok v.
Proof.
  intros H. unfold DHCPListener.unpack_H, struct.unpack. rewrite H.
  cbn. eexists. reflexivity.
Qed.

Lemma unpack_H_length (b : bytes) (v : Z) :
  DHCPListener.unpack_H b = Ok v -> length b = 2%nat.
Proof.
  unfold DHCPListener.unpack_H, struct.unpack.
  change (struct.calcsize [struct.fmt_H]) with 2%nat.
  destruct (Nat.eqb_spec (length b) 2); [auto | discriminate].
Qed.

Lemma field_H_Some (b : bytes) (off : nat) (v : Z) :
  field_H b off = Some v ->
  DHCPListener.unpack_H (slice off (off + 2) b) = Ok v
  /\ (off + 2 <= length b)%nat.
Proof.
  unfold field_H.
  destruct (DHCPListener.unpack_H (slice off (off + 2) b)) as [x|e] eqn:E;
    [|discriminate].
  intros [= ->]. split; [reflexivity|].
  apply unpack_H_length in E. rewrite length_slice in E. lia.
Qed.

Lemma field_H_in_range (b : bytes) (off : nat) :
  (off + 2 <= length b)%nat ->
  exists v, DHCPListener.unpack_H (slice off (off + 2) b) = Ok v.
Proof.
  intros H. apply unpack_H_ok. rewrite length_slice. lia.
Qed.

Lemma index_nth (data : bytes) (i : nat) :
  (i < length data)%nat -> index data i = Ok (byte_at data i).
Proof.
  intros H. unfold index, byte_at.
  rewrite (nth_error_nth' data x00 H). reflexivity.
Qed.

Lemma demux_short (frame : bytes) :
  (length frame < 14)%nat ->
  DHCPListener.demux frame = Ok DHCPListener.NotApplicable.
Proof.
  intros H. unfold DHCPListener.demux.
  destruct (Nat.ltb_spec (length frame) 14); [reflexivity | lia].
Qed.

Lemma demux_other_protocol (frame : bytes) (p : Z) :
  ip_protocol frame = Some p -> p <> 17 ->
  DHCPListener.demux frame = Ok DHCPListener.NotApplicable.
Proof.
  unfold ip_protocol, ip_header. intros Ep Hp. unfold DHCPListener.demux.
  destruct (Nat.ltb_spec (length frame) 14); [reflexivity|].
  unfold index at 1.
  destruct (nth_error (skipn 14 frame) 9) as [pb|]; [|discriminate].
  injection Ep as Ep. cbn [bind]. rewrite Ep.
  destruct (Z.eqb_spec p 17); [contradiction | reflexivity].
Qed.

(** [demux] after the two first checks, for a frame that holds the
    protocol byte and has 17 there. *)
Lemma demux_udp (frame : bytes) :
  ip_protocol frame = Some 17 ->
  DHCPListener.demux frame =
  (src_port <- DHCPListener.unpack_H (slice 0 2 (udp_header frame)) ;;
   dst_port <- DHCPListener.unpack_H (slice 2 4 (udp_header frame)) ;;
   if negb (src_port =? 67) || negb (dst_port =? 68)
   then Ok DHCPListener.NotApplicable
   else
     udp_length <- DHCPListener.unpack_H (slice 4 6 (udp_header frame)) ;;
     let dhcp_data :=
       slice 8 (Z.to_nat (8 + udp_length - 8)) (udp_header frame) in
     if (length dhcp_data <? 240)%nat then Ok DHCPListener.NotApplicable
     else Ok (DHCPListener.Payload dhcp_data)).
Proof.
  unfold ip_protocol, udp_header, ip_header. intros Hp.
  destruct (nth_error (skipn 14 frame) 9) as [pb|] eqn:Ep; [|discriminate].
  injection Hp as Hp.
  assert (9 < length (skipn 14 frame))%nat as Hl
    by (apply nth_error_Some; congruence).
  unfold DHCPListener.demux.
  destruct (Nat.ltb_spec (length frame) 14) as [Hs|_].
  { rewrite length_skipn in Hl. lia. }
  unfold index at 1. rewrite Ep. cbn [bind]. rewrite Hp. cbn [Z.eqb negb].
  rewrite index_nth by lia. reflexivity.
Qed.

(** A frame that has its Ethernet header but not the first ten bytes of
    an IP header makes the checks raise [IndexError]. *)
Lemma demux_no_protocol_byte (frame : bytes) :
  (14 <= length frame < 24)%nat ->
  DHCPListener.demux frame = Raise IndexError.
Proof.
  intros H. unfold DHCPListener.demux.
  destruct (Nat.ltb_spec (length frame) 14); [lia|].
  unfold index at 1.
  destruct (nth_error (skipn 14 frame) 9) eqn:E; [|reflexivity].
  assert (9 < length (skipn 14 frame))%nat
    by (apply nth_error_Some; congruence).
  rewrite length_skipn in *. lia.
Qed.

(** A payload comes out of the checks only for a UDP datagram from port
    67 to port 68 of at least 240 bytes of data. *)
Lemma demux_payload_inv (frame dhcp_data : bytes) :
  DHCPListener.demux frame = Ok (DHCPListener.Payload dhcp_data) ->
  (14 <= length frame)%nat
  /\ ip_protocol frame = Some 17
  /\ udp_src_port frame = Some 67
  /\ udp_dst_port frame = Some 68
  /\ (240 <= length dhcp_data)%nat
  /\ exists n, udp_length frame = Some n
               /\ dhcp_data = slice 8 (Z.to_nat n) (udp_header frame).
Proof.
  intros H.
  destruct (Nat.ltb_spec (length frame) 14) as [Hshort|Hlong].
  { rewrite (demux_short frame Hshort) in H. discriminate. }
  split; [exact Hlong|].
  destruct (ip_protocol frame) as [p|] eqn:Ep.
  2:{ exfalso. unfold ip_protocol, ip_header in Ep.
      unfold DHCPListener.demux in H.
      destruct (Nat.ltb_spec (length frame) 14); [lia|].
      unfold index at 1 in H.
      destruct (nth_error (skipn 14 frame) 9); discriminate. }
  destruct (Z.eq_dec p 17) as [->|Hp].
  2:{ rewrite (demux_other_protocol frame p Ep Hp) in H. discriminate. }
  split; [reflexivity|].
  rewrite (demux_udp frame Ep) in H.
  unfold udp_src_port, udp_dst_port, udp_length, field_H. cbn [Nat.add].
  destruct (DHCPListener.unpack_H (slice 0 2 (udp_header frame)))
    as [s|] eqn:Es; [|discriminate H].
  destruct (DHCPListener.unpack_H (slice 2 4 (udp_header frame)))
    as [d|] eqn:Ed; [|discriminate H].
  cbn [bind] in H.
  destruct (Z.eqb_spec s 67) as [Hs67|]; [|discriminate H].
  destruct (Z.eqb_spec d 68) as [Hd68|]; [|discriminate H].
  cbn [negb orb] in H.
  destruct (DHCPListener.unpack_H (slice 4 6 (udp_header frame)))
    as [n|] eqn:En; [|discriminate H].
  cbn [bind] in H. cbv zeta in H.
  replace (8 + n - 8) with n in H by lia.
  destruct (Nat.ltb_spec
              (length (slice 8 (Z.to_nat n) (udp_header frame)))
              240) as [|Hbig]; [discriminate H|].
  injection H as <-. subst s d.
  repeat split; try assumption. exists n. split; reflexivity.
Qed.

(** C7 (as amended).  A frame shorter than 14 bytes, a frame whose
    protocol byte is not 17, a frame (holding the protocol byte) whose
    two UDP ports can be read and are not 67 and 68, and a frame (holding
    the protocol byte) whose UDP length can be read and whose data, as
    declared or as delivered, is below 240 bytes are all classified
    [NotApplicable]: the checks neither raise nor give a payload.  A
    frame of 14 bytes or more that ends before a field the checks read
    makes them raise: [IndexError] without the protocol byte,
    [struct.error] when, under protocol 17, a port is missing or, under
    the ports 67 and 68, the length is missing.  The receive loop prints
    the warning line for the error and goes on with the next turn.  No
    frame of these kinds gives a payload, whatever else it holds. *)
Theorem demux_not_applicable (frame : bytes) :
  ((length frame < 14)%nat
   \/ (exists p, ip_protocol frame = Some p /\ p <> 17)
   \/ (ip_protocol frame <> None
       /\ exists s d, udp_src_port frame = Some s
                      /\ udp_dst_port frame = Some d
                      /\ (s <> 67 \/ d <> 68))
   \/ (ip_protocol frame <> None
       /\ exists n, udp_length frame = Some n
                    /\ (n - 8 < 240
                        \/ (length (udp_header frame) < 248)%nat))
   -> DHCPListener.demux frame = Ok DHCPListener.NotApplicable)
  /\ ((14 <= length frame)%nat ->
      ip_protocol frame = None ->
      DHCPListener.demux frame = Raise IndexError)
  /\ (ip_protocol frame = Some 17 ->
      udp_src_port frame = None
      \/ udp_dst_port frame = None
      \/ (udp_src_port frame = Some 67
          /\ udp_dst_port frame = Some 68
          /\ udp_length frame = None) ->
      DHCPListener.demux frame = Raise struct_error)
  /\ (forall e self rnd rest out,
        DHCPListener.demux frame = Raise e ->
        e <> BlockingIOError ->
        DHCPListener.receive_loop self
          (DHCPListener.Received frame rnd :: rest) out
        = DHCPListener.receive_loop self rest (out ++ [MsgParseWarning e]))
  /\ ((length frame < 14)%nat
      \/ (exists p, ip_protocol frame = Some p /\ p <> 17)
      \/ (exists s, udp_src_port frame = Some s /\ s <> 67)
      \/ (exists d, udp_dst_port frame = Some d /\ d <> 68)
      \/ (exists n, udp_length frame = Some n
                    /\ (n - 8 < 240
                        \/ (length (udp_header frame) < 248)%nat))
      -> forall dhcp_data,
           DHCPListener.demux frame
           <> Ok (DHCPListener.Payload dhcp_data)).
Proof.
  split; [|split; [|split; [|split]]].
  - intros H.
    destruct (Nat.ltb_spec (length frame) 14) as [Hshort|Hlong].
    { apply demux_short. exact Hshort. }
    destruct (ip_protocol frame) as [p|] eqn:Ep.
    2:{ destruct H as [H|[(p & Hp & _)|[[Hn _]|[Hn _]]]];
          [lia | discriminate | contradiction | contradiction]. }
    destruct (Z.eq_dec p 17) as [->|Hp17].
    2:{ apply (demux_other_protocol frame p Ep Hp17). }
    rewrite (demux_udp frame Ep).
    destruct H as [H|[(p & Hp & Hne)|[[_ H]|[_ H]]]].
    + lia.
    + injection Hp as <-. contradiction.
    + destruct H as (s & d & Hs & Hd & Hports).
      apply field_H_Some in Hs as [Hs _]. apply field_H_Some in Hd as [Hd _].
      cbn [Nat.add] in Hs, Hd. rewrite Hs, Hd. cbn [bind].
      destruct (Z.eqb_spec s 67); destruct (Z.eqb_spec d 68);
        cbn [negb orb]; try reflexivity.
      lia.
    + destruct H as (n & Hn & Hsmall).
      apply field_H_Some in Hn as [Hn Hlen]. cbn [Nat.add] in Hn.
      destruct (field_H_in_range (udp_header frame) 0 ltac:(lia)) as [s Hs].
      destruct (field_H_in_range (udp_header frame) 2 ltac:(lia)) as [d Hd].
      cbn [Nat.add] in Hs, Hd. rewrite Hs, Hd, Hn. cbn [bind].
      destruct (negb (s =? 67) || negb (d =? 68)); [reflexivity|].
      cbv zeta.
      destruct (Nat.ltb_spec
                  (length (slice 8 (Z.to_nat (8 + n - 8)) (udp_header frame)))
                  240) as [_|Hbig]; [reflexivity|].
      rewrite length_slice in Hbig. lia.
  - intros Hlong Ep. unfold ip_protocol, ip_header in Ep.
    unfold DHCPListener.demux.
    destruct (Nat.ltb_spec (length frame) 14); [lia|].
    unfold index at 1.
    destruct (nth_error (skipn 14 frame) 9); [discriminate Ep | reflexivity].
  - intros Ep H. rewrite (demux_udp frame Ep).
    unfold udp_src_port, udp_dst_port, udp_length, field_H in H.
    cbn [Nat.add] in H.
    assert (Herr : forall b,
               match DHCPListener.unpack_H b with
               | Ok v => Some v
               | Raise _ => None
               end = None ->
               DHCPListener.unpack_H b = Raise struct_error).
    { intros b. unfold DHCPListener.unpack_H, struct.unpack.
      destruct (length b =? struct.calcsize [struct.fmt_H])%nat;
        cbn [bind]; [discriminate | reflexivity]. }
    destruct (DHCPListener.unpack_H (slice 0 2 (udp_header frame)))
      as [s|es] eqn:Es.
    2:{ rewrite (Herr (slice 0 2 (udp_header frame))) in Es
          by (rewrite Es; reflexivity).
        injection Es as <-. reflexivity. }
    cbn [bind].
    destruct (DHCPListener.unpack_H (slice 2 4 (udp_header frame)))
      as [d|ed] eqn:Ed.
    2:{ rewrite (Herr (slice 2 4 (udp_header frame))) in Ed
          by (rewrite Ed; reflexivity).
        injection Ed as <-. reflexivity. }
    cbn [bind].
    destruct H as [H|[H|(Hs & Hd & Hn)]]; [discriminate H | discriminate H|].
    injection Hs as ->. injection Hd as ->. cbn [Z.eqb Pos.eqb negb orb].
    destruct (DHCPListener.unpack_H (slice 4 6 (udp_header frame)))
      as [n|en] eqn:En; [discriminate Hn|].
    rewrite (Herr (slice 4 6 (udp_header frame))) in En
      by (rewrite En; reflexivity).
    injection En as <-. reflexivity.
  - intros e self rnd rest out He Hne.
    cbn [DHCPListener.receive_loop DHCPListener.turn]. rewrite He.
    cbn [bind]. destruct e; try reflexivity. contradiction.
  - intros H dhcp_data Hd.
    destruct (demux_payload_inv frame dhcp_data Hd)
      as (Hlen & Hp & Hs & Hdst & Hbig & n & Hn & ->).
    rewrite length_slice in Hbig.
    destruct H as [H|[(p & Hp' & Hne)|[(s & Hs' & Hne)|[(d & Hd' & Hne)
                                                        |(k & Hk & Hlt)]]]].
    + lia.
    + congruence.
    + congruence.
    + congruence.
    + assert (k = n) by congruence. lia.
Qed.

Lemma demux_not_applicable_witness :
  DHCPListener.demux discover_frame_example = Ok DHCPListener.NotApplicable
  /\ DHCPListener.demux stub_frame_example = Raise IndexError
  /\ DHCPListener.demux cut_frame_example = Raise struct_error
  /\ (forall dhcp_data,
        DHCPListener.demux cut_frame_example
        <> Ok (DHCPListener.Payload dhcp_data)).
Proof.
  split; [|split; [|split]].
  - apply (proj1 (demux_not_applicable discover_frame_example)).
    right. right. left. split.
    + vm_compute. discriminate.
    + exists 40000, 67. split; [vm_compute; reflexivity|].
      split; [vm_compute; reflexivity|]. left. discriminate.
  - apply (proj1 (proj2 (demux_not_applicable stub_frame_example))).
    + apply Nat.leb_le. vm_compute. reflexivity.
    + vm_compute. reflexivity.
  - apply (proj1 (proj2 (proj2 (demux_not_applicable cut_frame_example)))).
    + vm_compute. reflexivity.
    + right. left. vm_compute. reflexivity.
  - apply (proj2 (proj2 (proj2 (proj2
             (demux_not_applicable cut_frame_example))))).
    right. right. left. exists 40000. split; [vm_compute; reflexivity|].
    discriminate.
Defined.

(** C7 (as stated) fails: the DISCOVER frame cut after its source port
    has the protocol byte 17 and the source port 40000, so its ports are
    not 67 and 68, and the checks raise [struct.error] when they read the
    destination port; the 22 zero bytes have, where the checks would read
    them, the ports 0 and 0, and the checks raise [IndexError] when they
    read the protocol byte. *)
Lemma cut_frame_raises :
  ip_protocol cut_frame_example = Some 17
  /\ udp_src_port cut_frame_example = Some 40000
  /\ udp_dst_port cut_frame_example = None
  /\ DHCPListener.demux cut_frame_example = Raise struct_error
  /\ (14 <= length stub_frame_example)%nat
  /\ udp_src_port stub_frame_example = Some 0
  /\ udp_dst_port stub_frame_example = Some 0
  /\ DHCPListener.demux stub_frame_example = Raise IndexError.
Proof.
  split; [vm_compute; reflexivity|].
  split; [vm_compute; reflexivity|].
  split; [vm_compute; reflexivity|].
  split; [vm_compute; reflexivity|].
  split; [apply Nat.leb_le; vm_compute; reflexivity|].
  split; [vm_compute; reflexivity|].
  split; vm_compute; reflexivity.
Qed.

(** ** The receive loop and the transaction filter *)

Lemma turn_mismatch (self : DHCPListener.t) (x : Z) (q : DHCPListener.poll)
    (m : DHCPPacket.t) :
  DHCPListener.xid_filter self = Some x ->
  decodes_to q m -> xid m <> x ->
  DHCPListener.turn self q = Ok None.
Proof.
  intros Hf (packet & rnd & d & -> & Hd & Hu) Hx.
  unfold DHCPListener.turn. rewrite Hd. cbn [bind]. rewrite Hu. cbn [bind].
  rewrite Hf. destruct (Z.eqb_spec (xid m) x); [contradiction | reflexivity].
Qed.

Lemma turn_match (self : DHCPListener.t) (x : Z) (p : DHCPListener.poll)
    (m : DHCPPacket.t) :
  DHCPListener.xid_filter self = Some x ->
  decodes_to p m -> xid m = x ->
  DHCPListener.turn self p = Ok (Some m).
Proof.
  intros Hf (packet & rnd & d & -> & Hd & Hu) Hx.
  unfold DHCPListener.turn. rewrite Hd. cbn [bind]. rewrite Hu. cbn [bind].
  rewrite Hf. destruct (Z.eqb_spec (xid m) x); [reflexivity | contradiction].
Qed.

Lemma receive_loop_skips (self : DHCPListener.t) (x : Z)
    (before rest : list DHCPListener.poll) (out : list console) :
  DHCPListener.xid_filter self = Some x ->
  Forall (fun q => exists m', decodes_to q m' /\ xid m' <> x) before ->
  DHCPListener.receive_loop self (before ++ rest) out
  = DHCPListener.receive_loop self rest out.
Proof.
  intros Hf Hall. induction Hall as [|q before (m' & Hd & Hx) _ IH].
  - reflexivity.
  - cbn [app DHCPListener.receive_loop].
    rewrite (turn_mismatch self x q m' Hf Hd Hx). exact IH.
Qed.

(** When no message of the stream has the transaction of the request,
    the loop runs to the deadline and returns nothing. *)
Lemma receive_no_match (self : DHCPListener.t) (x : Z)
    (polls : list DHCPListener.poll) :
  DHCPListener.socket self = true ->
  DHCPListener.xid_filter self = Some x ->
  Forall (fun q => exists m', decodes_to q m' /\ xid m' <> x) polls ->
  DHCPListener.receive self polls = ([], None, []).
Proof.
  intros Hs Hf Hall. unfold DHCPListener.receive. rewrite Hs. cbn [negb].
  rewrite <- (app_nil_r polls).
  rewrite (receive_loop_skips self x polls [] [] Hf Hall). reflexivity.
Qed.

(** C8.  On a stream of frames that decode to messages, [receive] with
    the filter set to [x] returns the first message whose [xid] is [x],
    whatever messages with another [xid] come before it and whatever
    comes after it: the turns after the match are left untaken. *)
Theorem xid_filter_first_match (self : DHCPListener.t) (x : Z)
    (before after : list DHCPListener.poll) (p : DHCPListener.poll)
    (m : DHCPPacket.t) :
  DHCPListener.socket self = true ->
  DHCPListener.xid_filter self = Some x ->
  Forall (fun q => exists m', decodes_to q m' /\ xid m' <> x) before ->
  decodes_to p m ->
  xid m = x ->
  DHCPListener.receive self (before ++ p :: after) = ([], Some m, after).
Proof.
  intros Hs Hf Hall Hd Hx. unfold DHCPListener.receive.
  rewrite Hs. cbn [negb].
  rewrite (receive_loop_skips self x before (p :: after) [] Hf Hall).
  cbn [DHCPListener.receive_loop].
  rewrite (turn_match self x p m Hf Hd Hx). reflexivity.
Qed.

Lemma reply_decodes (o x : Z) (ty : byte) (mask : bool) :
  DHCPListener.demux (reply_frame (reply o x ty mask))
    = Ok (DHCPListener.Payload (reply_data (reply o x ty mask))) ->
  DHCPPacket.unpack 0 (reply_data (reply o x ty mask))
    = Ok (reply_decoded o x ty mask) ->
  decodes_to (reply_poll (reply o x ty mask)) (reply_decoded o x ty mask).
Proof.
  intros Hd Hu. exists (reply_frame (reply o x ty mask)), 0,
    (reply_data (reply o x ty mask)).
  split; [reflexivity|]. split; assumption.
Qed.

Lemma xid_filter_first_match_witness :
  DHCPListener.receive (listening 2)
    ([reply_poll (reply 2 1 x02 false)]
       ++ reply_poll (reply 2 2 x02 false)
       :: [reply_poll (reply 2 3 x02 false); reply_poll (reply 2 2 x05 false)])
  = ([], Some (reply_decoded 2 2 x02 false),
     [reply_poll (reply 2 3 x02 false); reply_poll (reply 2 2 x05 false)]).
Proof.
  apply (xid_filter_first_match (listening 2) 2).
  - reflexivity.
  - reflexivity.
  - constructor; [|constructor].
    exists (reply_decoded 2 1 x02 false). split.
    + apply reply_decodes; vm_compute; reflexivity.
    + cbn. discriminate.
  - apply reply_decodes; vm_compute; reflexivity.
  - reflexivity.
Defined.

(** C10.  A frame that passes the checks and decodes to a message whose
    [xid] is the one of the filter is returned by [receive] as it is: no
    condition bears on the [op] field or on the options of the message,
    so a message of any type is accepted. *)
Theorem matching_xid_any_type (self : DHCPListener.t) (x : Z)
    (packet dhcp_data : bytes) (rnd : Z) (m : DHCPPacket.t)
    (after : list DHCPListener.poll) :
  DHCPListener.socket self = true ->
  DHCPListener.xid_filter self = Some x ->
  DHCPListener.demux packet = Ok (DHCPListener.Payload dhcp_data) ->
  DHCPPacket.unpack rnd dhcp_data = Ok m ->
  xid m = x ->
  DHCPListener.receive self (DHCPListener.Received packet rnd :: after)
  = ([], Some m, after).
Proof.
  intros Hs Hf Hd Hu Hx. unfold DHCPListener.receive.
  rewrite Hs. cbn [negb DHCPListener.receive_loop].
  rewrite (turn_match self x (DHCPListener.Received packet rnd) m Hf);
    [reflexivity | | exact Hx].
  exists packet, rnd, dhcp_data. repeat split; assumption.
Qed.

(** With [op = 1] (a request) and message type 6 (NAK). *)
Lemma matching_xid_any_type_witness :
  op (reply_decoded 1 2 x06 false) = 1
  /\ In (53, [x06]) (options (reply_decoded 1 2 x06 false))
  /\ DHCPListener.receive (listening 2)
       (DHCPListener.Received (reply_frame (reply 1 2 x06 false)) 0 :: [])
     = ([], Some (reply_decoded 1 2 x06 false), []).
Proof.
  split; [reflexivity|]. split; [left; reflexivity|].
  apply (matching_xid_any_type (listening 2) 2
           (reply_frame (reply 1 2 x06 false))
           (reply_data (reply 1 2 x06 false)) 0
           (reply_decoded 1 2 x06 false) []).
  - reflexivity.
  - reflexivity.
  - vm_compute. reflexivity.
  - vm_compute. reflexivity.
  - reflexivity.
Defined.

(** ** The option interpreter *)

Lemma range4_nonempty (n : nat) :
  n <> 0%nat -> exists rest, range4 n = 0%nat :: rest.
Proof.
  intros Hn. unfold range4.
  destruct ((n + 3) / 4)%nat as [|k] eqn:E.
  - apply Nat.div_small_iff in E; lia.
  - cbn [seq map]. eexists. reflexivity.
Qed.

(** The address branch raises as soon as its loop has a first turn. *)
Lemma address_loop_raises (opt_data : bytes) :
  opt_data <> [] ->
  address_loop (range4 (length opt_data)) opt_data [] = Raise TypeError.
Proof.
  intros Hd.
  destruct (range4_nonempty (length opt_data)) as [rest ->].
  - destruct opt_data; [contradiction | discriminate].
  - reflexivity.
Qed.

Lemma bytes_eqb_nil (d : bytes) : bytes_eqb d [] = true <-> d = [].
Proof.
  unfold bytes_eqb. destruct (list_eq_dec Byte.byte_eq_dec d []); split;
    congruence.
Qed.

(** Every option of an address-list code with data of a positive
    multiple of four bytes makes the interpreter raise [TypeError]. *)
Lemma address_option_raises (opt_code : Z) (opt_data : bytes) :
  in_codes opt_code [1; 3; 6; 28; 42; 54] = true ->
  opt_data <> [] ->
  (length opt_data mod 4 = 0)%nat ->
  interpret_option opt_code opt_data = Raise TypeError.
Proof.
  intros Hc Hd Hm. unfold interpret_option.
  assert ((opt_code =? 53) = false) as ->.
  { unfold in_codes in Hc. cbn [existsb] in Hc. lia. }
  assert ((opt_code =? 2) = false) as ->.
  { unfold in_codes in Hc. cbn [existsb] in Hc. lia. }
  cbn [andb]. rewrite Hc, Hm. cbn [andb Nat.eqb].
  rewrite (address_loop_raises _ Hd). reflexivity.
Qed.

(** The interpreter returns a text for every other pair: it raises only
    in the case above. *)
Lemma interpret_option_outcome (opt_code : Z) (opt_data : bytes) :
  (exists v, interpret_option opt_code opt_data = Ok v)
  \/ (interpret_option opt_code opt_data = Raise TypeError
      /\ in_codes opt_code [1; 3; 6; 28; 42; 54] = true
      /\ opt_data <> []
      /\ (length opt_data mod 4 = 0)%nat).
Proof.
  unfold interpret_option.
  destruct ((opt_code =? 53) && negb (bytes_eqb opt_data []));
    [left; eexists; reflexivity|].
  destruct (opt_code =? 2).
  { destruct (Nat.leb_spec 4 (length opt_data)) as [H4|_];
      [|left; eexists; reflexivity].
    unfold struct.unpack. rewrite length_slice.
    replace (Nat.min (4 - 0) (length opt_data - 0)) with 4%nat by lia.
    cbn [struct.calcsize fold_right struct.size Nat.add Nat.eqb bind].
    left. eexists. reflexivity. }
  destruct (in_codes opt_code [1; 3; 6; 28; 42; 54]) eqn:Hc.
  { destruct (Nat.eqb_spec (length opt_data mod 4) 0) as [Hm|_].
    - cbn [andb]. destruct opt_data as [|x r].
      + left. eexists. reflexivity.
      + right. rewrite address_loop_raises by discriminate.
        repeat split; [discriminate | exact Hm].
    - cbn [andb].
      destruct (in_codes opt_code [51; 58; 59] && (length opt_data =? 4)%nat)
        eqn:E.
      + apply andb_true_iff in E as [_ E]. apply Nat.eqb_eq in E.
        unfold struct.unpack. rewrite E.
        cbn [struct.calcsize fold_right struct.size Nat.add Nat.eqb bind].
        left. eexists. reflexivity.
      + destruct (negb (bytes_eqb opt_data [])); left; eexists; reflexivity. }
  cbn [andb].
  destruct (in_codes opt_code [51; 58; 59] && (length opt_data =? 4)%nat)
    eqn:E.
  - apply andb_true_iff in E as [_ E]. apply Nat.eqb_eq in E.
    unfold struct.unpack. rewrite E.
    cbn [struct.calcsize fold_right struct.size Nat.add Nat.eqb bind].
    left. eexists. reflexivity.
  - destruct (negb (bytes_eqb opt_data [])); left; eexists; reflexivity.
Qed.

(** C2 (the code at the failing input).  For code 1 with the four bytes
    [FF FF FF 00] the interpreter raises [TypeError]: it hands the bytes
    to [inet_aton], which takes a string.  [inet_ntoa] on the same bytes
    gives the dotted quad 255.255.255.0. *)
Theorem subnet_mask_option_raises :
  interpret_option 1 [xff; xff; xff; x00] = Raise TypeError
  /\ socket.inet_aton (socket.Packed [xff; xff; xff; x00]) = Raise TypeError
  /\ socket.inet_ntoa (socket.Packed [xff; xff; xff; x00])
     = Ok "255.255.255.0".
Proof. repeat split; vm_compute; reflexivity. Qed.

(** C3 (the code at the failing input).  An OFFER for the transaction of
    the request that carries a subnet mask: interpreting its options
    raises [TypeError], and the scan that received it prints the error
    line and returns [None]. *)
Theorem offer_with_mask_fails :
  answer "eth0" (offer_world true)
    = Some (reply_decoded 2 3735928559 x02 true)
  /\ interpret_loop (options (reply_decoded 2 3735928559 x02 true)) []
     = Raise TypeError
  /\ scan_dhcp_options "eth0" (offer_world true)
     = ([MsgGotResponse; MsgScanError TypeError], None,
        DHCPListener.mk (Some "eth0") false (Some 3735928559)).
Proof. repeat split; vm_compute; reflexivity. Qed.

(** ** How a scan ends *)

(** [scan_dhcp_options] by cases on what the environment does. *)
Lemma scan_cases (interface : string) (w : world) :
  scan_dhcp_options interface w =
  match listen_create w with
  | Raise e =>
      ([MsgRawSocketError e; MsgListenerFailed], None,
       DHCPListener.init (Some interface))
  | Ok _ =>
      match listen_bind w with
      | Raise e =>
          ([MsgRawSocketError e; MsgListenerFailed], None,
           DHCPListener.mk (Some interface) true None)
      | Ok _ =>
          let stopped :=
            DHCPListener.mk (Some interface) false (Some (rnd_xid w)) in
          match
            (_ <- send_socket w ;;
             discover_frame <-
               send_dhcp_discover_raw (rnd_ctor w) (rnd_port w) (rnd_ident w)
                 (mac_address w) (rnd_xid w) ;;
             send_three w)
          with
          | Raise e => ([MsgScanError e], None, stopped)
          | Ok _ =>
              match DHCPListener.receive (scan_listener interface w) (polls w)
              with
              | (out, Some resp, _) =>
                  match interpret_loop (options resp) [] with
                  | Ok parsed_options =>
                      (out ++ [MsgGotResponse],
                       Some (mk_scan_result resp parsed_options interface
                               (mac_address w)),
                       stopped)
                  | Raise e =>
                      ((out ++ [MsgGotResponse]) ++ [MsgScanError e], None,
                       stopped)
                  end
              | (out, None, _) => (out ++ [MsgNoAnswer], None, stopped)
              end
          end
      end
  end.
Proof.
  unfold scan_dhcp_options, DHCPListener.start, DHCPListener.init.
  destruct (listen_create w) as [u1|e1]; [|reflexivity].
  destruct (listen_bind w) as [u2|e2]; [|reflexivity].
  cbn [negb DHCPListener.interface DHCPListener.xid_filter app].
  unfold scan_body, DHCPListener.set_filter.
  cbn [DHCPListener.interface DHCPListener.socket].
  fold (scan_listener interface w).
  destruct (_ <- send_socket w ;; _) as [u3|e3]; [|reflexivity].
  destruct (DHCPListener.receive (scan_listener interface w) (polls w))
    as [[out [resp|]] rest]; [|reflexivity].
  destruct (interpret_loop (options resp) []); reflexivity.
Qed.


(** *** A failed turn of the receive loop *)









(* ===================================================================== *)
(** * Further properties of the code *)
(* ===================================================================== *)

(** ** What the option decoder returns *)

Lemma byte_at_range (data : bytes) (i : nat) : 0 <= byte_at data i < 256.
Proof. apply byte_val_range. Qed.

Lemma parse_loop_inv (data : bytes) :
  forall n i acc,
    (length data - i <= n)%nat ->
    Forall decoded_entry acc ->
    Forall decoded_entry (parse_loop data i acc)
    /\ (2 * length (parse_loop data i acc)
        <= 2 * length acc + (length data - i))%nat.
Proof.
  induction n as [|n IH]; intros i acc Hn Hacc.
  - rewrite parse_loop_past_end by lia. split; [exact Hacc | lia].
  - rewrite parse_loop_unfold.
    destruct (lt_dec i (length data)) as [Hi|Hi]; [|split; [exact Hacc | lia]].
    destruct (Z.eq_dec (byte_at data i) 0) as [E0|N0].
    { destruct (IH (S i) acc ltac:(lia) Hacc) as [H1 H2].
      split; [exact H1 | lia]. }
    destruct (Z.eq_dec (byte_at data i) 255) as [E255|N255];
      [split; [exact Hacc | lia]|].
    destruct (lt_dec (S i) (length data)) as [Hi'|Hi'];
      [|split; [exact Hacc | lia]].
    set (L := Z.to_nat (byte_at data (S i))).
    assert (Forall decoded_entry
              (acc ++ [(byte_at data i, slice (S (S i)) (S (S i) + L) data)]))
      as Hacc'.
    { apply Forall_app. split; [exact Hacc|]. constructor; [|constructor].
      pose proof (byte_at_range data i). pose proof (byte_at_range data (S i)).
      split; cbn [fst snd]; [lia|]. rewrite length_slice. subst L. lia. }
    destruct (IH (S (S i) + L)%nat _ ltac:(lia) Hacc') as [H1 H2].
    split; [exact H1|]. rewrite length_app in H2. cbn [length] in H2. lia.
Qed.

(** X1.  Whatever the bytes, every entry the option decoder returns has
    a code from 1 to 254 and at most 255 bytes of data, and the decoder
    returns at most one entry for two bytes of input. *)
Theorem decoded_entries_valid (data : bytes) :
  Forall decoded_entry (_parse_options data)
  /\ (2 * length (_parse_options data) <= length data)%nat.
Proof.
  unfold _parse_options.
  destruct (parse_loop_inv data (length data) 0 [] ltac:(lia)
              (Forall_nil _)) as [H1 H2].
  split; [exact H1|]. cbn [length] in H2. lia.
Qed.

Lemma decoded_entries_ok (data : bytes) :
  forallb entry_ok (_parse_options data) = true
  /\ forallb plain_entry (_parse_options data) = true.
Proof.
  destruct (parse_loop_inv data (length data) 0 [] ltac:(lia)
              (Forall_nil _)) as [H _].
  fold (_parse_options data) in H.
  split; apply forallb_forall; intros [c d] Hin;
    rewrite Forall_forall in H; destruct (H _ Hin) as [Hc Hd];
    cbn [fst snd] in Hc, Hd.
  - unfold entry_ok. lia.
  - unfold plain_entry. cbn [fst]. lia.
Qed.

(** X2.  Encoding the entries the decoder returned and decoding again
    gives the same entries: the decoder's output is a fixed point, with
    or without a closing End byte. *)
Theorem reencode_decoded_options (data : bytes) :
  _parse_options (flat_map encode_entry (_parse_options data) ++ [xff])
    = _parse_options data
  /\ _parse_options (flat_map encode_entry (_parse_options data))
     = _parse_options data.
Proof.
  destruct (decoded_entries_ok data) as [Hok Hplain]. split.
  - rewrite parse_encode_strip by exact Hok.
    rewrite strip_plain by exact Hplain.
    rewrite (parse_end xff) by reflexivity. apply app_nil_r.
  - rewrite <- (app_nil_r (flat_map _ _)).
    rewrite parse_encode_strip by exact Hok.
    rewrite strip_plain by exact Hplain.
    rewrite parse_nil. apply app_nil_r.
Qed.

(** ** [unpack] on what [pack] wrote, in general *)

Lemma skipn_header (fixed cookie rest : bytes) :
  length fixed = 236%nat -> length cookie = 4%nat ->
  skipn 240 (fixed ++ cookie ++ rest) = rest.
Proof.
  intros Hf Hc. rewrite (skipn_app_more _ _ 236 4 Hf).
  rewrite skipn_app, <- Hc, skipn_all, Nat.sub_diag. reflexivity.
Qed.

Lemma set_options_same (m : DHCPPacket.t) : set_options m (options m) = m.
Proof. destruct m. reflexivity. Qed.

(** The fixed section [pack] writes, and what [unpack] makes of it
    whatever cookie and option bytes follow. *)
Lemma unpack_after_fixed (m : DHCPPacket.t) :
  fixed_ok m ->
  xid m <> 0 ->
  exists fixed,
    length fixed = 236%nat
    /\ pack m =
       (if forallb entry_ok (options m)
        then Ok (fixed ++ DHCP_MAGIC_COOKIE
                 ++ flat_map encode_entry (options m)
                 ++ (if has_end (options m) then [] else [xff]))
        else Raise ValueError)
    /\ forall rnd cookie obytes,
         length cookie = 4%nat ->
         unpack rnd (fixed ++ cookie ++ obytes)
         = Ok (set_options m (_parse_options obytes)).
Proof.
  intros Hfix Hxid.
  destruct (pack_fixed m Hfix)
    as (fixed & ci & yi & si & gi & Hlen & Hun & Hc & Hy & Hs & Hg & Hpack).
  exists fixed. split; [exact Hlen|]. split; [exact Hpack|].
  intros rnd cookie obytes Hck. unfold unpack.
  rewrite (slice_prefix _ _ _ Hlen).
  rewrite Hun. cbn [bind struct.get_int struct.get_bytes nth_error].
  rewrite Hc, Hy, Hs, Hg. cbn [bind].
  rewrite (skipn_header _ _ _ Hlen Hck). f_equal.
  unfold set_options, init. cbn.
  destruct (Z.eqb_spec (xid m) 0) as [E|_]; [contradiction|].
  rewrite (ljust_rstrip0 64 _ (wf_sname m Hfix)).
  rewrite (ljust_rstrip0 128 _ (wf_file m Hfix)).
  pose proof (wf_chaddr m Hfix) as Hch.
  destruct (chaddr m) as [|x r]; [discriminate Hch|].
  reflexivity.
Qed.

Lemma strip_filter (opts : list option_entry) :
  strip opts [] = filter not_pad (before_end opts).
Proof.
  induction opts as [|[c d] opts IH]; [reflexivity|].
  cbn [strip before_end fst].
  destruct (Z.eqb_spec c 0) as [->|H0].
  - cbn [Z.eqb filter not_pad fst negb]. exact IH.
  - destruct (Z.eqb_spec c 255) as [->|H255]; [reflexivity|].
    cbn [filter]. unfold not_pad at 1. cbn [fst].
    destruct (Z.eqb_spec c 0); [contradiction|]. cbn [negb].
    f_equal. exact IH.
Qed.

Lemma strip_has_end (opts k : list option_entry) :
  has_end opts = true -> strip opts k = strip opts [].
Proof.
  induction opts as [|[c d] opts IH]; [discriminate|].
  unfold has_end. cbn [existsb fst]. fold (has_end opts). intros H.
  cbn [strip]. destruct (Z.eqb_spec c 0) as [->|H0].
  - cbn [Z.eqb orb] in H. apply IH. exact H.
  - destruct (Z.eqb_spec c 255) as [->|H255]; [reflexivity|].
    cbn [orb] in H. f_equal. apply IH. exact H.
Qed.

(** The option bytes of [pack] decode to the same list whatever bytes
    are appended to them. *)
Lemma parse_packed_tail (opts : list option_entry) (junk : bytes) :
  forallb entry_ok opts = true ->
  _parse_options ((flat_map encode_entry opts
                   ++ (if has_end opts then [] else [xff])) ++ junk)
  = strip opts [].
Proof.
  intros Hok. rewrite <- app_assoc.
  rewrite parse_encode_strip by exact Hok.
  destruct (has_end opts) eqn:He.
  - apply strip_has_end. exact He.
  - cbn [app]. rewrite (parse_end xff) by reflexivity. reflexivity.
Qed.

(** X3.  For every well-formed message with a non-zero [xid], whatever
    Pad and End entries its option list holds and wherever they stand,
    [unpack] of [pack] gives back the fixed fields and, as option list,
    the entries that stand before the first End entry, without the Pad
    entries: entries after an End entry are written by [pack] but lost on
    decoding. *)
Theorem unpack_pack_options (m : DHCPPacket.t) (rnd : Z) :
  well_formed m ->
  xid m <> 0 ->
  exists d,
    pack m = Ok d
    /\ unpack rnd d
       = Ok (set_options m (filter not_pad (before_end (options m)))).
Proof.
  intros [Hfix Hopts] Hxid.
  destruct (unpack_after_fixed m Hfix Hxid) as (fixed & Hlen & Hpack & Hun).
  rewrite Hopts in Hpack. eexists. split; [exact Hpack|].
  rewrite Hun by reflexivity.
  rewrite <- (app_nil_r (flat_map _ _ ++ _)).
  rewrite parse_packed_tail by exact Hopts.
  rewrite strip_filter. reflexivity.
Qed.

Lemma unpack_pack_options_witness :
  exists d,
    pack (discover_with [(0, []); (12, [x41]); (255, []); (60, [x42])])
      = Ok d
    /\ unpack 9 d
       = Ok (set_options
               (discover_with [(0, []); (12, [x41]); (255, []); (60, [x42])])
               (filter not_pad
                  (before_end
                     (options (discover_with
                        [(0, []); (12, [x41]); (255, []); (60, [x42])]))))).
Proof.
  apply (unpack_pack_options
           (discover_with [(0, []); (12, [x41]); (255, []); (60, [x42])]) 9).
  - split; [apply discover_with_fixed_ok | reflexivity].
  - cbn. lia.
Defined.

(** X4.  Bytes that follow the datagram [pack] wrote (padding of the
    frame, say) change nothing to what [unpack] returns. *)
Theorem unpack_ignores_trailing_bytes (m : DHCPPacket.t) (d junk : bytes)
    (rnd : Z) :
  fixed_ok m ->
  pack m = Ok d ->
  unpack rnd (d ++ junk) = unpack rnd d.
Proof.
  intros Hfix Hd.
  destruct (pack_fixed m Hfix)
    as (fixed & ci & yi & si & gi & Hlen & _ & _ & _ & _ & _ & Hpack).
  rewrite Hd in Hpack.
  destruct (forallb entry_ok (options m)) eqn:Hok; [|discriminate Hpack].
  apply Ok_inj in Hpack. subst d.
  unfold unpack.
  rewrite <- !app_assoc.
  rewrite !(slice_prefix _ _ _ Hlen).
  rewrite !(skipn_header fixed DHCP_MAGIC_COOKIE _ Hlen eq_refl).
  rewrite app_assoc, parse_packed_tail by exact Hok.
  rewrite <- (app_nil_r (flat_map _ _ ++ _)).
  rewrite parse_packed_tail by exact Hok. reflexivity.
Qed.

Lemma unpack_ignores_trailing_bytes_witness :
  unpack 9 (reply_data (reply 2 5 x02 true) ++ [x00; x00; xde; xad])
  = unpack 9 (reply_data (reply 2 5 x02 true)).
Proof.
  apply (unpack_ignores_trailing_bytes (reply 2 5 x02 true)).
  - constructor; cbn; try lia; try reflexivity.
    + exists [x00; x00; x00; x00]; reflexivity.
    + exists [xc0; xa8; x01; x32]; reflexivity.
    + exists [xc0; xa8; x01; x01]; reflexivity.
    + exists [x00; x00; x00; x00]; reflexivity.
  - vm_compute. reflexivity.
Defined.

(** X5.  [unpack] does not look at the four bytes of the magic cookie:
    two inputs that differ only there decode alike. *)
Theorem unpack_ignores_cookie (rnd : Z) (fixed c1 c2 rest : bytes) :
  length fixed = 236%nat ->
  length c1 = 4%nat ->
  length c2 = 4%nat ->
  unpack rnd (fixed ++ c1 ++ rest) = unpack rnd (fixed ++ c2 ++ rest).
Proof.
  intros Hf H1 H2. unfold unpack.
  rewrite !(slice_prefix _ _ _ Hf).
  rewrite (skipn_header _ _ _ Hf H1), (skipn_header _ _ _ Hf H2).
  reflexivity.
Qed.

Lemma unpack_ignores_cookie_witness :
  unpack 9 (repeat x01 236 ++ DHCP_MAGIC_COOKIE ++ [x35; x01; x02; xff])
  = unpack 9 (repeat x01 236 ++ [x00; x00; x00; x00]
              ++ [x35; x01; x02; xff]).
Proof.
  apply (unpack_ignores_cookie 9 (repeat x01 236)); reflexivity.
Defined.

(** ** Decoded messages *)

Lemma get_int_unsigned_range (f : list struct.code) :
  forall (k : nat) (data : bytes) (c : struct.code),
    nth_error f k = Some c ->
    c = struct.fmt_B \/ c = struct.fmt_H \/ c = struct.fmt_L ->
    0 <= struct.get_int (struct.unpack_all f data) k
      < 256 ^ Z.of_nat (struct.size c).
Proof.
  induction f as [|c0 f IH]; intros [|k] data c H Hc; cbn in H;
    try discriminate.
  - injection H as ->.
    assert (struct.get_int (struct.unpack_all (c :: f) data) 0
            = be_decode (firstn (struct.size c) data)) as ->
      by (destruct Hc as [->|[->| ->]]; reflexivity).
    pose proof (be_decode_range (firstn (struct.size c) data)) as R.
    assert (length (firstn (struct.size c) data) <= struct.size c)%nat as L
      by apply firstn_le_length.
    assert (256 ^ Z.of_nat (length (firstn (struct.size c) data))
            <= 256 ^ Z.of_nat (struct.size c))
      by (apply Z.pow_le_mono_r; lia).
    lia.
  - apply (IH k (skipn (struct.size c0) data) c H Hc).
Qed.

Lemma get_bytes_length (f : list struct.code) :
  forall (k : nat) (data : bytes) (n : nat),
    nth_error f k = Some (struct.fmt_s n) ->
    length data = struct.calcsize f ->
    length (struct.get_bytes (struct.unpack_all f data) k) = n.
Proof.
  induction f as [|c0 f IH]; intros [|k] data n H Hl; cbn in H;
    try discriminate.
  - injection H as ->.
    unfold struct.calcsize in Hl. cbn [fold_right struct.size] in Hl.
    cbn [struct.unpack_all struct.get_bytes nth_error struct.unpack_one
         struct.size].
    rewrite length_firstn. lia.
  - apply (IH k (skipn (struct.size c0) data) n H).
    rewrite length_skipn. unfold struct.calcsize in *.
    cbn [fold_right] in Hl. lia.
Qed.

Lemma ntoa_word_dotted (w : Z) (s : string) :
  ntoa_word w = Ok s -> dotted_quad s.
Proof.
  unfold ntoa_word.
  destruct (struct.pack [struct.fmt_L] [struct.Int w]) as [p|]; cbn [bind];
    [|discriminate].
  intros H. exists p. exact H.
Qed.

(** The fixed fields of every decoded message fit the wire format, and
    its entries are entries the encoder accepts. *)
Lemma unpack_well_formed (rnd : Z) (data : bytes) (m : DHCPPacket.t) :
  1 <= rnd <= 4294967295 ->
  unpack rnd data = Ok m ->
  well_formed m /\ xid m <> 0
  /\ forallb plain_entry (options m) = true.
Proof.
  intros Hrnd. unfold unpack, struct.unpack.
  destruct (Nat.eqb_spec (length (slice 0 236 data)) (struct.calcsize FORMAT))
    as [Hlen|]; [|discriminate].
  cbn [bind].
  set (fields := struct.unpack_all FORMAT (slice 0 236 data)).
  destruct (ntoa_word (struct.get_int fields 7)) as [ci|] eqn:Eci;
    [|discriminate].
  destruct (ntoa_word (struct.get_int fields 8)) as [yi|] eqn:Eyi;
    [|discriminate].
  destruct (ntoa_word (struct.get_int fields 9)) as [si|] eqn:Esi;
    [|discriminate].
  destruct (ntoa_word (struct.get_int fields 10)) as [gi|] eqn:Egi;
    [|discriminate].
  cbn [bind]. intros H%Ok_inj. subst m.
  destruct (decoded_entries_ok (skipn 240 data)) as [Hok Hplain].
  pose proof (get_int_unsigned_range FORMAT 4 (slice 0 236 data)
                struct.fmt_L eq_refl ltac:(auto)) as Rx.
  fold fields in Rx. change (256 ^ Z.of_nat (struct.size struct.fmt_L))
    with 4294967296 in Rx.
  assert (forall k, (k < 4)%nat ->
            0 <= struct.get_int fields k <= 255) as RB.
  { intros k Hk.
    pose proof (get_int_unsigned_range FORMAT k (slice 0 236 data)
                  struct.fmt_B) as R.
    fold fields in R. change (256 ^ Z.of_nat (struct.size struct.fmt_B))
      with 256 in R.
    destruct k as [|[|[|[|k]]]]; try lia;
      specialize (R eq_refl ltac:(auto)); lia. }
  assert (forall k, k = 5%nat \/ k = 6%nat ->
            0 <= struct.get_int fields k <= 65535) as RH.
  { intros k Hk.
    pose proof (get_int_unsigned_range FORMAT k (slice 0 236 data)
                  struct.fmt_H) as R.
    fold fields in R. change (256 ^ Z.of_nat (struct.size struct.fmt_H))
      with 65536 in R.
    destruct Hk as [-> | ->]; specialize (R eq_refl ltac:(auto)); lia. }
  pose proof (get_bytes_length FORMAT 11 (slice 0 236 data) 16 eq_refl Hlen)
    as Hch.
  pose proof (get_bytes_length FORMAT 12 (slice 0 236 data) 64 eq_refl Hlen)
    as Hsn.
  pose proof (get_bytes_length FORMAT 13 (slice 0 236 data) 128 eq_refl Hlen)
    as Hfi.
  fold fields in Hch, Hsn, Hfi.
  unfold set_options, init. cbn [op htype hlen hops xid secs flags ciaddr
    yiaddr siaddr giaddr chaddr sname file options].
  assert (0 <= (if struct.get_int fields 4 =? 0 then rnd
                else struct.get_int fields 4) <= 4294967295
          /\ (if struct.get_int fields 4 =? 0 then rnd
              else struct.get_int fields 4) <> 0) as [Hx Hx0]
    by (destruct (Z.eqb_spec (struct.get_int fields 4) 0); lia).
  split; [|split; [exact Hx0 | exact Hplain]].
  split; [|exact Hok].
  constructor; cbn [op htype hlen hops xid secs flags ciaddr
    yiaddr siaddr giaddr chaddr sname file options].
  - apply RB. lia.
  - apply RB. lia.
  - apply RB. lia.
  - apply RB. lia.
  - exact Hx.
  - apply RH. auto.
  - apply RH. auto.
  - exact (ntoa_word_dotted _ _ Eci).
  - exact (ntoa_word_dotted _ _ Eyi).
  - exact (ntoa_word_dotted _ _ Esi).
  - exact (ntoa_word_dotted _ _ Egi).
  - destruct (struct.get_bytes fields 11) as [|x r]; [discriminate Hch|].
    exact Hch.
  - rewrite ljust_rstrip0 by exact Hsn. exact Hsn.
  - rewrite ljust_rstrip0 by exact Hfi. exact Hfi.
Qed.

(** X6.  Every message [unpack] returns (the random source being a
    non-zero 32-bit number) is well formed, and it is a fixed point of
    the codec: [pack] accepts it, and [unpack] of the bytes [pack] writes
    returns the same message, fields and options. *)
Theorem decoded_message_reencodes (rnd : Z) (data : bytes)
    (m : DHCPPacket.t) :
  1 <= rnd <= 4294967295 ->
  unpack rnd data = Ok m ->
  well_formed m
  /\ exists d, pack m = Ok d /\ forall rnd', unpack rnd' d = Ok m.
Proof.
  intros Hrnd Hm.
  destruct (unpack_well_formed rnd data m Hrnd Hm)
    as ([Hfix Hok] & Hxid & Hplain).
  split; [split; assumption|].
  destruct (unpack_after_fixed m Hfix Hxid) as (fixed & Hlen & Hpack & Hun).
  rewrite Hok in Hpack. eexists. split; [exact Hpack|].
  intros rnd'. rewrite Hun by reflexivity.
  rewrite <- (app_nil_r (flat_map _ _ ++ _)).
  rewrite parse_packed_tail by exact Hok.
  rewrite strip_plain by exact Hplain.
  rewrite app_nil_r, set_options_same. reflexivity.
Qed.

Lemma decoded_message_reencodes_witness :
  well_formed (reply_decoded 2 5 x02 true)
  /\ exists d, pack (reply_decoded 2 5 x02 true) = Ok d
               /\ forall rnd', unpack rnd' d = Ok (reply_decoded 2 5 x02 true).
Proof.
  apply (decoded_message_reencodes 1 (reply_data (reply 2 5 x02 true))).
  - lia.
  - vm_compute. reflexivity.
Defined.

(** ** What [receive] returns *)

Lemma turn_some_inv (self : DHCPListener.t) (p : DHCPListener.poll)
    (m : DHCPPacket.t) :
  DHCPListener.turn self p = Ok (Some m) ->
  exists packet rnd dhcp_data,
    p = DHCPListener.Received packet rnd
    /\ DHCPListener.demux packet = Ok (DHCPListener.Payload dhcp_data)
    /\ unpack rnd dhcp_data = Ok m
    /\ (forall x, DHCPListener.xid_filter self = Some x -> xid m = x).
Proof.
  destruct p as [|packet rnd|e]; cbn [DHCPListener.turn]; try discriminate.
  destruct (DHCPListener.demux packet) as [[|dhcp_data]|] eqn:Ed;
    cbn [bind]; try discriminate.
  destruct (unpack rnd dhcp_data) as [m'|] eqn:Eu; cbn [bind];
    [|discriminate].
  destruct (DHCPListener.xid_filter self) as [x|] eqn:Ef.
  - destruct (Z.eqb_spec (xid m') x) as [Hx|]; cbn [negb]; [|discriminate].
    intros [= <-]. exists packet, rnd, dhcp_data.
    repeat split; try assumption. intros x' [= <-]. exact Hx.
  - intros [= <-]. exists packet, rnd, dhcp_data.
    repeat split; try assumption. discriminate.
Qed.

Lemma receive_loop_some_inv (self : DHCPListener.t) :
  forall ps out out' m rest,
    DHCPListener.receive_loop self ps out = (out', Some m, rest) ->
    exists before p,
      ps = before ++ p :: rest
      /\ DHCPListener.turn self p = Ok (Some m)
      /\ Forall (fun q => forall m', DHCPListener.turn self q <> Ok (Some m'))
           before.
Proof.
  induction ps as [|p ps IH]; intros out out' m rest;
    cbn [DHCPListener.receive_loop]; [discriminate|].
  destruct (DHCPListener.turn self p) as [[m0|]|e] eqn:Et.
  - intros H. inversion H; subst. exists [], p.
    split; [reflexivity|]. split; [exact Et | constructor].
  - intros H. destruct (IH _ _ _ _ H) as (before & q & -> & Hq & Hall).
    exists (p :: before), q. split; [reflexivity|]. split; [exact Hq|].
    constructor; [rewrite Et; discriminate | exact Hall].
  - intros H0.
    assert (exists o, DHCPListener.receive_loop self ps o
                      = (out', Some m, rest)) as [o H]
      by (destruct e; eexists; exact H0).
    destruct (IH _ _ _ _ H) as (before & q & -> & Hq & Hall).
    exists (p :: before), q. split; [reflexivity|]. split; [exact Hq|].
    constructor; [rewrite Et; discriminate | exact Hall].
Qed.

(** X7.  Whatever the environment does, a message [receive] returns
    comes from a frame that was received while the socket was open, that
    passed the checks with at least 240 bytes of DHCP data from UDP port
    67 to port 68, and that decodes to this message; its [xid] is the one
    of the filter when a filter is set; and no earlier turn gave a
    message. *)
Theorem receive_returns_matching (self : DHCPListener.t)
    (polls rest : list DHCPListener.poll) (out : list console)
    (m : DHCPPacket.t) :
  DHCPListener.receive self polls = (out, Some m, rest) ->
  DHCPListener.socket self = true
  /\ exists before packet rnd dhcp_data,
       polls = before ++ DHCPListener.Received packet rnd :: rest
       /\ DHCPListener.demux packet = Ok (DHCPListener.Payload dhcp_data)
       /\ udp_src_port packet = Some 67 /\ udp_dst_port packet = Some 68
       /\ (240 <= length dhcp_data)%nat
       /\ unpack rnd dhcp_data = Ok m
       /\ (forall x, DHCPListener.xid_filter self = Some x -> xid m = x)
       /\ Forall (fun q => forall m',
                    DHCPListener.turn self q <> Ok (Some m')) before.
Proof.
  unfold DHCPListener.receive.
  destruct (DHCPListener.socket self); cbn [negb]; [|discriminate].
  intros H. split; [reflexivity|].
  destruct (receive_loop_some_inv self _ _ _ _ _ H)
    as (before & p & -> & Hp & Hall).
  destruct (turn_some_inv self p m Hp)
    as (packet & rnd & dhcp_data & -> & Hd & Hu & Hx).
  destruct (demux_payload_inv packet dhcp_data Hd)
    as (_ & _ & Hs & Hdst & Hbig & _).
  exists before, packet, rnd, dhcp_data. repeat split; assumption.
Qed.

Lemma receive_returns_matching_witness :
  DHCPListener.socket (listening 2) = true
  /\ exists before packet rnd dhcp_data,
       [reply_poll (reply 2 1 x02 false); reply_poll (reply 2 2 x02 false);
        reply_poll (reply 2 3 x02 false)]
       = before ++ DHCPListener.Received packet rnd
                :: [reply_poll (reply 2 3 x02 false)]
       /\ DHCPListener.demux packet = Ok (DHCPListener.Payload dhcp_data)
       /\ udp_src_port packet = Some 67 /\ udp_dst_port packet = Some 68
       /\ (240 <= length dhcp_data)%nat
       /\ unpack rnd dhcp_data = Ok (reply_decoded 2 2 x02 false)
       /\ (forall x, DHCPListener.xid_filter (listening 2) = Some x ->
                     xid (reply_decoded 2 2 x02 false) = x)
       /\ Forall (fun q => forall m',
                    DHCPListener.turn (listening 2) q <> Ok (Some m')) before.
Proof.
  apply (receive_returns_matching (listening 2) _ _ []).
  vm_compute. reflexivity.
Defined.

(** ** A transaction number of zero *)

Lemma unpack_xid_nonzero (rnd : Z) (data : bytes) (m : DHCPPacket.t) :
  rnd <> 0 -> unpack rnd data = Ok m -> xid m <> 0.
Proof.
  intros Hrnd. unfold unpack.
  destruct (struct.unpack FORMAT (slice 0 236 data)) as [fields|];
    cbn [bind]; [|discriminate].
  destruct (ntoa_word (struct.get_int fields 7)); cbn [bind]; [|discriminate].
  destruct (ntoa_word (struct.get_int fields 8)); cbn [bind]; [|discriminate].
  destruct (ntoa_word (struct.get_int fields 9)); cbn [bind]; [|discriminate].
  destruct (ntoa_word (struct.get_int fields 10)); cbn [bind];
    [|discriminate].
  intros H%Ok_inj. subst m. unfold set_options, init. cbn [xid].
  destruct (Z.eqb_spec (struct.get_int fields 4) 0); assumption.
Qed.

Lemma receive_loop_none (self : DHCPListener.t) :
  forall ps out,
    Forall (fun q => forall m', DHCPListener.turn self q <> Ok (Some m'))
      ps ->
    exists out', DHCPListener.receive_loop self ps out = (out', None, []).
Proof.
  induction ps as [|p ps IH]; intros out Hall.
  - eexists. reflexivity.
  - inversion Hall as [|? ? Hp Hrest]; subst.
    cbn [DHCPListener.receive_loop].
    destruct (DHCPListener.turn self p) as [[m0|]|e] eqn:Et.
    + exfalso. exact (Hp m0 eq_refl).
    + apply IH. exact Hrest.
    + destruct e; apply IH; exact Hrest.
Qed.

(** X8.  When the transaction number drawn for a scan is 0, the filter
    is 0 but no decoded message has [xid] 0 (the constructor replaces a
    zero [xid] by a random draw, here not zero): the receive loop matches
    nothing and the scan returns [None], whatever frames arrive. *)
Theorem zero_xid_scan_finds_nothing (interface : string) (w : world) :
  rnd_xid w = 0 ->
  draws_nonzero (polls w) ->
  answer interface w = None /\ returned interface w = None.
Proof.
  intros Hx Hdraws.
  assert (Forall (fun q => forall m',
                    DHCPListener.turn (scan_listener interface w) q
                    <> Ok (Some m')) (polls w)) as Hall.
  { unfold draws_nonzero in Hdraws. rewrite Forall_forall in *.
    intros q Hin m' Ht.
    destruct (turn_some_inv _ q m' Ht)
      as (packet & rnd & d & -> & _ & Hu & Hf).
    specialize (Hf 0). unfold scan_listener in Hf.
    cbn [DHCPListener.xid_filter] in Hf. rewrite Hx in Hf.
    specialize (Hf eq_refl).
    exact (unpack_xid_nonzero rnd d m' (Hdraws _ Hin packet rnd eq_refl)
             Hu Hf). }
  assert (answer interface w = None) as Ha.
  { unfold answer, DHCPListener.receive.
    destruct (receive_loop_none _ (polls w) [] Hall) as [out' ->].
    reflexivity. }
  split; [exact Ha|].
  unfold returned. rewrite scan_cases.
  destruct (listen_create w); [|reflexivity].
  destruct (listen_bind w); [|reflexivity].
  cbv zeta. destruct (_ <- send_socket w ;; _); [|reflexivity].
  unfold answer in Ha.
  destruct (DHCPListener.receive (scan_listener interface w) (polls w))
    as [[out [resp|]] rest]; [discriminate Ha | reflexivity].
Qed.

Lemma zero_xid_scan_finds_nothing_witness :
  answer "eth0"
    (mk_world [xaa; xbb; xcc; xdd; xee; xff] 0 77 40000 1
       (Ok tt) (Ok tt) (Ok tt) (fun _ => Ok tt)
       [DHCPListener.Received (reply_frame (reply 2 77 x02 false)) 5;
        DHCPListener.Received (reply_frame (reply 2 0 x02 false)) 5]) = None
  /\ returned "eth0"
       (mk_world [xaa; xbb; xcc; xdd; xee; xff] 0 77 40000 1
          (Ok tt) (Ok tt) (Ok tt) (fun _ => Ok tt)
          [DHCPListener.Received (reply_frame (reply 2 77 x02 false)) 5;
           DHCPListener.Received (reply_frame (reply 2 0 x02 false)) 5])
     = None.
Proof.
  apply zero_xid_scan_finds_nothing.
  - reflexivity.
  - repeat constructor; intros packet rnd [= _ <-]; discriminate.
Defined.

(** ** Frames as they are on the wire *)

Lemma skipn_app_exact (a b : bytes) (n : nat) :
  length a = n -> skipn n (a ++ b) = b.
Proof.
  intros <-. rewrite skipn_app, skipn_all, Nat.sub_diag. reflexivity.
Qed.

Lemma udp_fields (A B C D rest : bytes) :
  length A = 2%nat -> length B = 2%nat ->
  length C = 2%nat -> length D = 2%nat ->
  slice 0 2 (A ++ B ++ C ++ D ++ rest) = A
  /\ slice 2 4 (A ++ B ++ C ++ D ++ rest) = B
  /\ slice 4 6 (A ++ B ++ C ++ D ++ rest) = C
  /\ forall n, slice 8 n (A ++ B ++ C ++ D ++ rest) = firstn (n - 8) rest.
Proof.
  destruct A as [|a1 [|a2 [|? ?]]]; try discriminate.
  destruct B as [|b1 [|b2 [|? ?]]]; try discriminate.
  destruct C as [|c1 [|c2 [|? ?]]]; try discriminate.
  destruct D as [|d1 [|d2 [|? ?]]]; try discriminate.
  intros _ _ _ _. repeat split.
Qed.

Lemma unpack_H_two (A : bytes) :
  length A = 2%nat -> DHCPListener.unpack_H A = Ok (be_decode A).
Proof.
  intros H. destruct A as [|a1 [|a2 [|? ?]]]; try discriminate.
  reflexivity.
Qed.

(** The checks of [receive] on a frame laid out as an Ethernet header of
    14 bytes, an IP header [ip] whose first byte announces its length and
    whose protocol byte is 17, and a UDP header of four 16-bit fields. *)
Lemma demux_wire (eth ip A B C D rest : bytes) :
  length eth = 14%nat ->
  Z.land (byte_at ip 0) 15 * 4 = Z.of_nat (length ip) ->
  nth_error ip 9 = Some x11 ->
  length A = 2%nat -> length B = 2%nat ->
  length C = 2%nat -> length D = 2%nat ->
  DHCPListener.demux (eth ++ ip ++ A ++ B ++ C ++ D ++ rest) =
  if negb (be_decode A =? 67) || negb (be_decode B =? 68)
  then Ok DHCPListener.NotApplicable
  else
    let dhcp_data := firstn (Z.to_nat (be_decode C) - 8) rest in
    if (length dhcp_data <? 240)%nat then Ok DHCPListener.NotApplicable
    else Ok (DHCPListener.Payload dhcp_data).
Proof.
  intros He Hip H9 HA HB HC HD.
  assert (9 < length ip)%nat as Hl9 by (apply nth_error_Some; congruence).
  set (frame := eth ++ ip ++ A ++ B ++ C ++ D ++ rest).
  assert (ip_header frame = ip ++ A ++ B ++ C ++ D ++ rest) as Hih
    by (unfold ip_header, frame; apply skipn_app_exact; exact He).
  assert (ip_protocol frame = Some 17) as Hp.
  { unfold ip_protocol. rewrite Hih, nth_error_app1, H9 by lia.
    reflexivity. }
  assert (udp_header frame = A ++ B ++ C ++ D ++ rest) as Huh.
  { unfold udp_header. rewrite Hih.
    replace (byte_at (ip ++ A ++ B ++ C ++ D ++ rest) 0) with (byte_at ip 0)
      by (unfold byte_at; rewrite app_nth1 by lia; reflexivity).
    rewrite Hip, Nat2Z.id. apply skipn_app_exact. reflexivity. }
  rewrite (demux_udp frame Hp), Huh.
  destruct (udp_fields A B C D rest HA HB HC HD) as (-> & -> & -> & Hdata).
  rewrite !unpack_H_two by assumption. cbn [bind].
  destruct (negb (be_decode A =? 67) || negb (be_decode B =? 68));
    [reflexivity|].
  cbv zeta. rewrite Hdata.
  replace (8 + be_decode C - 8) with (be_decode C) by lia. reflexivity.
Qed.

(** X9.  A frame made of an Ethernet header, an IP header of any length
    its first byte announces (options included) with protocol 17, a UDP
    header from port 67 to port 68 whose length field is 8 plus the
    length of the data, at least 240 bytes of data, and any trailing
    bytes, passes the checks, and the payload is exactly the data: the
    trailing bytes are cut off. *)
Theorem demux_extracts_payload (eth ip dhcp_data trailer : bytes)
    (ck : bytes) :
  length eth = 14%nat ->
  Z.land (byte_at ip 0) 15 * 4 = Z.of_nat (length ip) ->
  nth_error ip 9 = Some x11 ->
  length ck = 2%nat ->
  (240 <= length dhcp_data)%nat ->
  8 + Z.of_nat (length dhcp_data) <= 65535 ->
  DHCPListener.demux
    (eth ++ ip ++ be_encode 2 67 ++ be_encode 2 68
     ++ be_encode 2 (8 + Z.of_nat (length dhcp_data)) ++ ck
     ++ dhcp_data ++ trailer)
  = Ok (DHCPListener.Payload dhcp_data).
Proof.
  intros He Hip H9 Hck Hbig Hfit.
  rewrite (demux_wire eth ip _ _ _ ck (dhcp_data ++ trailer) He Hip H9)
    by (try exact Hck; apply be_encode_length).
  rewrite !be_decode_encode_small
    by (change (256 ^ Z.of_nat 2) with 65536; lia).
  cbn [Z.eqb negb orb]. cbv zeta.
  replace (Z.to_nat (8 + Z.of_nat (length dhcp_data)) - 8)%nat
    with (length dhcp_data) by lia.
  rewrite firstn_app, Nat.sub_diag, firstn_all. cbn [firstn].
  rewrite app_nil_r.
  destruct (Nat.ltb_spec (length dhcp_data) 240); [lia | reflexivity].
Qed.

Lemma demux_extracts_payload_witness :
  DHCPListener.demux
    ((repeat xff 6 ++ repeat x02 6 ++ [x08; x00])
     ++ ([x46; x00; x00; x00; x00; x00; x40; x00; x40; x11; x00; x00]
         ++ [xc0; xa8; x01; x01] ++ [xff; xff; xff; xff]
         ++ [x94; x04; x00; x00])
     ++ be_encode 2 67 ++ be_encode 2 68
     ++ be_encode 2 (8 + Z.of_nat (length (reply_data (reply 2 5 x02 true))))
     ++ [x00; x00]
     ++ reply_data (reply 2 5 x02 true) ++ [x00; x00; x00])
  = Ok (DHCPListener.Payload (reply_data (reply 2 5 x02 true))).
Proof.
  apply demux_extracts_payload.
  - reflexivity.
  - reflexivity.
  - reflexivity.
  - reflexivity.
  - apply Nat.leb_le. vm_compute. reflexivity.
  - apply Z.leb_le. vm_compute. reflexivity.
Defined.

(** ** The DISCOVER frame *)

Lemma discover_fixed_ok (rnd xid : Z) (mac : bytes) :
  (length mac <= 16)%nat ->
  1 <= xid <= 4294967295 ->
  fixed_ok (create_dhcp_discover rnd mac xid)
  /\ xid = DHCPPacket.xid (create_dhcp_discover rnd mac xid)
  /\ forallb entry_ok (options (create_dhcp_discover rnd mac xid)) = true.
Proof.
  intros Hmac Hxid.
  assert (length (ljust 16 mac) = 16%nat) as Hl
    by (unfold ljust; rewrite length_app, repeat_length; lia).
  unfold create_dhcp_discover, init.
  destruct (Z.eqb_spec xid 0) as [|_]; [lia|].
  destruct (ljust 16 mac) as [|x r] eqn:E; [discriminate Hl|].
  split; [|split; [reflexivity|]].
  - constructor; cbn; try lia; try reflexivity; try assumption;
      exists [x00; x00; x00; x00]; reflexivity.
  - cbn [options forallb entry_ok]. cbn [length].
    destruct (Z.ltb_spec (Z.of_nat (S (length mac))) 256); [|lia].
    reflexivity.
Qed.

(** X10.  For a hardware address of at most 16 bytes, a non-zero 32-bit
    transaction number and 16-bit draws for port and identification, the
    DISCOVER frame is built; its DHCP datagram has 293 bytes plus the
    length of the address and starts at offset 42 of the frame; the
    checks of [receive] classify the frame as not applicable (a scanner
    never takes a DISCOVER, its own included, for a reply); and [unpack]
    of the datagram gives the DISCOVER message back with its five options
    (the End entry apart). *)
Theorem discover_frame_wire (rnd port ident xid : Z) (mac : bytes) :
  (length mac <= 16)%nat ->
  1 <= xid <= 4294967295 ->
  0 <= port <= 65535 ->
  0 <= ident <= 65535 ->
  exists frame dhcp_data,
    send_dhcp_discover_raw rnd port ident mac xid = Ok frame
    /\ pack (create_dhcp_discover rnd mac xid) = Ok dhcp_data
    /\ length dhcp_data = (293 + length mac)%nat
    /\ length frame = (42 + length dhcp_data)%nat
    /\ skipn 42 frame = dhcp_data
    /\ DHCPListener.demux frame = Ok DHCPListener.NotApplicable
    /\ forall rnd',
         unpack rnd' dhcp_data
         = Ok (set_options (create_dhcp_discover rnd mac xid)
                 (firstn 5 (options (create_dhcp_discover rnd mac xid)))).
Proof.
  intros Hmac Hxid Hport Hident.
  destruct (discover_fixed_ok rnd xid mac Hmac Hxid) as (Hfix & Hx & Hok).
  destruct (unpack_after_fixed _ Hfix ltac:(lia))
    as (fixed & Hlen & Hpack & Hun).
  rewrite Hok in Hpack.
  set (m := create_dhcp_discover rnd mac xid) in *.
  unfold send_dhcp_discover_raw. fold m. rewrite Hpack. cbn [bind].
  match goal with
  | |- context [struct.Int (8 + Z.of_nat (length ?d))] =>
      set (dhcp_data := d) in *
  end.
  assert (length dhcp_data = (293 + length mac)%nat) as Hdl.
  { subst dhcp_data. rewrite !length_app, Hlen. subst m. cbn.
    rewrite ?length_app. cbn. lia. }
  set (ul := 8 + Z.of_nat (length dhcp_data)).
  assert (0 <= ul <= 65535 /\ 0 <= 20 + ul <= 65535) as [Hul Hul'] by lia.
  unfold DHCP_SERVER_PORT.
  replace (socket.inet_aton (socket.Str "0.0.0.0"))
    with (Ok [x00; x00; x00; x00]) by (vm_compute; reflexivity).
  replace (socket.inet_aton (socket.Str "255.255.255.255"))
    with (Ok [xff; xff; xff; xff]) by (vm_compute; reflexivity).
  cbn [struct.pack struct.pack_one].
  rewrite !in_range_true by lia.
  cbn [bind].
  match goal with
  | |- exists frame d0, Ok (?e ++ ?i ++ (?A ++ ?B ++ ?C ++ ?D ++ []) ++ _)
                        = Ok frame /\ _ =>
      set (eth := e); set (ip := i);
      set (pA := A); set (pB := B); set (pC := C); set (pD := D)
  end.
  assert (length eth = 14%nat) as Heth.
  { subst eth.
    rewrite !length_app, !length_firstn, !repeat_length, be_encode_length.
    cbn [length]. lia. }
  assert (length ip = 20%nat) as Hipl by reflexivity.
  assert ((pA ++ pB ++ pC ++ pD ++ []) ++ dhcp_data
          = pA ++ pB ++ pC ++ pD ++ dhcp_data) as ->
    by (rewrite <- !app_assoc; reflexivity).
  exists (eth ++ ip ++ pA ++ pB ++ pC ++ pD ++ dhcp_data), dhcp_data.
  split; [reflexivity|]. split; [reflexivity|]. split; [exact Hdl|].
  split.
  { rewrite !length_app, Heth, Hipl. subst pA pB pC pD.
    rewrite !be_encode_length. lia. }
  split.
  { replace (eth ++ ip ++ pA ++ pB ++ pC ++ pD ++ dhcp_data)
      with ((eth ++ ip ++ pA ++ pB ++ pC ++ pD) ++ dhcp_data)
      by (rewrite <- !app_assoc; reflexivity).
    apply skipn_app_exact. rewrite !length_app, Heth, Hipl.
    subst pA pB pC pD. rewrite !be_encode_length. reflexivity. }
  split.
  { rewrite (demux_wire eth ip pA pB pC pD dhcp_data Heth);
      try reflexivity.
    subst pB. rewrite (be_decode_encode_small 2 67)
      by (change (256 ^ Z.of_nat 2) with 65536; lia).
    cbn [Z.eqb negb]. rewrite orb_true_r. reflexivity. }
  intros rnd'. subst dhcp_data.
  rewrite (Hun rnd' DHCP_MAGIC_COOKIE _ eq_refl).
  rewrite <- (app_nil_r (flat_map _ _ ++ _)).
  rewrite parse_packed_tail by exact Hok.
  reflexivity.
Qed.

Lemma discover_frame_wire_witness :
  exists frame dhcp_data,
    send_dhcp_discover_raw 0 40000 1 [xaa; xbb; xcc; xdd; xee; xff]
      3735928559 = Ok frame
    /\ pack discover_example = Ok dhcp_data
    /\ length dhcp_data = (293 + 6)%nat
    /\ length frame = (42 + length dhcp_data)%nat
    /\ skipn 42 frame = dhcp_data
    /\ DHCPListener.demux frame = Ok DHCPListener.NotApplicable
    /\ forall rnd',
         unpack rnd' dhcp_data
         = Ok (set_options discover_example
                 (firstn 5 (options discover_example))).
Proof.
  apply (discover_frame_wire 0 40000 1 3735928559 [xaa; xbb; xcc; xdd; xee; xff]).
  - simpl. lia.
  - lia.
  - lia.
  - lia.
Defined.

(** ** The listener after a scan *)

(** X11.  When a scan returns, the listener's socket is closed on every
    path that went through the [try] block, whether the scan ended with a
    result, without answer or on an exception; the socket is left set on
    one path only, the listener whose socket was created but could not be
    bound, which the scan leaves without stopping it. *)
Theorem listener_after_scan (interface : string) (w : world) :
  DHCPListener.socket (snd (scan_dhcp_options interface w))
  = is_ok (listen_create w) && negb (is_ok (listen_bind w)).
Proof.
  rewrite scan_cases.
  destruct (listen_create w) as [u1|e1]; [|reflexivity].
  destruct (listen_bind w) as [u2|e2]; [|reflexivity].
  cbv zeta. cbn [is_ok negb andb].
  destruct (_ <- send_socket w ;; _) as [u3|e3]; [|reflexivity].
  destruct (DHCPListener.receive (scan_listener interface w) (polls w))
    as [[out [resp|]] rest]; [|reflexivity].
  destruct (interpret_loop (options resp) []); reflexivity.
Qed.

(** ** The dictionary of interpreted options *)

Lemma dict_get_set_same (d : dict) (k : Z) (v : string) :
  dict_get (dict_set d k v) k = Some v.
Proof.
  induction d as [|[k' v'] d IH]; cbn [dict_set dict_get].
  - rewrite Z.eqb_refl. reflexivity.
  - destruct (Z.eqb_spec k' k) as [->|Hne]; cbn [dict_get].
    + rewrite Z.eqb_refl. reflexivity.
    + destruct (Z.eqb_spec k' k); [contradiction | exact IH].
Qed.

Lemma dict_get_set_other (d : dict) (k k0 : Z) (v : string) :
  k <> k0 -> dict_get (dict_set d k v) k0 = dict_get d k0.
Proof.
  intros Hne. induction d as [|[k' v'] d IH]; cbn [dict_set dict_get].
  - destruct (Z.eqb_spec k k0); [contradiction | reflexivity].
  - destruct (Z.eqb_spec k' k) as [->|Hk]; cbn [dict_get].
    + destruct (Z.eqb_spec k k0); [contradiction | reflexivity].
    + destruct (Z.eqb_spec k' k0); [reflexivity | exact IH].
Qed.

Lemma dict_set_keys (d : dict) (k : Z) (v : string) :
  map fst (dict_set d k v)
  = if existsb (Z.eqb k) (map fst d) then map fst d else map fst d ++ [k].
Proof.
  induction d as [|[k' v'] d IH]; cbn [dict_set map fst existsb app].
  - reflexivity.
  - rewrite (Z.eqb_sym k k').
    destruct (Z.eqb_spec k' k) as [->|Hk]; cbn [map fst orb].
    + reflexivity.
    + rewrite IH. destruct (existsb (Z.eqb k) (map fst d)); reflexivity.
Qed.

Lemma existsb_eqb_In (k : Z) (l : list Z) :
  existsb (Z.eqb k) l = true <-> In k l.
Proof.
  rewrite existsb_exists. split.
  - intros (x & Hin & E). apply Z.eqb_eq in E. subst. exact Hin.
  - intros H. exists k. split; [exact H | apply Z.eqb_refl].
Qed.

Lemma dict_set_nodup (d : dict) (k : Z) (v : string) :
  NoDup (map fst d) -> NoDup (map fst (dict_set d k v)).
Proof.
  intros H. rewrite dict_set_keys.
  destruct (existsb (Z.eqb k) (map fst d)) eqn:E; [exact H|].
  apply NoDup_app; [exact H | repeat constructor; intros [] |].
  intros x Hx [<-|[]].
  apply existsb_eqb_In in Hx. congruence.
Qed.

Lemma dict_set_in (d : dict) (k : Z) (v : string) (c : Z) :
  In c (map fst (dict_set d k v)) <-> In c (map fst d) \/ c = k.
Proof.
  rewrite dict_set_keys.
  destruct (existsb (Z.eqb k) (map fst d)) eqn:E.
  - apply existsb_eqb_In in E. split; [auto|].
    intros [H| ->]; assumption.
  - rewrite in_app_iff. cbn [In]. intuition congruence.
Qed.

Lemma interpret_loop_app (a b : list option_entry) (d : dict) :
  interpret_loop (a ++ b) d
  = (d1 <- interpret_loop a d ;; interpret_loop b d1).
Proof.
  revert d. induction a as [|[c data] a IH]; intros d; cbn [app interpret_loop].
  - reflexivity.
  - destruct (interpret_option c data) as [v|e]; cbn [bind]; [apply IH|].
    reflexivity.
Qed.

Lemma interpret_loop_other (opts : list option_entry) (c : Z) :
  Forall (fun o => fst o <> c) opts ->
  forall d d', interpret_loop opts d = Ok d' -> dict_get d' c = dict_get d c.
Proof.
  induction 1 as [|[k data] opts Hk _ IH]; intros d d';
    cbn [interpret_loop].
  - intros [= <-]. reflexivity.
  - destruct (interpret_option k data) as [v|e]; cbn [bind]; [|discriminate].
    intros H. rewrite (IH _ _ H). apply dict_get_set_other. exact Hk.
Qed.

(** X12.  When the options of a response are interpreted without
    exception, the text stored under a code is the text of the last entry
    with that code: a later entry replaces what an earlier entry with the
    same code stored. *)
Theorem interpreted_last_wins (pre post : list option_entry) (c : Z)
    (data : bytes) (d d' : dict) :
  interpret_loop (pre ++ (c, data) :: post) d = Ok d' ->
  Forall (fun o => fst o <> c) post ->
  exists v, interpret_option c data = Ok v /\ dict_get d' c = Some v.
Proof.
  intros H Hpost. rewrite interpret_loop_app in H.
  destruct (interpret_loop pre d) as [d1|]; cbn [bind] in H; [|discriminate].
  cbn [interpret_loop] in H.
  destruct (interpret_option c data) as [v|]; cbn [bind] in H;
    [|discriminate].
  exists v. split; [reflexivity|].
  rewrite (interpret_loop_other post c Hpost _ _ H).
  apply dict_get_set_same.
Qed.

Lemma interpreted_last_wins_witness :
  exists v, interpret_option 12 [x62] = Ok v
            /\ dict_get [(12, "b"); (53, "OFFER")] 12 = Some v.
Proof.
  apply (interpreted_last_wins [(12, [x61])] [(53, [x02])] 12 [x62] []).
  - reflexivity.
  - constructor; [discriminate | constructor].
Defined.

Lemma interpret_loop_keys (opts : list option_entry) :
  forall d d',
    interpret_loop opts d = Ok d' ->
    NoDup (map fst d) ->
    NoDup (map fst d')
    /\ (forall c, In c (map fst d')
                  <-> In c (map fst d) \/ In c (map fst opts))
    /\ (length d' <= length d + length opts)%nat.
Proof.
  induction opts as [|[k data] opts IH]; intros d d'; cbn [interpret_loop].
  - intros [= <-] Hnd. split; [exact Hnd|]. split; [|lia].
    intros c. cbn [map In]. tauto.
  - destruct (interpret_option k data) as [v|]; cbn [bind]; [|discriminate].
    intros H Hnd.
    destruct (IH _ _ H (dict_set_nodup d k v Hnd)) as (H1 & H2 & H3).
    split; [exact H1|]. split.
    + intros c. rewrite H2, dict_set_in. cbn [map fst In]. intuition.
    + assert (length (dict_set d k v) <= S (length d))%nat.
      { rewrite <- !(length_map fst), dict_set_keys.
        destruct (existsb (Z.eqb k) (map fst d)); rewrite ?length_app;
          cbn [length]; lia. }
      cbn [length]. lia.
Qed.

(** X13.  When the options of a response are interpreted without
    exception, the dictionary has exactly the codes of the entries as
    keys, each once: entries with a repeated code share one key, so the
    dictionary has at most as many keys as the response has entries. *)
Theorem interpreted_keys (opts : list option_entry) (d' : dict) :
  interpret_loop opts [] = Ok d' ->
  NoDup (map fst d')
  /\ (forall c, In c (map fst d') <-> In c (map fst opts))
  /\ (length d' <= length opts)%nat.
Proof.
  intros H.
  destruct (interpret_loop_keys opts [] d' H (NoDup_nil _)) as (H1 & H2 & H3).
  split; [exact H1|]. split; [|exact H3].
  intros c. rewrite H2. cbn [map In]. tauto.
Qed.

Lemma interpreted_keys_witness :
  NoDup (map fst [(12, "b"); (53, "OFFER")])
  /\ (forall c, In c (map fst [(12, "b"); (53, "OFFER")])
                <-> In c (map fst [(12, [x61]); (53, [x02]); (12, [x62])]))
  /\ (length [(12, "b"); (53, "OFFER")]
      <= length [(12, [x61]); (53, [x02]); (12, [x62])])%nat.
Proof.
  apply (interpreted_keys [(12, [x61]); (53, [x02]); (12, [x62])]).
  reflexivity.
Defined.

(** ** Numbers and text in options *)

Lemma unpack_L_encode (n : Z) :
  0 <= n <= 4294967295 ->
  struct.unpack [struct.fmt_L] (be_encode 4 n) = Ok [struct.Int n].
Proof.
  intros H.
  assert (struct.pack [struct.fmt_L] [struct.Int n] = Ok (be_encode 4 n ++ []))
    as Hp.
  { cbn [struct.pack struct.pack_one]. rewrite in_range_true by exact H.
    reflexivity. }
  rewrite app_nil_r in Hp. rewrite (unpack_pack _ _ _ Hp). reflexivity.
Qed.

Lemma unpack_l_encode (z : Z) :
  -2147483648 <= z <= 2147483647 ->
  struct.unpack [struct.fmt_l] (be_encode 4 z) = Ok [struct.Int z].
Proof.
  intros H.
  assert (struct.pack [struct.fmt_l] [struct.Int z] = Ok (be_encode 4 z ++ []))
    as Hp.
  { cbn [struct.pack struct.pack_one]. rewrite in_range_true by exact H.
    reflexivity. }
  rewrite app_nil_r in Hp. rewrite (unpack_pack _ _ _ Hp). reflexivity.
Qed.

(** X14.  For the codes 51, 58 and 59 (lease, renewal and rebinding
    time), four bytes of data are read as one unsigned big-endian number:
    the text is that number in decimal followed by the unit. *)
Theorem duration_option (opt_code n : Z) :
  in_codes opt_code [51; 58; 59] = true ->
  0 <= n <= 4294967295 ->
  interpret_option opt_code (be_encode 4 n) = Ok (str_int n ++ " сек")%string.
Proof.
  intros Hc Hn.
  pose proof (be_encode_length 4 n) as Hl.
  pose proof (unpack_L_encode n Hn) as Hu.
  set (data := be_encode 4 n) in *.
  unfold interpret_option. rewrite Hl, Hu.
  unfold in_codes in Hc. cbn [existsb] in Hc.
  assert (opt_code = 51 \/ opt_code = 58 \/ opt_code = 59) as Hcode by lia.
  destruct Hcode as [->|[->| ->]]; reflexivity.
Qed.

Lemma duration_option_witness :
  interpret_option 51 (be_encode 4 3600) = Ok (str_int 3600 ++ " сек")%string.
Proof.
  apply duration_option; [reflexivity | lia].
Defined.

(** X15.  For code 2 (time offset) the first four bytes of the data are
    read as a signed big-endian number of seconds, further bytes being
    ignored.  The text shows the number, then hours and minutes with the
    hours rounded down: the minutes are from 0 to 59 also for a negative
    offset, so that -5400 seconds are shown as -2 hours 30 minutes. *)
Theorem time_offset_option (z : Z) (extra : bytes) :
  -2147483648 <= z <= 2147483647 ->
  exists hours minutes,
    interpret_option 2 (be_encode 4 z ++ extra)
    = Ok (str_int z ++ " сек (" ++ str_int_signed hours ++ "ч "
          ++ str_int minutes ++ "м)")%string
    /\ 0 <= minutes <= 59
    /\ hours * 3600 + minutes * 60 <= z < hours * 3600 + minutes * 60 + 60.
Proof.
  intros Hz. exists (z / 3600), ((z mod 3600) / 60).
  split.
  - assert (slice 0 4 (be_encode 4 z ++ extra) = be_encode 4 z) as Hs
      by (apply slice_prefix, be_encode_length).
    assert ((4 <=? length (be_encode 4 z ++ extra))%nat = true) as Hl
      by (apply Nat.leb_le; rewrite length_app, be_encode_length; lia).
    pose proof (unpack_l_encode z Hz) as Hu.
    set (data := be_encode 4 z) in *. set (all := data ++ extra) in *.
    unfold interpret_option. rewrite Hl, Hs, Hu. reflexivity.
  - pose proof (Z.div_mod z 3600 ltac:(lia)) as E1.
    pose proof (Z.mod_pos_bound z 3600 ltac:(lia)) as B1.
    pose proof (Z.div_mod (z mod 3600) 60 ltac:(lia)) as E2.
    pose proof (Z.mod_pos_bound (z mod 3600) 60 ltac:(lia)) as B2.
    lia.
Qed.

Lemma time_offset_option_witness :
  exists hours minutes,
    interpret_option 2 (be_encode 4 (-5400) ++ [x00])
    = Ok (str_int (-5400) ++ " сек (" ++ str_int_signed hours ++ "ч "
          ++ str_int minutes ++ "м)")%string
    /\ 0 <= minutes <= 59
    /\ hours * 3600 + minutes * 60 <= -5400
       < hours * 3600 + minutes * 60 + 60.
Proof.
  apply time_offset_option. lia.
Defined.

Lemma decode_ascii_of_string (s : string) :
  Forall (fun b => byte_val b < 128) (list_byte_of_string s) ->
  decode_ascii_ignore (list_byte_of_string s) = s.
Proof.
  induction s as [|c s IH]; intros H.
  - reflexivity.
  - change (list_byte_of_string (String c s))
      with (byte_of_ascii c :: list_byte_of_string s) in *.
    inversion H as [|? ? Hc Hs]; subst.
    cbn [decode_ascii_ignore].
    destruct (Z.ltb_spec (byte_val (byte_of_ascii c)) 128); [|lia].
    rewrite ascii_of_byte_of_ascii, (IH Hs). reflexivity.
Qed.

(** X16.  For a code outside the lists the interpreter treats
    specially, data that is a non-empty ASCII text is stored as that
    text, unchanged. *)
Theorem text_option (opt_code : Z) (s : string) :
  in_codes opt_code [53; 2; 1; 3; 6; 28; 42; 54; 51; 58; 59] = false ->
  s <> EmptyString ->
  Forall (fun b => byte_val b < 128) (list_byte_of_string s) ->
  interpret_option opt_code (list_byte_of_string s) = Ok s.
Proof.
  intros Hc Hs Hascii. unfold interpret_option.
  unfold in_codes in *. cbn [existsb] in *.
  assert ((opt_code =? 53) = false) as -> by lia.
  assert ((opt_code =? 2) = false) as -> by lia.
  assert ((opt_code =? 1) || ((opt_code =? 3) || ((opt_code =? 6)
            || ((opt_code =? 28) || ((opt_code =? 42)
            || ((opt_code =? 54) || false))))) = false) as -> by lia.
  assert ((opt_code =? 51) || ((opt_code =? 58)
            || ((opt_code =? 59) || false)) = false) as -> by lia.
  cbn [andb].
  destruct s as [|c s]; [contradiction|].
  change (list_byte_of_string (String c s))
    with (byte_of_ascii c :: list_byte_of_string s) in *.
  unfold bytes_eqb at 1.
  destruct (list_eq_dec Byte.byte_eq_dec _ []) as [E|_]; [discriminate E|].
  cbn [negb].
  change (byte_of_ascii c :: list_byte_of_string s)
    with (list_byte_of_string (String c s)) in *.
  rewrite (decode_ascii_of_string _ Hascii). reflexivity.
Qed.

Lemma text_option_witness :
  interpret_option 12 (list_byte_of_string "dhcp-scanner")
  = Ok "dhcp-scanner"%string.
Proof.
  apply text_option.
  - reflexivity.
  - discriminate.
  - repeat constructor.
Defined.

(** ** From the wire to the result *)

Lemma interpret_loop_ok (opts : list option_entry) :
  Forall (fun o => in_codes (fst o) [1; 3; 6; 28; 42; 54] = false) opts ->
  forall d, exists d', interpret_loop opts d = Ok d'.
Proof.
  induction 1 as [|[c data] opts Hc _ IH]; intros d; cbn [interpret_loop].
  - eexists. reflexivity.
  - cbn [fst] in Hc.
    destruct (interpret_option_outcome c data) as [[v ->]|(_ & Hin & _)].
    + cbn [bind]. apply IH.
    + congruence.
Qed.

(** X17.  A scan without bind or send failure whose receive loop meets,
    after messages of other transactions, a message of its own
    transaction that carries no option of the address-list codes returns
    a result to the caller: the result holds that message, the
    interpreted options, the interface and the hardware address, and the
    listener is stopped. *)
Theorem scan_returns_offer (interface : string) (w : world)
    (before after : list DHCPListener.poll) (p : DHCPListener.poll)
    (m : DHCPPacket.t) :
  channel_failure w = false ->
  frame_built w = true ->
  polls w = before ++ p :: after ->
  Forall (fun q => exists m', decodes_to q m' /\ xid m' <> rnd_xid w) before ->
  decodes_to p m ->
  xid m = rnd_xid w ->
  Forall (fun o => in_codes (fst o) [1; 3; 6; 28; 42; 54] = false)
    (options m) ->
  exists parsed_options,
    interpret_loop (options m) [] = Ok parsed_options
    /\ scan_dhcp_options interface w
       = ([MsgGotResponse],
          Some (mk_scan_result m parsed_options interface (mac_address w)),
          DHCPListener.mk (Some interface) false (Some (rnd_xid w))).
Proof.
  intros Hch Hfb Hpolls Hbefore Hp Hx Hopts.
  destruct (interpret_loop_ok (options m) Hopts []) as [parsed_options Hi].
  exists parsed_options. split; [exact Hi|].
  unfold channel_failure in Hch. unfold frame_built in Hfb.
  rewrite scan_cases.
  destruct (listen_create w) as [u1|]; [|discriminate Hch].
  destruct (listen_bind w) as [u2|]; [|discriminate Hch].
  destruct (send_socket w) as [u3|]; [|discriminate Hch].
  destruct (send_dhcp_discover_raw _ _ _ _ _) as [frame|]; [|discriminate Hfb].
  destruct (send_three w) as [u5|]; [|discriminate Hch].
  cbn [bind]. cbv zeta.
  assert (DHCPListener.receive (scan_listener interface w) (polls w)
          = ([], Some m, after)) as ->.
  { unfold DHCPListener.receive.
    change (DHCPListener.socket (scan_listener interface w)) with true.
    cbn [negb]. rewrite Hpolls.
    rewrite (receive_loop_skips (scan_listener interface w) (rnd_xid w)
               before (p :: after) [] eq_refl Hbefore).
    cbn [DHCPListener.receive_loop].
    rewrite (turn_match (scan_listener interface w) (rnd_xid w) p m
               eq_refl Hp Hx).
    reflexivity. }
  rewrite Hi. reflexivity.
Qed.

Lemma scan_returns_offer_witness :
  exists parsed_options,
    interpret_loop (options (reply_decoded 2 3735928559 x02 false)) []
      = Ok parsed_options
    /\ scan_dhcp_options "eth0"
         (quiet_world [reply_poll (reply 2 7 x02 false);
                       reply_poll (reply 2 3735928559 x02 false);
                       reply_poll (reply 2 3735928559 x05 false)])
       = ([MsgGotResponse],
          Some (mk_scan_result (reply_decoded 2 3735928559 x02 false)
                  parsed_options "eth0"
                  (mac_address
                     (quiet_world [reply_poll (reply 2 7 x02 false);
                        reply_poll (reply 2 3735928559 x02 false);
                        reply_poll (reply 2 3735928559 x05 false)]))),
          DHCPListener.mk (Some "eth0") false
            (Some (rnd_xid
                     (quiet_world [reply_poll (reply 2 7 x02 false);
                        reply_poll (reply 2 3735928559 x02 false);
                        reply_poll (reply 2 3735928559 x05 false)])))).
Proof.
  apply (scan_returns_offer "eth0" _ [reply_poll (reply 2 7 x02 false)]
           [reply_poll (reply 2 3735928559 x05 false)]
           (reply_poll (reply 2 3735928559 x02 false))).
  - reflexivity.
  - vm_compute. reflexivity.
  - reflexivity.
  - constructor; [|constructor].
    exists (reply_decoded 2 7 x02 false). split.
    + apply reply_decodes; vm_compute; reflexivity.
    + cbn. discriminate.
  - apply reply_decodes; vm_compute; reflexivity.
  - reflexivity.
  - repeat constructor.
Defined.



(** ** Which responses a scan can report *)

Lemma address_entry_spec (c : Z) (data : bytes) :
  address_entry (c, data) = true
  <-> in_codes c [1; 3; 6; 28; 42; 54] = true
      /\ data <> [] /\ (length data mod 4 = 0)%nat.
Proof.
  unfold address_entry. cbn [fst snd].
  rewrite !andb_true_iff, negb_true_iff, Nat.eqb_eq.
  pose proof (bytes_eqb_nil data) as Hn.
  destruct (bytes_eqb data []); split.
  - intros [[_ H] _]. discriminate H.
  - intros (_ & H & _). exfalso. apply H, Hn. reflexivity.
  - intros [[Hc _] Hm]. split; [exact Hc|]. split; [|exact Hm].
    intros Hd. apply Hn in Hd. discriminate Hd.
  - intros (Hc & _ & Hm). auto.
Qed.

Lemma interpret_loop_address (opts : list option_entry) :
  existsb address_entry opts = true ->
  forall d, interpret_loop opts d = Raise TypeError.
Proof.
  induction opts as [|[c data] opts IH]; cbn [existsb interpret_loop].
  - discriminate.
  - intros H d.
    destruct (interpret_option_outcome c data) as [[v Hv]|(Hr & _)].
    + rewrite Hv. cbn [bind]. apply IH.
      destruct (address_entry (c, data)) eqn:Ha; [|exact H].
      apply address_entry_spec in Ha as (Hc & Hd & Hm).
      rewrite (address_option_raises c data Hc Hd Hm) in Hv. discriminate Hv.
    + rewrite Hr. reflexivity.
Qed.

Lemma interpret_loop_no_address (opts : list option_entry) :
  existsb address_entry opts = false ->
  forall d, exists d', interpret_loop opts d = Ok d'.
Proof.
  induction opts as [|[c data] opts IH]; cbn [existsb interpret_loop].
  - intros _ d. eexists. reflexivity.
  - intros H d. apply orb_false_iff in H as [Ha H].
    destruct (interpret_option_outcome c data)
      as [[v ->]|(_ & Hc & Hd & Hm)].
    + cbn [bind]. apply IH. exact H.
    + assert (address_entry (c, data) = true) as Ht
        by (apply address_entry_spec; auto).
      congruence.
Qed.

(** X19.  Once the receive loop of a scan without bind or send failure
    has returned a message, the scan reports it exactly when the message
    has no option of an address-list code (1, 3, 6, 28, 42, 54) with data
    of a positive multiple of four bytes.  With such an option the
    interpretation raises [TypeError]: the scan prints the got-response
    line, then the error line, and returns [None].  Without one it
    returns the message with its interpreted options.  So no result a
    scan returns holds such an option. *)
Theorem scan_reports_iff_no_address (interface : string) (w : world) :
  (forall m,
     channel_failure w = false ->
     frame_built w = true ->
     answer interface w = Some m ->
     (existsb address_entry (options m) = true ->
      returned interface w = None
      /\ exists out,
           printed interface w
           = out ++ [MsgGotResponse; MsgScanError TypeError])
     /\ (existsb address_entry (options m) = false ->
         exists parsed_options,
           interpret_loop (options m) [] = Ok parsed_options
           /\ returned interface w
              = Some (mk_scan_result m parsed_options interface
                        (mac_address w))))
  /\ (forall r,
        returned interface w = Some r ->
        existsb address_entry (options (response r)) = false).
Proof.
  unfold returned, printed, answer, channel_failure, frame_built.
  rewrite scan_cases.
  destruct (listen_create w) as [u1|e1].
  2:{ cbn. split; [intros; discriminate | discriminate]. }
  destruct (listen_bind w) as [u2|e2].
  2:{ cbn. split; [intros; discriminate | discriminate]. }
  destruct (send_socket w) as [u3|e3].
  2:{ cbn. split; [intros; discriminate | discriminate]. }
  cbn [is_ok negb orb bind].
  destruct (send_dhcp_discover_raw _ _ _ _ _) as [frame|e4].
  2:{ cbn. split; [intros; discriminate | discriminate]. }
  cbn [bind is_ok].
  destruct (send_three w) as [u5|e5].
  2:{ cbn. split; [intros; discriminate | discriminate]. }
  cbv zeta. cbn [is_ok negb].
  destruct (DHCPListener.receive (scan_listener interface w) (polls w))
    as [[out [resp|]] rest]; cbn [fst snd].
  2:{ split; [intros; discriminate | discriminate]. }
  destruct (existsb address_entry (options resp)) eqn:Ha.
  - rewrite (interpret_loop_address _ Ha []). cbn [fst snd]. split.
    + intros m _ _ [= <-]. rewrite Ha. split; [|discriminate].
      intros _. split; [reflexivity|].
      exists out. rewrite <- app_assoc. reflexivity.
    + discriminate.
  - destruct (interpret_loop_no_address _ Ha []) as [d Hd]. rewrite Hd.
    cbn [fst snd]. split.
    + intros m _ _ [= <-]. rewrite Ha. split; [discriminate|].
      intros _. exists d. split; [exact Hd | reflexivity].
    + intros r [= <-]. cbn [response]. exact Ha.
Qed.

Lemma scan_reports_iff_no_address_witness :
  returned "eth0" (offer_world true) = None
  /\ exists out,
       printed "eth0" (offer_world true)
       = out ++ [MsgGotResponse; MsgScanError TypeError].
Proof.
  apply (proj1 (scan_reports_iff_no_address "eth0" (offer_world true))
           (reply_decoded 2 3735928559 x02 true)).
  - reflexivity.
  - vm_compute. reflexivity.
  - vm_compute. reflexivity.
  - vm_compute. reflexivity.
Defined.

(** ** The display of a result *)

Lemma appends_print (l : shown) : appends (print l) [l] tt.
Proof. intros out. reflexivity. Qed.

Lemma appends_bind {A B} (m : printing A) (k : A -> printing B)
    (l1 l2 : list shown) (a : A) (b : B) :
  appends m l1 a -> appends (k a) l2 b -> appends (bind_p m k) (l1 ++ l2) b.
Proof.
  intros Hm Hk out. unfold bind_p. rewrite Hm, Hk, app_assoc. reflexivity.
Qed.

Lemma appends_getitem (d : dict) (k : Z) (v : string) :
  dict_get d k = Some v -> appends (getitem d k) [] v.
Proof. intros H out. unfold getitem. rewrite H, app_nil_r. reflexivity. Qed.

Lemma dict_get_key (d : dict) (k : Z) :
  In k (keys d) -> dict_get d k = Some (value_of d k).
Proof.
  unfold value_of. induction d as [|[k' v'] d IH]; cbn [keys map fst In dict_get].
  - intros [].
  - destruct (Z.eqb_spec k' k) as [_|Hk]; [reflexivity|].
    intros [H|H]; [contradiction|]. apply IH. exact H.
Qed.

Lemma in_codes_In (c : Z) (l : list Z) : in_codes c l = true <-> In c l.
Proof.
  unfold in_codes. rewrite existsb_exists. split.
  - intros (x & Hx & E). apply Z.eqb_eq in E. subst. exact Hx.
  - intros H. exists c. split; [exact H | apply Z.eqb_refl].
Qed.

Lemma plain_extract (ls : list shown) :
  plain ls -> rows ls = [] /\ found_counts ls = [] /\ total_counts ls = [].
Proof.
  induction 1 as [|l ls [s ->] _ IH]; [repeat split|].
  unfold rows, found_counts, total_counts in *. cbn [flat_map app]. exact IH.
Qed.

(** A loop whose body looks the code up and prints one row. *)
Lemma for_each_rows (d : dict) (body : Z -> printing unit) (codes : list Z) :
  (forall c v, dict_get d c = Some v ->
     exists mark note,
       appends (body c) [Row mark c (option_name c) v note] tt) ->
  Forall (fun c => In c (keys d)) codes ->
  exists ls,
    appends (for_each codes body) ls tt
    /\ rows ls = map (fun c => (c, value_of d c)) codes
    /\ found_counts ls = [] /\ total_counts ls = [].
Proof.
  intros Hb. induction 1 as [|c codes Hc _ (ls & Hl & Hr & Hf & Ht)].
  - exists []. split; [|repeat split].
    intros out. cbn [for_each]. rewrite app_nil_r. reflexivity.
  - destruct (Hb c _ (dict_get_key d c Hc)) as (mark & note & Hrow).
    eexists. split.
    + cbn [for_each]. eapply appends_bind; [exact Hrow | exact Hl].
    + unfold rows, found_counts, total_counts in *.
      cbn [app flat_map map]. rewrite Hr, Hf, Ht. repeat split.
Qed.

(** *** [sorted] *)

Lemma insert_sorted_perm (x : Z) (l : list Z) :
  Permutation (insert_sorted x l) (x :: l).
Proof.
  induction l as [|y l IH]; cbn [insert_sorted]; [reflexivity|].
  destruct (x <=? y); [reflexivity|].
  rewrite IH. apply perm_swap.
Qed.

Lemma sorted_perm (l : list Z) : Permutation (sorted l) l.
Proof.
  induction l as [|x l IH]; cbn [sorted fold_right]; [reflexivity|].
  fold (sorted l). rewrite insert_sorted_perm. apply perm_skip, IH.
Qed.

Lemma insert_sorted_ascending (x : Z) (l : list Z) :
  StronglySorted Z.le l -> StronglySorted Z.le (insert_sorted x l).
Proof.
  induction 1 as [|y l Hs IH Hy]; cbn [insert_sorted].
  - constructor; constructor.
  - destruct (Z.leb_spec x y) as [Hxy|Hxy].
    + constructor; [constructor; assumption|].
      constructor; [exact Hxy|].
      eapply Forall_impl; [|exact Hy]. cbv beta. intros; lia.
    + constructor; [exact IH|].
      eapply Permutation_Forall;
        [symmetry; apply insert_sorted_perm|].
      constructor; [lia | exact Hy].
Qed.

Lemma sorted_ascending (l : list Z) : StronglySorted Z.le (sorted l).
Proof.
  induction l as [|x l IH]; cbn [sorted fold_right]; [constructor|].
  apply insert_sorted_ascending, IH.
Qed.

Lemma filter_perm (f : Z -> bool) (l l' : list Z) :
  Permutation l l' -> Permutation (filter f l) (filter f l').
Proof.
  induction 1 as [|x l l' _ IH|x y l|l l' l'' _ IH1 _ IH2]; cbn [filter].
  - reflexivity.
  - destruct (f x); [apply perm_skip|]; exact IH.
  - destruct (f x), (f y); try reflexivity. apply perm_swap.
  - etransitivity; eassumption.
Qed.

(** Three tests of which exactly one holds split a list. *)
Lemma filter_three (p q r : Z -> bool) (l : list Z) :
  (forall c, (p c = true /\ q c = false /\ r c = false)
             \/ (p c = false /\ q c = true /\ r c = false)
             \/ (p c = false /\ q c = false /\ r c = true)) ->
  Permutation (filter p l ++ filter q l ++ filter r l) l.
Proof.
  intros H. induction l as [|c l IH]; cbn [filter]; [reflexivity|].
  destruct (H c) as [(-> & -> & ->)|[(-> & -> & ->)|(-> & -> & ->)]].
  - cbn [app]. apply perm_skip, IH.
  - symmetry. apply Permutation_cons_app. symmetry. exact IH.
  - symmetry. rewrite app_assoc. apply Permutation_cons_app.
    rewrite <- app_assoc. symmetry. exact IH.
Qed.

Lemma groups_disjoint (c : Z) :
  (in_codes c time_options = true
   /\ in_codes c network_options = false
   /\ negb (in_codes c (time_options ++ network_options)) = false)
  \/ (in_codes c time_options = false
      /\ in_codes c network_options = true
      /\ negb (in_codes c (time_options ++ network_options)) = false)
  \/ (in_codes c time_options = false
      /\ in_codes c network_options = false
      /\ negb (in_codes c (time_options ++ network_options)) = true).
Proof.
  unfold in_codes. rewrite existsb_app.
  destruct (existsb (Z.eqb c) time_options) eqn:Et.
  - left. split; [reflexivity|]. split; [|reflexivity].
    apply existsb_exists in Et as (x & Hx & E). apply Z.eqb_eq in E. subst x.
    unfold time_options in Hx. cbn [In] in Hx.
    destruct Hx as [<-|[<-|[<-|[<-|[<-|[<-|[<-|[]]]]]]]]; reflexivity.
  - right. destruct (existsb (Z.eqb c) network_options); [left|right];
      repeat split.
Qed.

(** The codes of the three groups, as the table lists them. *)
Lemma groups_perm (l : list Z) :
  Permutation
    (sorted (filter (fun opt => in_codes opt time_options) l)
     ++ sorted (filter (fun opt => in_codes opt network_options) l)
     ++ sorted (filter (fun opt_code =>
                          negb (in_codes opt_code
                                  (time_options ++ network_options)))
                  (sorted l)))
    l.
Proof.
  rewrite !sorted_perm.
  rewrite (filter_perm _ _ _ (sorted_perm l)).
  apply filter_three. intros c. apply groups_disjoint.
Qed.

Lemma value_of_keys (d : dict) :
  NoDup (keys d) -> map (fun c => (c, value_of d c)) (keys d) = d.
Proof.
  unfold value_of.
  induction d as [|[k v] d IH]; cbn [keys map fst]; [reflexivity|].
  intros Hnd. inversion Hnd as [|? ? Hk Hd]; subst.
  cbn [dict_get]. rewrite Z.eqb_refl. f_equal.
  rewrite <- (IH Hd) at 2. apply map_ext_in. intros c Hc.
  destruct (Z.eqb_spec k c) as [->|_]; [contradiction | reflexivity].
Qed.

Lemma sorted_filter_keys (f : Z -> bool) (l : list Z) (d : dict) :
  Permutation l (keys d) ->
  Forall (fun c => In c (keys d)) (sorted (filter f l)).
Proof.
  intros Hp. apply Forall_forall. intros c Hc.
  apply (Permutation_in _ (sorted_perm _)) in Hc.
  apply filter_In in Hc as [Hc _].
  apply (Permutation_in _ Hp). exact Hc.
Qed.

Lemma appends_getitem_bind {B} (d : dict) (k : Z) (v : string)
    (f : string -> printing B) (l : list shown) (b : B) :
  dict_get d k = Some v ->
  appends (f v) l b ->
  appends (bind_p (getitem d k) f) l b.
Proof.
  intros Hv Hf. apply (appends_bind _ _ [] l v b); [|exact Hf].
  apply appends_getitem. exact Hv.
Qed.

Ltac print_steps :=
  repeat (eapply appends_bind; [apply appends_print|]); try apply appends_print.

Ltac row_body :=
  let c := fresh "c" in
  let v := fresh "v" in
  let Hv := fresh "Hv" in
  intros c v Hv; destruct (c =? 2); [|destruct (c =? 42)];
  do 2 eexists; (eapply appends_getitem_bind; [exact Hv|]);
  apply appends_print.

(** The lines [display_results] prints: no [KeyError], the rows of the
    three groups one after the other, and the two counts. *)
Lemma display_results_lines (results : scan_result) :
  exists ls,
    appends (display_results results) ls tt
    /\ rows ls
       = map (fun c => (c, value_of (parsed results) c))
           (sorted (filter (fun opt => in_codes opt time_options)
                      (keys (parsed results)))
            ++ sorted (filter (fun opt => in_codes opt network_options)
                         (keys (parsed results)))
            ++ sorted (filter (fun opt_code =>
                                 negb (in_codes opt_code
                                         (time_options ++ network_options)))
                         (sorted (keys (parsed results)))))
    /\ found_counts ls = [length (options (response results))]
    /\ total_counts ls = [length (parsed results)].
Proof.
  unfold display_results. cbv zeta.
  set (d := parsed results).
  set (T := sorted (filter (fun opt => in_codes opt time_options) (keys d))).
  set (N := sorted (filter (fun opt => in_codes opt network_options)
                      (keys d))).
  set (O := sorted (filter _ (sorted (keys d)))).
  match goal with
  | |- context [for_each T ?b] =>
      destruct (for_each_rows d b T) as (lt & Ht & Rt & Ft & Tt);
        [row_body | apply sorted_filter_keys; reflexivity |]
  end.
  match goal with
  | |- context [for_each N ?b] =>
      destruct (for_each_rows d b N) as (ln & Hn & Rn & Fn & Tn);
        [row_body | apply sorted_filter_keys; reflexivity |]
  end.
  match goal with
  | |- context [for_each O ?b] =>
      destruct (for_each_rows d b O) as (lo & Ho & Ro & Fo & To);
        [row_body | apply sorted_filter_keys, sorted_perm |]
  end.
  assert (Hplain : forall l, Forall (fun x => exists s, x = Text s) l ->
                           plain l) by (intros l H; exact H).
  match goal with
  | |- context [bind_p (if in_codes 2 (keys d) then ?a else ?b) _] =>
      assert (exists l2,
                 appends (if in_codes 2 (keys d) then a else b) l2 tt
                 /\ plain l2) as (l2 & H2 & P2)
  end.
  { destruct (in_codes 2 (keys d)) eqn:E.
    - apply in_codes_In, dict_get_key in E.
      eexists. split.
      + eapply appends_bind; [apply appends_print|].
        eapply appends_getitem_bind; [exact E|]. print_steps.
      + apply Hplain. repeat (constructor; [eexists; reflexivity|]).
        constructor.
    - eexists. split; [print_steps|].
      apply Hplain. repeat (constructor; [eexists; reflexivity|]).
      constructor. }
  match goal with
  | |- context [bind_p (if in_codes 42 (keys d) then ?a else ?b) _] =>
      assert (exists l42,
                 appends (if in_codes 42 (keys d) then a else b) l42 tt
                 /\ plain l42) as (l42 & H42 & P42)
  end.
  { destruct (in_codes 42 (keys d)) eqn:E.
    - apply in_codes_In, dict_get_key in E.
      eexists. split.
      + eapply appends_bind; [apply appends_print|].
        eapply appends_getitem_bind; [exact E|]. print_steps.
      + apply Hplain. repeat (constructor; [eexists; reflexivity|]).
        constructor.
    - eexists. split; [print_steps|].
      apply Hplain. repeat (constructor; [eexists; reflexivity|]).
      constructor. }
  apply plain_extract in P2 as (R2 & F2 & T2).
  apply plain_extract in P42 as (R42 & F42 & T42).
  eexists. split.
  { print_steps.
    eapply appends_bind; [exact Ht|]. print_steps.
    eapply appends_bind; [exact Hn|]. print_steps.
    eapply appends_bind; [exact Ho|].
    eapply appends_bind; [exact H2|].
    eapply appends_bind; [exact H42|].
    apply appends_print. }
  unfold rows, found_counts, total_counts in *.
  repeat (cbn [app flat_map] || rewrite flat_map_app).
  rewrite Rt, Rn, Ro, Ft, Fn, Fo, Tt, Tn, To, R2, R42, F2, F42, T2, T42.
  rewrite !map_app, !app_nil_r. cbn [app]. repeat split.
Qed.

(** X20.  [display_results] raises no [KeyError], whatever the
    dictionary.  The rows of its table come in three groups, the time
    codes, the network codes and the others, each in ascending order of
    the code; and every key of the dictionary has exactly one row, with
    its value: no option is left out and none is shown twice. *)
Theorem display_shows_every_option (results : scan_result) :
  snd (display_results results []) = Some tt
  /\ (exists ts ns os,
        map fst (rows (fst (display_results results []))) = ts ++ ns ++ os
        /\ StronglySorted Z.le ts
        /\ StronglySorted Z.le ns
        /\ StronglySorted Z.le os
        /\ Forall (fun c => In c time_options) ts
        /\ Forall (fun c => In c network_options) ns
        /\ Forall (fun c => ~ In c time_options /\ ~ In c network_options)
             os)
  /\ (NoDup (keys (parsed results)) ->
      Permutation (rows (fst (display_results results []))) (parsed results)).
Proof.
  destruct (display_results_lines results) as (ls & H & R & _ & _).
  rewrite (H []). cbn [fst snd app]. split; [reflexivity|]. split.
  - do 3 eexists. split.
    { rewrite R, map_map. cbn [fst]. rewrite map_id. reflexivity. }
    split; [apply sorted_ascending|].
    split; [apply sorted_ascending|].
    split; [apply sorted_ascending|].
    split; [|split]; apply Forall_forall; intros c Hc;
      apply (Permutation_in _ (sorted_perm _)) in Hc;
      apply filter_In in Hc as [_ Hc].
    + apply in_codes_In. exact Hc.
    + apply in_codes_In. exact Hc.
    + apply negb_true_iff in Hc.
      assert (~ In c (time_options ++ network_options)) as Hn.
      { intros Hin. apply in_codes_In in Hin. congruence. }
      rewrite in_app_iff in Hn. tauto.
  - intros Hnd. rewrite R.
    etransitivity; [apply Permutation_map, groups_perm|].
    rewrite (value_of_keys _ Hnd). reflexivity.
Qed.

Lemma display_shows_every_option_witness :
  Permutation (rows (fst (display_results offer_result [])))
    (parsed offer_result).
Proof.
  apply (proj2 (proj2 (display_shows_every_option offer_result))).
  constructor.
  - intros [H|[]]. discriminate H.
  - constructor; [intros [] | constructor].
Defined.

Lemma returned_interpreted (interface : string) (w : world) (r : scan_result) :
  returned interface w = Some r ->
  interpret_loop (options (response r)) [] = Ok (parsed r).
Proof.
  unfold returned. rewrite scan_cases.
  destruct (listen_create w) as [u1|e1]; [|discriminate].
  destruct (listen_bind w) as [u2|e2]; [|discriminate].
  destruct (send_socket w) as [u3|e3]; [|discriminate].
  cbn [bind].
  destruct (send_dhcp_discover_raw _ _ _ _ _) as [frame|e4]; [|discriminate].
  cbn [bind].
  destruct (send_three w) as [u5|e5]; [|discriminate].
  cbv zeta.
  destruct (DHCPListener.receive (scan_listener interface w) (polls w))
    as [[out [resp|]] rest]; [|discriminate].
  destruct (interpret_loop (options resp) []) as [p|e6] eqn:Ei;
    [|discriminate].
  cbn [fst snd]. intros [= <-]. exact Ei.
Qed.

(** The dictionary grows by one key for every entry exactly when the
    entries bring codes that are new and differ from each other. *)
Lemma interpret_loop_length (opts : list option_entry) :
  forall d d',
    interpret_loop opts d = Ok d' ->
    NoDup (map fst d) ->
    (length d' = length d + length opts)%nat
    <-> NoDup (map fst opts)
        /\ Forall (fun c => ~ In c (map fst d)) (map fst opts).
Proof.
  induction opts as [|[k data] opts IH]; intros d d'; cbn [interpret_loop].
  - intros [= <-] _. cbn [map length]. split.
    + intros _. split; constructor.
    + intros _. lia.
  - destruct (interpret_option k data) as [v|]; cbn [bind]; [|discriminate].
    intros H Hnd.
    pose proof (dict_set_nodup d k v Hnd) as Hnd1.
    destruct (interpret_loop_keys opts _ _ H Hnd1) as (_ & _ & Hle).
    specialize (IH _ _ H Hnd1).
    pose proof (dict_set_keys d k v) as Hk.
    assert (length (dict_set d k v) = length (map fst (dict_set d k v)))
      as Hl1 by (rewrite length_map; reflexivity).
    cbn [map fst length].
    destruct (existsb (Z.eqb k) (map fst d)) eqn:E.
    + rewrite Hk, length_map in Hl1. apply existsb_eqb_In in E. split.
      * intros Hl. lia.
      * intros [_ Hf]. inversion Hf as [|? ? Hn _]; subst. contradiction.
    + rewrite Hk, length_app, length_map in Hl1. cbn [length] in Hl1.
      assert (~ In k (map fst d)) as Hnk.
      { intros Hin. apply existsb_eqb_In in Hin. congruence. }
      rewrite Hk in IH. split.
      * intros Hl. destruct IH as [IH _]. destruct IH as [Hn Hf]; [lia|].
        rewrite Forall_forall in Hf. split.
        -- constructor; [|exact Hn]. intros Hin. apply (Hf k Hin).
           apply in_app_iff. right. left. reflexivity.
        -- constructor; [exact Hnk|]. apply Forall_forall. intros c Hc Hin.
           apply (Hf c Hc). apply in_app_iff. left. exact Hin.
      * intros [Hn Hf]. inversion Hn as [|? ? Hk' Hn']; subst.
        inversion Hf as [|? ? _ Hf']; subst.
        destruct IH as [_ IH]. rewrite IH; [lia|]. split; [exact Hn'|].
        rewrite Forall_forall in Hf'. apply Forall_forall. intros c Hc Hin.
        apply in_app_iff in Hin as [Hin|[<-|[]]].
        -- exact (Hf' c Hc Hin).
        -- contradiction.
Qed.

(** X21.  For the result of a scan, the heading of the table gives the
    number of option entries of the response, the summary line the
    number of keys of the dictionary.  The second is at most the first,
    and the two agree exactly when no code occurs twice among the
    entries of the response. *)
Theorem display_counts (interface : string) (w : world) (r : scan_result) :
  returned interface w = Some r ->
  found_counts (fst (display_results r [])) = [length (options (response r))]
  /\ total_counts (fst (display_results r [])) = [length (parsed r)]
  /\ (length (parsed r) <= length (options (response r)))%nat
  /\ (length (parsed r) = length (options (response r))
      <-> NoDup (map fst (options (response r)))).
Proof.
  intros Hr. apply returned_interpreted in Hr.
  destruct (display_results_lines r) as (ls & H & _ & F & T).
  rewrite (H []). cbn [fst app].
  split; [exact F|]. split; [exact T|].
  assert (NoDup (map fst (@nil (Z * string)))) as Hnil by constructor.
  destruct (interpret_loop_keys _ _ _ Hr Hnil) as (_ & _ & Hle).
  cbn [length Nat.add] in Hle. split; [exact Hle|].
  pose proof (interpret_loop_length _ _ _ Hr Hnil) as Hl.
  cbn [length Nat.add map] in Hl. rewrite Hl. split.
  - intros [Hn _]. exact Hn.
  - intros Hn. split; [exact Hn|]. apply Forall_forall. intros c _ [].
Qed.

Lemma display_counts_witness :
  found_counts (fst (display_results offer_result []))
  = [length (options (response offer_result))]
  /\ total_counts (fst (display_results offer_result []))
     = [length (parsed offer_result)]
  /\ (length (parsed offer_result)
      <= length (options (response offer_result)))%nat
  /\ (length (parsed offer_result) = length (options (response offer_result))
      <-> NoDup (map fst (options (response offer_result)))).
Proof.
  apply (display_counts "eth0" (offer_world false) offer_result).
  vm_compute. reflexivity.
Defined.

(** *** The columns of a row *)

Lemma str_length_app (a b : string) :
  String.length (a ++ b)%string = (String.length a + String.length b)%nat.
Proof.
  induction a as [|c a IH]; cbn [String.append String.length Nat.add];
    [reflexivity|].
  rewrite IH. reflexivity.
Qed.

Lemma str_app_assoc (a b c : string) :
  ((a ++ b) ++ c = a ++ (b ++ c))%string.
Proof.
  induction a as [|x a IH]; cbn [String.append]; [reflexivity|].
  rewrite IH. reflexivity.
Qed.

Lemma str_mul_blank_length (n : nat) : String.length (str_mul " " n) = n.
Proof.
  induction n as [|n IH]; cbn [str_mul String.append String.length];
    [reflexivity|].
  rewrite IH. reflexivity.
Qed.

Lemma rjust_length (n : nat) (s : string) :
  (String.length s <= n)%nat -> String.length (rjust n s) = n.
Proof.
  intros H. unfold rjust. rewrite str_length_app, str_mul_blank_length. lia.
Qed.

Lemma ljust_text_length (n : nat) (s : string) :
  (String.length s <= n)%nat -> String.length (ljust_text n s) = n.
Proof.
  intros H. unfold ljust_text.
  rewrite str_length_app, str_mul_blank_length. lia.
Qed.

(** The codes up to 999 are written with at most three digits, and their
    names, those of [DHCP_OPTIONS] and the [Unknown] ones, have at most
    25 characters. *)
Lemma small_codes_fit :
  forallb (fun n =>
             (String.length (str_int (Z.of_nat n)) <=? 3)%nat
             && (String.length (option_name (Z.of_nat n)) <=? 25)%nat)
    (seq 0 1000) = true.
Proof. vm_compute. reflexivity. Qed.

(** X22.  The table is aligned: in the row of every code from 0 to 999,
    so of every code a DHCP option can have, the text printed between
    the mark and the value has 35 characters, the code taking three
    columns and the name 25. *)
Theorem row_columns (mark value note : string) (opt_code : Z) :
  0 <= opt_code <= 999 ->
  exists pad,
    render (Row mark opt_code (option_name opt_code) value note)
    = ("  " ++ mark ++ pad ++ value ++ note)%string
    /\ String.length pad = 35%nat.
Proof.
  intros Hc.
  pose proof small_codes_fit as Hfit. rewrite forallb_forall in Hfit.
  specialize (Hfit (Z.to_nat opt_code)).
  rewrite Z2Nat.id in Hfit by lia.
  destruct (proj1 (andb_true_iff _ _) (Hfit ltac:(apply in_seq; lia)))
    as [H3 H25].
  apply Nat.leb_le in H3. apply Nat.leb_le in H25.
  exists (" " ++ rjust 3 (str_int opt_code) ++ " - "
          ++ ljust_text 25 (option_name opt_code) ++ " : ")%string.
  split.
  - cbn [render]. rewrite !str_app_assoc. reflexivity.
  - rewrite !str_length_app, (rjust_length _ _ H3),
      (ljust_text_length _ _ H25).
    reflexivity.
Qed.

Lemma row_columns_witness :
  exists pad,
    render (Row "*" 54 (option_name 54) "10.0.0.1" EmptyString)
    = ("  " ++ "*" ++ pad ++ "10.0.0.1" ++ EmptyString)%string
    /\ String.length pad = 35%nat.
Proof.
  apply (row_columns "*" "10.0.0.1" EmptyString 54). lia.
Defined.
